(** * seasonsbot: the warning ledger, the license ledger and the violation catalog

    A shallow embedding of [violations.py], [database.py],
    [license_manager.py] and of the warning-issuing loop of [bot.py],
    followed by the properties of the ledgers.

    Conventions of the embedding:
    - a Python [int] is a [Z];
    - a [datetime] is the number of microseconds since an arbitrary epoch,
      a [Z]; [isoformat]/[fromisoformat] are inverse to each other on naive
      datetimes and the ISO text of four-digit years orders like the
      instants, so a stored timestamp is kept as the [Z] itself;
    - [datetime.now()] is an input: every function takes the readings of
      the clock it makes, in program order, as arguments;
    - a [dict] is a [gmap]; the per-user list of warning ids is a [list];
    - the JSON file is a value of type [File]; a function that loads and
      saves takes the file and returns the new one. *)

From Stdlib Require Import ZArith Lia Ascii String DecimalString DecimalZ DecimalN Sorted.
From stdpp Require Import gmap strings list fin_maps.

Local Open Scope string_scope.
Local Open Scope Z_scope.

(** ** The Python builtins the ledgers rely on *)

Module Py.

(** [str(n)] for an [int]: decimal, no leading zero, [-] for negatives. *)
Definition str (n : Z) : string := NilZero.string_of_int (Z.to_int n).

Definition is_digit_char (c : ascii) : bool :=
  ((48 <=? nat_of_ascii c) && (nat_of_ascii c <=? 57))%nat.

Fixpoint all_digits (s : string) : bool :=
  match s with
  | EmptyString => true
  | String c s' => is_digit_char c && all_digits s'
  end.

(** [s.isdigit()] on ASCII text: non-empty and only [0]..[9]. The ids the
    ledger writes are ASCII; the digits of other scripts, which Python
    accepts too, are outside this model. *)
Definition isdigit (s : string) : bool :=
  match s with
  | EmptyString => false
  | _ => all_digits s
  end.

(** [int(s)] at a string of digits (leading zeros allowed); [None] stands
    for [ValueError]. Integers are unbounded, as in Python; the limit the
    interpreter puts on the length of a converted text is not modelled. *)
Definition int (s : string) : option Z :=
  match NilZero.uint_of_string s with
  | Some d => Some (Z.of_N (N.of_uint d))
  | None => None
  end.

(** [timedelta(weeks=w)] and [timedelta(days=d)] in microseconds. *)
Definition timedelta_days (d : Z) : Z := d * 86400 * 1000000.
Definition timedelta_weeks (w : Z) : Z := timedelta_days (7 * w).

(** [sorted(l, key=..., reverse=True)]: descending and stable (elements
    with equal keys keep their order). *)
Section Sorted.
Context {A : Type} (key : A → Z).

Fixpoint insert_desc (x : A) (l : list A) : list A :=
  match l with
  | [] => [x]
  | y :: t => if key y <=? key x then x :: y :: t else y :: insert_desc x t
  end.

Definition sorted_reverse (l : list A) : list A := foldr insert_desc [] l.
End Sorted.

(** [l[:limit]]: a negative limit counts from the end. *)
Definition slice_to {A} (l : list A) (limit : Z) : list A :=
  if 0 <=? limit then take (Z.to_nat limit) l
  else take (Z.to_nat (Z.of_nat (length l) + limit)) l.

(** [s.lower()] on ASCII text. *)
Definition lower_char (c : ascii) : ascii :=
  let n := nat_of_ascii c in
  if ((65 <=? n) && (n <=? 90))%nat then ascii_of_nat (n + 32) else c.

Fixpoint lower (s : string) : string :=
  match s with
  | EmptyString => EmptyString
  | String c s' => String (lower_char c) (lower s')
  end.

(** [needle in hay] for two strings. *)
Fixpoint contains (needle hay : string) : bool :=
  if String.prefix needle hay then true
  else match hay with
       | EmptyString => false
       | String _ hay' => contains needle hay'
       end.

(** Exceptions, and the result of a computation that may raise one. *)
Inductive Exn := FileNotFoundError | JSONDecodeError | KeyError (key : string).

Inductive Exc (A : Type) := Raise (e : Exn) | Return (a : A).
Arguments Raise {A} e.
Arguments Return {A} a.

#[global] Instance Exc_ret : MRet Exc := @Return.
#[global] Instance Exc_bind : MBind Exc := λ A B k m,
  match m with
  | Raise e => Raise e
  | Return a => k a
  end.

(** [try: body / except Exception: handler]. *)
Definition try_except {A} (body : Exc A) (handler : Exn → Exc A) : Exc A :=
  match body with
  | Raise e => handler e
  | Return a => Return a
  end.

(** The file behind a ledger: absent, present with text that [json.loads]
    rejects, or present with a JSON document of the ledger. A JSON text of
    another shape is not represented. *)
Inductive File (D : Type) := Missing | Garbled | Json (doc : D).
Arguments Missing {D}.
Arguments Garbled {D}.
Arguments Json {D} doc.

(** [json.loads(await f.read())] under [aiofiles.open(path, 'r')]. *)
Definition read_json {D} (f : File D) : Exc D :=
  match f with
  | Missing => Raise FileNotFoundError
  | Garbled => Raise JSONDecodeError
  | Json doc => Return doc
  end.

End Py.

(** ** violations.py *)

Module Violations.

Record Violation := mkViolation {
  base_points : Z;
  repeat_penalty : Z;
  description : string;
  grade : Z
}.

Definition VIOLATIONS : list (string * Violation) :=
  [ ("RDM / VDM",
     mkViolation 10 5 "Killing or running over others without proper RP." 1);
    ("Mass RDM / Mass VDM",
     mkViolation 25 10 "Killing 3+ people without RP." 2);
    ("NLR",
     mkViolation 10 5 "Returning to the scene after death." 1);
    ("FailRP (NVL, GP>RP, LQRP, etc.)",
     mkViolation 10 5 "Breaking character or ignoring realistic RP." 1);
    ("Cop Baiting",
     mkViolation 10 5 "Provoking police for no RP reason." 1);
    ("NITRP",
     mkViolation 30 10 "Trolling or refusing to engage in RP." 3);
    ("Metagaming",
     mkViolation 15 5 "Using OOC info for IC advantage." 1);
    ("Power Gaming",
     mkViolation 20 10 "Forcing actions or outcomes unrealistically." 3);
    ("Lack of Initiation",
     mkViolation 10 5 "Engaging in violence without warning." 1);
    ("Greenzone Violations",
     mkViolation 10 5 "Committing crimes in safezones." 1);
    ("Mic / Chat Spam",
     mkViolation 5 2 "Spamming audio or text channels." 1);
    ("LTAP (Avoiding Punishment)",
     mkViolation 15 5 "Leaving the game to avoid punishment." 2);
    ("LTARP (Avoiding RP)",
     mkViolation 20 10 "Leaving to avoid ongoing RP." 3);
    ("Lying to Staff",
     mkViolation 20 10 "Knowingly misleading staff." 3);
    ("Racism / Hate Speech",
     mkViolation 50 25 "Using slurs or hate speech." 3);
    ("Erotic Roleplay (ERP)",
     mkViolation 50 25 "Sexual RP that violates server rules." 3);
    ("DDoS / Dox / Exploiting / Hacking",
     mkViolation 100 0 "DDoS attacks, doxxing, exploiting, or hacking." 3) ].

(** Lookup in a literal [dict] written as the list of its items. *)
Fixpoint dict_get {V} (d : list (string * V)) (k : string) : option V :=
  match d with
  | [] => None
  | (k', v) :: d' => if String.eqb k' k then Some v else dict_get d' k
  end.

(** The upper end of a threshold: an [int] or [float('inf')]. *)
Inductive Bound := Fin (n : Z) | Inf.

Definition le_bound (p : Z) (b : Bound) : bool :=
  match b with
  | Fin n => p <=? n
  | Inf => true
  end.

Definition PUNISHMENT_THRESHOLDS : list (Z * Bound * string) :=
  [ (0, Fin 14, "Written Warning");
    (15, Fin 24, "3-Hour Ban");
    (25, Fin 34, "12-Hour Ban");
    (35, Fin 44, "1-Day Ban");
    (45, Fin 59, "3-Day Ban");
    (60, Fin 74, "1-Week Ban");
    (75, Fin 89, "2-Week Ban");
    (90, Fin 99, "1-Month Ban");
    (100, Inf, "Permanent Ban") ].

Definition in_range (points : Z) (row : Z * Bound * string) : bool :=
  let '(min_points, max_points, _) := row in
  (min_points <=? points) && le_bound points max_points.

Fixpoint first_action (table : list (Z * Bound * string)) (points : Z)
  : option string :=
  match table with
  | [] => None
  | row :: rest =>
      if in_range points row then Some (snd row) else first_action rest points
  end.

Definition get_punishment_action (points : Z) : string :=
  match first_action PUNISHMENT_THRESHOLDS points with
  | Some action => action
  | None => "Written Warning"
  end.

Definition calculate_points (violation_type : string)
    (previous_violations_count : Z) : Z :=
  match dict_get VIOLATIONS violation_type with
  | None => 0
  | Some violation =>
      base_points violation + repeat_penalty violation * previous_violations_count
  end.

(** The position of a label in the threshold table: its severity. *)
Fixpoint index_of (label : string) (table : list (Z * Bound * string)) : nat :=
  match table with
  | [] => 0
  | row :: rest =>
      if String.eqb (snd row) label then 0%nat else S (index_of label rest)
  end.

Definition severity (label : string) : nat :=
  index_of label PUNISHMENT_THRESHOLDS.

(** The labels of the table, in its order. *)
Definition labels : list string := (λ row, snd row) <$> PUNISHMENT_THRESHOLDS.

End Violations.

(** ** database.py *)

Module Database.
Import Py.

Record Warning := mkWarning {
  w_id : string;
  w_user_id : Z;
  w_moderator_id : Z;
  w_violation_type : string;
  w_points : Z;
  w_clips : list string;
  w_reason : string;
  w_timestamp : Z;
  w_expires_at : Z;
  (* the four keys below are absent until the warning is removed *)
  w_removed : option bool;
  w_removed_by : option Z;
  w_removed_at : option Z;
  w_removal_reason : option string
}.

(** The record of a user; its list ["bans"] is created empty and never
    written. *)
Record UserRecord := mkUserRecord {
  total_points : Z;
  u_warnings : list string;
  u_bans : list string
}.

Inductive Status := pending | completed.

Record BanRequest := mkBanRequest {
  b_user_id : Z;
  b_total_points : Z;
  b_action : string;
  b_message_id : Z;
  b_timestamp : Z;
  b_status : Status;
  b_completed_by : option Z;
  b_completed_at : option Z
}.

(** The document as the functions use it, after [load_data]. *)
Record Data := mkData {
  users : gmap string UserRecord;
  warnings : gmap string Warning;
  bans : gmap string BanRequest
}.

(** The document as it is in the file: a top-level key may be absent. *)
Record RawData := mkRawData {
  raw_users : option (gmap string UserRecord);
  raw_warnings : option (gmap string Warning);
  raw_bans : option (gmap string BanRequest)
}.

Definition initial_data : Data :=
  {| users := ∅; warnings := ∅; bans := ∅ |}.

Definition _ensure_db_exists (f : File RawData) : File RawData :=
  match f with
  | Missing => Json (mkRawData (Some ∅) (Some ∅) (Some ∅))
  | _ => f
  end.

Definition load_data (f : File RawData) : Exc Data :=
  try_except
    (data ← read_json f;
     mret {| users := default ∅ (raw_users data);
             warnings := default ∅ (raw_warnings data);
             bans := default ∅ (raw_bans data) |})
    (λ _, mret {| users := ∅; warnings := ∅; bans := ∅ |}).

Definition save_data (data : Data) : File RawData :=
  Json {| raw_users := Some (users data);
          raw_warnings := Some (warnings data);
          raw_bans := Some (bans data) |}.

(** The loop of [_get_next_warning_id]; the order in which the keys are
    visited does not matter to a maximum. *)
Definition max_numeric_id (ws : gmap string Warning) : Z :=
  map_fold (λ warning_id _ max_id,
              if isdigit warning_id then
                match int warning_id with
                | Some id_num => Z.max max_id id_num
                | None => max_id
                end
              else max_id) 0 ws.

Definition _get_next_warning_id (data : Data) : string :=
  str (max_numeric_id (warnings data) + 1).

Definition grade_map : list (string * Z) :=
  [ ("RDM / VDM", 1);
    ("Mass RDM / Mass VDM", 2);
    ("NLR", 1);
    ("FailRP (NVL, GP>RP, LQRP, etc.)", 1);
    ("Cop Baiting", 1);
    ("NITRP", 3);
    ("Metagaming", 1);
    ("Power Gaming", 3);
    ("Lack of Initiation", 1);
    ("Greenzone Violations", 1);
    ("Mic / Chat Spam", 1);
    ("LTAP (Avoiding Punishment)", 2);
    ("LTARP (Avoiding RP)", 3);
    ("Lying to Staff", 3);
    ("Racism / Hate Speech", 3);
    ("Erotic Roleplay (ERP)", 3) ].

Definition _calculate_expiry (violation_type : string) (now : Z) : Z :=
  let grade := default 1 (Violations.dict_get grade_map violation_type) in
  if grade =? 1 then now + timedelta_weeks 2
  else if grade =? 2 then now + timedelta_weeks 4
  else now + timedelta_weeks 8.

(** [now_ts] is the clock read for ["timestamp"], [now_exp] the one read
    inside [_calculate_expiry]. *)
Definition add_warning (user_id moderator_id : Z) (violation_type : string)
    (points : Z) (clips : list string) (reason : string)
    (now_ts now_exp : Z) (f : File RawData) : Exc (Warning * File RawData) :=
  data ← load_data f;
  let user_id_str := str user_id in
  let warning_id := _get_next_warning_id data in
  let users1 :=
    match users data !! user_id_str with
    | None => <[user_id_str := mkUserRecord 0 [] []]> (users data)
    | Some _ => users data
    end in
  let warning :=
    {| w_id := warning_id;
       w_user_id := user_id;
       w_moderator_id := moderator_id;
       w_violation_type := violation_type;
       w_points := points;
       w_clips := clips;
       w_reason := reason;
       w_timestamp := now_ts;
       w_expires_at := _calculate_expiry violation_type now_exp;
       w_removed := None;
       w_removed_by := None;
       w_removed_at := None;
       w_removal_reason := None |} in
  let warnings1 := <[warning_id := warning]> (warnings data) in
  let users2 :=
    alter (λ u, {| total_points := total_points u + points;
                   u_warnings := (u_warnings u ++ [warning_id])%list;
                   u_bans := u_bans u |}) user_id_str users1 in
  let data' := {| users := users2; warnings := warnings1; bans := bans data |} in
  mret (warning, save_data data').

(** The test both [get_user_points] and [get_user_warnings] apply:
    [now < expires_at] and [not warning.get("removed", False)]. *)
Definition is_active (now : Z) (warning : Warning) : bool :=
  (now <? w_expires_at warning) && negb (default false (w_removed warning)).

(** [load_data] always returns a document with the key ["users"], so the
    branch [if "users" not in data] of the four functions below, and the
    save it would make, never runs. *)
Definition get_user_points (user_id : Z) (now : Z) (f : File RawData) : Exc Z :=
  data ← load_data f;
  let user_id_str := str user_id in
  match users data !! user_id_str with
  | None => mret 0
  | Some user =>
      mret (foldl (λ total warning_id,
                     match warnings data !! warning_id with
                     | Some warning =>
                         if now <? w_expires_at warning then
                           if negb (default false (w_removed warning))
                           then total + w_points warning
                           else total
                         else total
                     | None => total
                     end) 0 (u_warnings user))
  end.

Definition get_user_warnings (user_id : Z) (now : Z) (f : File RawData)
  : Exc (list Warning) :=
  data ← load_data f;
  let user_id_str := str user_id in
  match users data !! user_id_str with
  | None => mret []
  | Some user =>
      let found :=
        foldl (λ acc warning_id,
                 match warnings data !! warning_id with
                 | Some warning =>
                     if now <? w_expires_at warning then
                       if negb (default false (w_removed warning))
                       then (acc ++ [warning])%list
                       else acc
                     else acc
                 | None => acc
                 end) [] (u_warnings user) in
      mret (sorted_reverse w_timestamp found)
  end.

Definition add_ban_request (user_id total_points : Z) (action : string)
    (message_id : Z) (now : Z) (f : File RawData)
  : Exc (BanRequest * File RawData) :=
  data ← load_data f;
  let ban_request :=
    {| b_user_id := user_id;
       b_total_points := total_points;
       b_action := action;
       b_message_id := message_id;
       b_timestamp := now;
       b_status := pending;
       b_completed_by := None;
       b_completed_at := None |} in
  let data' := {| users := users data; warnings := warnings data;
                  bans := <[str message_id := ban_request]> (bans data) |} in
  mret (ban_request, save_data data').

Definition complete_ban_request (message_id moderator_id : Z) (now : Z)
    (f : File RawData) : Exc (option BanRequest * File RawData) :=
  data ← load_data f;
  match bans data !! str message_id with
  | Some ban =>
      let ban' :=
        {| b_user_id := b_user_id ban;
           b_total_points := b_total_points ban;
           b_action := b_action ban;
           b_message_id := b_message_id ban;
           b_timestamp := b_timestamp ban;
           b_status := completed;
           b_completed_by := Some moderator_id;
           b_completed_at := Some now |} in
      let data' := {| users := users data; warnings := warnings data;
                      bans := <[str message_id := ban']> (bans data) |} in
      mret (Some ban', save_data data')
  | None => mret (None, f)
  end.

(** The five assignments that mark a warning as removed. *)
Definition mark_removed (moderator_id : Z) (reason : string)
    (now_at now_exp : Z) (warning : Warning) : Warning :=
  {| w_id := w_id warning;
     w_user_id := w_user_id warning;
     w_moderator_id := w_moderator_id warning;
     w_violation_type := w_violation_type warning;
     w_points := w_points warning;
     w_clips := w_clips warning;
     w_reason := w_reason warning;
     w_timestamp := w_timestamp warning;
     w_expires_at := now_exp - timedelta_days 1;
     w_removed := Some true;
     w_removed_by := Some moderator_id;
     w_removed_at := Some now_at;
     w_removal_reason := Some reason |}.

(** [now_at] is the clock read for ["removed_at"], [now_exp] the one read
    for ["expires_at"]. *)
Definition remove_warning (warning_id : string) (moderator_id : Z)
    (reason : string) (now_at now_exp : Z) (f : File RawData)
  : Exc (bool * File RawData) :=
  data ← load_data f;
  match warnings data !! warning_id with
  | Some warning =>
      let data' :=
        {| users := users data;
           warnings := <[warning_id :=
                           mark_removed moderator_id reason now_at now_exp warning]>
                         (warnings data);
           bans := bans data |} in
      mret (true, save_data data')
  | None => mret (false, f)
  end.

(** One turn of the loop of [remove_user_warnings], on the warnings of the
    document and the counter. *)
Definition remove_step (moderator_id : Z) (reason : string) (now : Z)
    (st : gmap string Warning * Z) (warning_id : string)
  : gmap string Warning * Z :=
  let '(ws, removed_count) := st in
  match ws !! warning_id with
  | Some warning =>
      if (now <? w_expires_at warning) && negb (default false (w_removed warning))
      then (<[warning_id := mark_removed moderator_id reason now now warning]> ws,
            removed_count + 1)
      else (ws, removed_count)
  | None => (ws, removed_count)
  end.

Definition remove_user_warnings (user_id moderator_id : Z) (reason : string)
    (now : Z) (f : File RawData) : Exc (Z * File RawData) :=
  data ← load_data f;
  let user_id_str := str user_id in
  match users data !! user_id_str with
  | None => mret (0, f)
  | Some user =>
      let '(ws, removed_count) :=
        foldl (remove_step moderator_id reason now) (warnings data, 0)
              (u_warnings user) in
      let data' := {| users := users data; warnings := ws; bans := bans data |} in
      mret (removed_count, save_data data')
  end.

Definition find_warnings_by_user (user_id : Z) (limit : Z) (f : File RawData)
  : Exc (list Warning) :=
  data ← load_data f;
  let user_id_str := str user_id in
  match users data !! user_id_str with
  | None => mret []
  | Some user =>
      let found :=
        foldl (λ acc warning_id,
                 match warnings data !! warning_id with
                 | Some warning => (acc ++ [warning])%list
                 | None => acc
                 end) [] (u_warnings user) in
      mret (slice_to (sorted_reverse w_timestamp found) limit)
  end.

End Database.

(** ** license_manager.py *)

Module LicenseManager.
Import Py.

Record LicenseInfo := mkLicenseInfo {
  l_license : string;
  l_user_id : Z;
  l_added_by : Z;
  l_added_at : Z;
  l_note : string
}.

Inductive Action := add | remove.

(** An entry of the history; an ["add"] entry has the key ["note"], a
    ["remove"] entry the key ["reason"]. *)
Record HistoryEntry := mkHistoryEntry {
  h_action : Action;
  h_user_id : Z;
  h_license : string;
  h_moderator_id : Z;
  h_timestamp : Z;
  h_note : option string;
  h_reason : option string
}.

(** The document of the license file. [_ensure_db_exists] and [save_data]
    write its three keys, and [load_data] returns what it reads as it is. *)
Record Data := mkData {
  user_licenses : gmap string LicenseInfo;
  license_users : gmap string LicenseInfo;
  license_history : list HistoryEntry
}.

Definition initial_data : Data :=
  {| user_licenses := ∅; license_users := ∅; license_history := [] |}.

Definition _ensure_db_exists (f : File Data) : File Data :=
  match f with
  | Missing => Json initial_data
  | _ => f
  end.

Definition load_data (f : File Data) : Exc Data :=
  try_except (read_json f)
    (λ _, mret {| user_licenses := ∅; license_users := ∅; license_history := [] |}).

Definition save_data (data : Data) : File Data := Json data.

(** [now_added] is the clock read for ["added_at"], [now_hist] the one read
    for the history entry. *)
Definition add_license (user_id : Z) (license_key : string) (moderator_id : Z)
    (note : string) (now_added now_hist : Z) (f : File Data)
  : Exc (bool * File Data) :=
  data ← load_data f;
  let user_id_str := str user_id in
  let assigned_to_another :=
    match license_users data !! license_key with
    | Some existing => negb (l_user_id existing =? user_id)
    | None => false
    end in
  if assigned_to_another then mret (false, f)
  else
    let license_users1 :=
      match user_licenses data !! user_id_str with
      | Some old => delete (l_license old) (license_users data)
      | None => license_users data
      end in
    let license_info :=
      {| l_license := license_key;
         l_user_id := user_id;
         l_added_by := moderator_id;
         l_added_at := now_added;
         l_note := note |} in
    let history_entry :=
      {| h_action := add;
         h_user_id := user_id;
         h_license := license_key;
         h_moderator_id := moderator_id;
         h_timestamp := now_hist;
         h_note := Some note;
         h_reason := None |} in
    let data' :=
      {| user_licenses := <[user_id_str := license_info]> (user_licenses data);
         license_users := <[license_key := license_info]> license_users1;
         license_history := (license_history data ++ [history_entry])%list |} in
    mret (true, save_data data').

Definition remove_license (user_id moderator_id : Z) (reason : string)
    (now : Z) (f : File Data) : Exc (bool * File Data) :=
  data ← load_data f;
  let user_id_str := str user_id in
  match user_licenses data !! user_id_str with
  | None => mret (false, f)
  | Some license_info =>
      let license_key := l_license license_info in
      let history_entry :=
        {| h_action := remove;
           h_user_id := user_id;
           h_license := license_key;
           h_moderator_id := moderator_id;
           h_timestamp := now;
           h_note := None;
           h_reason := Some reason |} in
      let data' :=
        {| user_licenses := delete user_id_str (user_licenses data);
           license_users := delete license_key (license_users data);
           license_history := (license_history data ++ [history_entry])%list |} in
      mret (true, save_data data')
  end.

Definition get_user_license (user_id : Z) (f : File Data)
  : Exc (option LicenseInfo) :=
  data ← load_data f;
  mret (user_licenses data !! str user_id).

Definition get_license_user (license_key : string) (f : File Data)
  : Exc (option LicenseInfo) :=
  data ← load_data f;
  mret (license_users data !! license_key).

Record SearchResult := mkSearchResult {
  s_type : string;
  s_license : string;
  s_user_id : Z;
  s_added_at : Z;
  s_note : string
}.

(** The results come in the order in which the loop visits the items of
    [license_users]: in Python the order of insertion, here the order of
    [map_to_list]. *)
Definition search_licenses (query : string) (f : File Data)
  : Exc (list SearchResult) :=
  data ← load_data f;
  let query_lower := lower query in
  mret (omap (λ item : string * LicenseInfo,
                let '(license_key, info) := item in
                if contains query_lower (lower license_key)
                then Some {| s_type := "license";
                             s_license := license_key;
                             s_user_id := l_user_id info;
                             s_added_at := l_added_at info;
                             s_note := l_note info |}
                else None)
             (map_to_list (license_users data))).

Definition get_license_history (user_id : option Z) (license_key : option string)
    (limit : Z) (f : File Data) : Exc (list HistoryEntry) :=
  data ← load_data f;
  let history := license_history data in
  let history :=
    match user_id with
    | Some u => filter (λ h, h_user_id h = u) history
    | None => history
    end in
  let history :=
    match license_key with
    | Some k => filter (λ h, h_license h = k) history
    | None => history
    end in
  mret (slice_to (sorted_reverse h_timestamp history) limit).

End LicenseManager.

(** ** bot.py: [ViolationSelect.callback] *)

Module Bot.
Import Py Violations Database.

(** One turn of the loop over the selected violations. [now_count] is the
    clock read by [get_user_warnings], [now_ts] and [now_exp] the two read
    by [add_warning]. The result is the entry appended to
    [warning_details], without its ["type"], and the new file. *)
Definition issue_violation (target_user_id moderator_id : Z)
    (clips : list string) (violation_type : string)
    (now_count now_ts now_exp : Z) (f : File RawData)
  : Exc (Z * Warning * File RawData) :=
  violation_data ←
    match dict_get VIOLATIONS violation_type with
    | Some v => mret v
    | None => Raise (KeyError violation_type)
    end;
  user_warnings ← get_user_warnings target_user_id now_count f;
  let previous_violations :=
    Z.of_nat (length (filter (λ w, w_violation_type w = violation_type)
                             user_warnings)) in
  let points := calculate_points violation_type previous_violations in
  '(warning, f') ← add_warning target_user_id moderator_id violation_type
                     points clips (description violation_data) now_ts now_exp f;
  mret (points, warning, f').

End Bot.

(** ** Histories of the warning ledger *)

Module Ledger.
Import Py Violations Database Bot.

(** The document a file holds, as every function of [database.py] reads it. *)
Definition document (f : File RawData) : Data :=
  match load_data f with
  | Return data => data
  | Raise _ => initial_data
  end.

(** The warnings a user's record refers to, in the order of the record;
    an id without a stored warning is skipped, as the loops do. *)
Definition stored_warnings (data : Data) (user_id : Z) : list Warning :=
  match users data !! str user_id with
  | Some user => omap (λ warning_id, warnings data !! warning_id) (u_warnings user)
  | None => []
  end.

Definition sum_points (ws : list Warning) : Z :=
  foldr (λ w total, w_points w + total) 0 ws.

(** The stored counter of a user, 0 for a user without a record. *)
Definition stored_total (data : Data) (user_id : Z) : Z :=
  match users data !! str user_id with
  | Some user => total_points user
  | None => 0
  end.

(** The number a stored id counts as when the next id is computed; none
    for an id that is not made of decimal digits only. *)
Definition id_number (warning_id : string) : option Z :=
  if isdigit warning_id then int warning_id else None.

(** Whether the id names a stored warning that is active at [now]. *)
Definition active_at (ws : gmap string Warning) (now : Z) (warning_id : string)
  : bool :=
  match ws !! warning_id with
  | Some w => is_active now w
  | None => false
  end.

(** What holds of every document the commands below reach from the empty
    one: a stored counter is the sum of the points of the warnings the
    record names, each of which is stored, and every warning has points. *)
Definition consistent (data : Data) : Prop :=
  (∀ k user, users data !! k = Some user →
     total_points user
     = sum_points (omap (λ warning_id, warnings data !! warning_id) (u_warnings user))
     ∧ ∀ warning_id, warning_id ∈ u_warnings user →
                     is_Some (warnings data !! warning_id))
  ∧ (∀ warning_id w, warnings data !! warning_id = Some w → 0 < w_points w).

(** A command of a moderator, with the clock readings it makes. *)
Inductive Cmd :=
| Issue (target_user_id moderator_id : Z) (clips : list string)
    (violation_type : string) (now_count now_ts now_exp : Z)
| RemoveWarning (warning_id : string) (moderator_id : Z) (reason : string)
    (now_at now_exp : Z)
| RemoveUserWarnings (user_id moderator_id : Z) (reason : string) (now : Z)
| AddBanRequest (user_id total : Z) (action : string) (message_id now : Z)
| CompleteBanRequest (message_id moderator_id now : Z).

(** The file after a command, and the warning it issued, if any. *)
Definition exec (c : Cmd) (f : File RawData) : File RawData * list Warning :=
  match c with
  | Issue u m clips vt t1 t2 t3 =>
      match issue_violation u m clips vt t1 t2 t3 f with
      | Return (_, w, f') => (f', [w])
      | Raise _ => (f, [])
      end
  | RemoveWarning wid m reason t1 t2 =>
      match remove_warning wid m reason t1 t2 f with
      | Return (_, f') => (f', [])
      | Raise _ => (f, [])
      end
  | RemoveUserWarnings u m reason t =>
      match remove_user_warnings u m reason t f with
      | Return (_, f') => (f', [])
      | Raise _ => (f, [])
      end
  | AddBanRequest u total action mid t =>
      match add_ban_request u total action mid t f with
      | Return (_, f') => (f', [])
      | Raise _ => (f, [])
      end
  | CompleteBanRequest mid m t =>
      match complete_ban_request mid m t f with
      | Return (_, f') => (f', [])
      | Raise _ => (f, [])
      end
  end.

(** The file after a sequence of commands and the warnings issued, oldest
    first. *)
Fixpoint run (cs : list Cmd) (f : File RawData) : File RawData * list Warning :=
  match cs with
  | [] => (f, [])
  | c :: cs' =>
      let '(f1, issued1) := exec c f in
      let '(f2, issued2) := run cs' f1 in
      (f2, (issued1 ++ issued2)%list)
  end.

End Ledger.

(** ** Histories of the license ledger *)

Module LicenseLedger.
Import Py LicenseManager.

(** The document a file holds, as every function of [license_manager.py]
    reads it. *)
Definition document (f : File Data) : Data :=
  match load_data f with
  | Return data => data
  | Raise _ => initial_data
  end.

(** The two indexes agree: an entry under a user is the entry under its
    license, and the other way round. *)
Definition one_to_one (data : Data) : Prop :=
  (∀ k info, user_licenses data !! k = Some info →
     k = str (l_user_id info)
     ∧ license_users data !! l_license info = Some info)
  ∧ (∀ k info, license_users data !! k = Some info →
       k = l_license info
       ∧ user_licenses data !! str (l_user_id info) = Some info).

Inductive Cmd :=
| AddLicense (user_id : Z) (license_key : string) (moderator_id : Z)
    (note : string) (now_added now_hist : Z)
| RemoveLicense (user_id moderator_id : Z) (reason : string) (now : Z).

Definition exec (c : Cmd) (f : File Data) : File Data :=
  match c with
  | AddLicense u k m note t1 t2 =>
      match add_license u k m note t1 t2 f with
      | Return (_, f') => f'
      | Raise _ => f
      end
  | RemoveLicense u m reason t =>
      match remove_license u m reason t f with
      | Return (_, f') => f'
      | Raise _ => f
      end
  end.

Definition run (cs : list Cmd) (f : File Data) : File Data :=
  foldl (λ f c, exec c f) f cs.

End LicenseLedger.

(** ** license_manager.py: the filter of [get_license_history] *)

Module LicenseQueries.
Import Py LicenseManager.

(** What [get_license_history] keeps of the history: the entries of the
    user, when a user is given, that are of the license, when a license is
    given. *)
Definition asked_for (user_id : option Z) (license_key : option string)
    (h : HistoryEntry) : Prop :=
  match user_id with Some u => h_user_id h = u | None => True end
  ∧ match license_key with Some k => h_license h = k | None => True end.

#[global] Instance asked_for_dec user_id license_key h :
  Decision (asked_for user_id license_key h).
Proof. unfold asked_for. destruct user_id, license_key; apply _. Defined.

End LicenseQueries.

(** ** More Python builtins *)

Module PyMore.
Import Py.

(** An index of a slice brought into the list: negative indices count from
    the end, and both ends are cut to the list. *)
Definition clamp (len i : Z) : Z :=
  if i <? 0 then Z.max (i + len) 0 else Z.min i len.

(** [l[start:stop]] for two integers. *)
Definition slice {A} (l : list A) (start stop : Z) : list A :=
  let len := Z.of_nat (length l) in
  take (Z.to_nat (clamp len stop - clamp len start))
       (drop (Z.to_nat (clamp len start)) l).

(** [c.isspace()] on ASCII: tab to carriage return, the four separators
    and the space. *)
Definition is_space_char (c : ascii) : bool :=
  let n := nat_of_ascii c in
  (((9 <=? n) && (n <=? 13)) || ((28 <=? n) && (n <=? 32)))%nat.

Fixpoint lstrip (s : string) : string :=
  match s with
  | EmptyString => EmptyString
  | String c s' => if is_space_char c then lstrip s' else s
  end.

Fixpoint rstrip (s : string) : string :=
  match s with
  | EmptyString => EmptyString
  | String c s' =>
      match rstrip s' with
      | EmptyString => if is_space_char c then EmptyString else String c EmptyString
      | r => String c r
      end
  end.

(** [s.strip()]. *)
Definition strip (s : string) : string := lstrip (rstrip s).

(** The truth value of a string: it is not empty. *)
Definition truthy (s : string) : bool :=
  match s with
  | EmptyString => false
  | _ => true
  end.

(** [s.isascii()]. *)
Definition isascii (s : string) : bool :=
  forallb (λ c, (nat_of_ascii c <? 128)%nat) (list_ascii_of_string s).

(** [sep.join(l)]. *)
Fixpoint join (sep : string) (l : list string) : string :=
  match l with
  | [] => EmptyString
  | [x] => x
  | x :: rest => String.append x (String.append sep (join sep rest))
  end.

End PyMore.

(** ** Regular expressions, as far as [is_valid_url] uses [re] *)

Module Regex.
Import Py PyMore.

(** A pattern without groups that capture, anchors or look-around. *)
Inductive Re :=
| Never
| Empty
| Class (p : ascii → bool)
| Seq (r1 r2 : Re)
| Alt (r1 r2 : Re)
| Star (r : Re).

Fixpoint nullable (r : Re) : bool :=
  match r with
  | Never => false
  | Empty => true
  | Class _ => false
  | Seq r1 r2 => nullable r1 && nullable r2
  | Alt r1 r2 => nullable r1 || nullable r2
  | Star _ => true
  end.

(** [Seq] and [Alt] without the parts that match nothing. *)
Definition seq (r1 r2 : Re) : Re :=
  match r1, r2 with
  | Never, _ => Never
  | _, Never => Never
  | Empty, _ => r2
  | _, _ => Seq r1 r2
  end.

Definition alt (r1 r2 : Re) : Re :=
  match r1, r2 with
  | Never, _ => r2
  | _, Never => r1
  | _, _ => Alt r1 r2
  end.

(** What is left of the pattern after the character [a]. *)
Fixpoint deriv (a : ascii) (r : Re) : Re :=
  match r with
  | Never => Never
  | Empty => Never
  | Class p => if p a then Empty else Never
  | Seq r1 r2 =>
      if nullable r1 then alt (seq (deriv a r1) r2) (deriv a r2)
      else seq (deriv a r1) r2
  | Alt r1 r2 => alt (deriv a r1) (deriv a r2)
  | Star r' => seq (deriv a r') (Star r')
  end.

(** Whether the pattern matches the whole text: [^r$] on a text that does
    not end in a newline. *)
Fixpoint matches (r : Re) (s : list ascii) : bool :=
  match s with
  | [] => nullable r
  | a :: s' => matches (deriv a r) s'
  end.

(** [r?], [r+], [r{n}], [r{0,n}] and [r{lo,hi}]. *)
Definition opt (r : Re) : Re := Alt Empty r.

Definition plus (r : Re) : Re := Seq r (Star r).

Fixpoint times (n : nat) (r : Re) : Re :=
  match n with
  | O => Empty
  | S n' => Seq r (times n' r)
  end.

Fixpoint upto (n : nat) (r : Re) : Re :=
  match n with
  | O => Empty
  | S n' => opt (Seq r (upto n' r))
  end.

Definition between (lo hi : nat) (r : Re) : Re :=
  Seq (times lo r) (upto (hi - lo) r).

(** A character and a text under [re.IGNORECASE], on ASCII. *)
Definition char_i (c : ascii) : Re :=
  Class (λ a, Ascii.eqb (lower_char a) (lower_char c)).

Fixpoint text_i (s : string) : Re :=
  match s with
  | EmptyString => Empty
  | String c s' => Seq (char_i c) (text_i s')
  end.

(** The characters a pattern has a place for. *)
Fixpoint alphabet (r : Re) (a : ascii) : bool :=
  match r with
  | Never => false
  | Empty => false
  | Class p => p a
  | Seq r1 r2 => alphabet r1 a || alphabet r2 a
  | Alt r1 r2 => alphabet r1 a || alphabet r2 a
  | Star r' => alphabet r' a
  end.

(** Every class of the pattern takes a letter in both cases or in none. *)
Fixpoint case_closed (r : Re) : Prop :=
  match r with
  | Never => True
  | Empty => True
  | Class p => ∀ a, p (lower_char a) = p a
  | Seq r1 r2 => case_closed r1 ∧ case_closed r2
  | Alt r1 r2 => case_closed r1 ∧ case_closed r2
  | Star r' => case_closed r'
  end.

End Regex.

(** ** bot.py: [is_valid_url] *)

Module Url.
Import Py PyMore Regex.

(** The classes of the pattern, under [re.IGNORECASE] and on ASCII:
    [[A-Z]], [[A-Z0-9]], [[A-Z0-9-]], [\d], [\S] and [[/?]]. *)
Definition letter (a : ascii) : bool :=
  let n := nat_of_ascii a in
  (((65 <=? n) && (n <=? 90)) || ((97 <=? n) && (n <=? 122)))%nat.

Definition letter_or_digit (a : ascii) : bool := letter a || is_digit_char a.

Definition letter_digit_or_dash (a : ascii) : bool :=
  letter_or_digit a || Ascii.eqb a "-".

Definition not_space (a : ascii) : bool := negb (is_space_char a).

Definition slash_or_question (a : ascii) : bool :=
  Ascii.eqb a "/" || Ascii.eqb a "?".

(** [(?:[A-Z0-9](?:[A-Z0-9-]{0,61}[A-Z0-9])?\.)+[A-Z]{2,6}\.?] *)
Definition domain : Re :=
  Seq (plus (Seq (Class letter_or_digit)
               (Seq (opt (Seq (upto 61 (Class letter_digit_or_dash))
                              (Class letter_or_digit)))
                    (char_i "."))))
      (Seq (between 2 6 (Class letter)) (opt (char_i "."))).

(** [\d{1,3}\.\d{1,3}\.\d{1,3}\.\d{1,3}] *)
Definition ip : Re :=
  Seq (between 1 3 (Class is_digit_char))
    (Seq (char_i ".")
       (Seq (between 1 3 (Class is_digit_char))
          (Seq (char_i ".")
             (Seq (between 1 3 (Class is_digit_char))
                (Seq (char_i ".") (between 1 3 (Class is_digit_char))))))).

(** The whole pattern: [https?://], the host, [(?::\d+)?] and
    [(?:/?|[/?]\S+)]. *)
Definition url_pattern : Re :=
  Seq (text_i "http")
    (Seq (opt (char_i "s"))
       (Seq (text_i "://")
          (Seq (Alt domain (Alt (text_i "localhost") ip))
             (Seq (opt (Seq (char_i ":") (plus (Class is_digit_char))))
                (Alt (opt (char_i "/"))
                     (Seq (Class slash_or_question) (plus (Class not_space)))))))).

Definition is_valid_url (url : string) : bool :=
  if negb (truthy url) then false
  else matches url_pattern (list_ascii_of_string (strip url)).

End Url.

(** ** bot.py: [format_clip_text] *)

Module Clips.
Import Py PyMore.

Section FormatClipText.
(** [is_valid_url] is used as a test only; it is a variable here. *)
Variable is_valid_url : string → bool.

Definition valid_clips (clips : list string) : list string :=
  filter (λ clip, truthy clip && truthy (strip clip) = true) clips.

(** The list [formatted_clips] at the end of the two loops. *)
Definition formatted_clips (clips : list string) : list string :=
  let valid := valid_clips clips in
  let url_clips := filter (λ clip, is_valid_url clip = true) valid in
  let text_clips := filter (λ clip, is_valid_url clip = false) valid in
  (imap (λ i clip,
           if (length url_clips =? 1)%nat
           then String.append "[Clip](" (String.append clip ")")
           else String.append "[Clip "
                  (String.append (str (Z.of_nat i + 1))
                     (String.append "](" (String.append clip ")"))))
        url_clips
   ++ imap (λ i clip,
              if (length valid =? 1)%nat then clip
              else String.append (str (Z.of_nat i + 1)) (String.append ") " clip))
           text_clips)%list.

Definition format_clip_text (clips : list string) (use_newlines : bool) : string :=
  match clips with
  | [] => ""
  | _ =>
      match valid_clips clips with
      | [] => ""
      | _ =>
          let separator := if use_newlines then String "010" "" else ", " in
          join separator (formatted_clips clips)
      end
  end.

End FormatClipText.

End Clips.

(** ** bot.py: [WarningsView] *)

Module Views.
Import Py PyMore Database.

(** The fields of the view the paging uses. *)
Record WarningsView := mkWarningsView {
  v_warnings : list Warning;
  current_page : Z;
  per_page : Z;
  max_pages : Z
}.

Definition __init__ (warnings : list Warning) : WarningsView :=
  {| v_warnings := warnings;
     current_page := 0;
     per_page := 5;
     max_pages :=
       match warnings with
       | [] => 1
       | _ => (Z.of_nat (length warnings) - 1) / 5 + 1
       end |}.

Record Button := mkButton { label : string; disabled : bool }.

(** The buttons [update_buttons] leaves on the view. *)
Definition update_buttons (v : WarningsView) : list Button :=
  if 1 <? max_pages v then
    [ mkButton "Previous" (current_page v =? 0);
      mkButton (String.append "Page "
                  (String.append (str (current_page v + 1))
                     (String.append "/" (str (max_pages v))))) true;
      mkButton "Next" (max_pages v - 1 <=? current_page v) ]
  else [].

Definition turn_to (v : WarningsView) (page : Z) : WarningsView :=
  {| v_warnings := v_warnings v;
     current_page := page;
     per_page := per_page v;
     max_pages := max_pages v |}.

(** The view after the handler, and whether the message was edited
    (otherwise the interaction is only deferred). *)
Definition previous_page (v : WarningsView) : WarningsView * bool :=
  if 0 <? current_page v then (turn_to v (current_page v - 1), true)
  else (v, false).

Definition next_page (v : WarningsView) : WarningsView * bool :=
  if current_page v <? max_pages v - 1 then (turn_to v (current_page v + 1), true)
  else (v, false).

(** The part of [create_embed] that picks the warnings of the current page,
    each with the number its field title starts with. *)
Definition page_warnings (v : WarningsView) : list (Z * Warning) :=
  let start_idx := current_page v * per_page v in
  let end_idx := Z.min (start_idx + per_page v) (Z.of_nat (length (v_warnings v))) in
  imap (λ i warning, (start_idx + Z.of_nat i + 1, warning))
       (slice (v_warnings v) start_idx end_idx).

(** [warnings_command]: the view it builds from the warnings it finds, and
    whether it sends the view with the message. *)
Definition warnings_command (user_id : Z) (f : File RawData)
  : Exc (WarningsView * bool * File RawData) :=
  let f := _ensure_db_exists f in
  all_warnings ← find_warnings_by_user user_id 100 f;
  let view := __init__ all_warnings in
  mret (view, 1 <? max_pages view, f).

Inductive Press := Previous | Next.

Definition press (v : WarningsView) (p : Press) : WarningsView :=
  match p with
  | Previous => (previous_page v).1
  | Next => (next_page v).1
  end.

End Views.

(** ** bot.py: [ViolationSelect.callback] and [license_command] *)

Module Commands.
Import Py PyMore Violations Database Bot.

Record Detail := mkDetail {
  d_type : string;
  d_points : Z;
  d_warning : Warning
}.

Record CallbackResult := mkCallbackResult {
  total_points_added : Z;
  warning_details : list Detail;
  cb_total_points : Z;
  cb_action : string
}.

(** The loop over the selected violations, each with the three clock
    readings of its turn. An exception leaves the loop with the file as the
    turns before it saved it. *)
Fixpoint issue_selected (target_user_id moderator_id : Z) (clips : list string)
    (selected_violations : list (string * (Z * Z * Z)))
    (added : Z) (details : list Detail) (f : File RawData)
  : Exc (Z * list Detail) * File RawData :=
  match selected_violations with
  | [] => (Return (added, details), f)
  | (violation_type, (now_count, now_ts, now_exp)) :: rest =>
      match issue_violation target_user_id moderator_id clips violation_type
                            now_count now_ts now_exp f with
      | Raise e => (Raise e, f)
      | Return (points, warning, f') =>
          issue_selected target_user_id moderator_id clips rest
            (added + points)
            (details ++ [mkDetail violation_type points warning]) f'
      end
  end.

(** The selected violations as commands of the ledger. *)
Definition issues (target_user_id moderator_id : Z) (clips : list string)
    (selected_violations : list (string * (Z * Z * Z))) : list Ledger.Cmd :=
  (λ '(violation_type, (now_count, now_ts, now_exp)),
     Ledger.Issue target_user_id moderator_id clips violation_type
                  now_count now_ts now_exp) <$> selected_violations.

(** [callback] and the [create_ban_request] it ends with, as far as the
    warnings file goes: the messages are taken to be sent. [ban_message] is
    the id of the message posted in the ban request channel, [None] when
    the guild has no such channel; [now_total] and [now_ban] are the clock
    readings of [get_user_points] and of [add_ban_request]. *)
Definition callback (target_user_id moderator_id : Z) (clips : list string)
    (selected_violations : list (string * (Z * Z * Z)))
    (now_total : Z) (ban_message : option Z) (now_ban : Z) (f : File RawData)
  : Exc CallbackResult * File RawData :=
  let f0 := _ensure_db_exists f in
  match issue_selected target_user_id moderator_id clips selected_violations
                       0 [] f0 with
  | (Raise e, f1) => (Raise e, f1)
  | (Return (added, details), f1) =>
      match get_user_points target_user_id now_total f1 with
      | Raise e => (Raise e, f1)
      | Return total_points =>
          let action := get_punishment_action total_points in
          let result := mkCallbackResult added details total_points action in
          if 15 <=? total_points then
            match ban_message with
            | None => (Return result, f1)
            | Some message_id =>
                match add_ban_request target_user_id total_points action
                                      message_id now_ban (_ensure_db_exists f1) with
                | Raise e => (Raise e, f1)
                | Return (_, f2) => (Return result, f2)
                end
            end
          else (Return result, f1)
      end
  end.

(** The answer of [license_command], by the title of its embed. *)
Inductive Answer :=
| NoPermission
| InvalidAction
| LicenseKeyRequired
| InvalidLicenseFormat
| LicenseAdded
| LicenseAlreadyAssigned (existing_user_id : Z)
| ErrorAddingLicense
| LicenseRemoved
| NoLicenseFound
| LicenseInfoFor (license_info : option LicenseManager.LicenseInfo).

(** [c in '0123456789abcdef']. *)
Definition is_hex_char (c : ascii) : bool :=
  let n := nat_of_ascii c in
  (((48 <=? n) && (n <=? 57)) || ((97 <=? n) && (n <=? 102)))%nat.

Fixpoint all_hex (s : string) : bool :=
  match s with
  | EmptyString => true
  | String c s' => is_hex_char c && all_hex s'
  end.

(** [permitted] is the outcome of the test of the moderator roles;
    [now_1] and [now_2] are the clock readings of the ledger function that
    is called ([remove_license] makes one). *)
Definition license_command (permitted : bool) (action : string) (user_id : Z)
    (license_key : option string) (note : string) (moderator_id : Z)
    (now_1 now_2 : Z) (f : File LicenseManager.Data)
  : Exc (Answer * File LicenseManager.Data) :=
  if negb permitted then mret (NoPermission, f)
  else
    let action := lower action in
    if negb (bool_decide (action ∈ ["add"; "remove"; "check"]))
    then mret (InvalidAction, f)
    else
      let f := LicenseManager._ensure_db_exists f in
      if String.eqb action "add" then
        match license_key with
        | None => mret (LicenseKeyRequired, f)
        | Some license_key =>
            if negb (truthy license_key) then mret (LicenseKeyRequired, f)
            else if negb ((String.length license_key =? 40)%nat
                          && all_hex (lower license_key))
            then mret (InvalidLicenseFormat, f)
            else
              '(success, f') ← LicenseManager.add_license user_id
                                 (lower license_key) moderator_id note
                                 now_1 now_2 f;
              if (success : bool) then mret (LicenseAdded, f')
              else
                existing_user_info ←
                  LicenseManager.get_license_user (lower license_key) f';
                match existing_user_info with
                | Some info =>
                    mret (LicenseAlreadyAssigned (LicenseManager.l_user_id info), f')
                | None => mret (ErrorAddingLicense, f')
                end
        end
      else if String.eqb action "remove" then
        '(success, f') ← LicenseManager.remove_license user_id moderator_id
                           (if truthy note then note else "Manual removal")
                           now_1 f;
        if (success : bool) then mret (LicenseRemoved, f')
        else mret (NoLicenseFound, f')
      else
        license_info ← LicenseManager.get_user_license user_id f;
        mret (LicenseInfoFor license_info, f).

(** The answer of [license_lookup_command], by the title of its embed;
    the search results are the ten it shows and the number it found. *)
Inductive LookupAnswer :=
| LicenseDetails (user_info : LicenseManager.LicenseInfo)
| LicenseNotFound
| LicenseSearchResults (shown : list LicenseManager.SearchResult) (found : nat)
| NoResults.

Definition license_lookup_command (query : string) (f : File LicenseManager.Data)
  : Exc (LookupAnswer * File LicenseManager.Data) :=
  let f := LicenseManager._ensure_db_exists f in
  if (String.length query =? 40)%nat && all_hex (lower query) then
    user_info ← LicenseManager.get_license_user (lower query) f;
    match user_info with
    | Some info => mret (LicenseDetails info, f)
    | None => mret (LicenseNotFound, f)
    end
  else
    results ← LicenseManager.search_licenses query f;
    match results with
    | [] => mret (NoResults, f)
    | _ => mret (LicenseSearchResults (slice_to results 10) (length results), f)
    end.

(** A use of [/license]: the outcome of the role test, the arguments and
    the clock readings. *)
Record LicenseCall := mkLicenseCall {
  c_permitted : bool;
  c_action : string;
  c_user_id : Z;
  c_license_key : option string;
  c_note : string;
  c_moderator_id : Z;
  c_now_1 : Z;
  c_now_2 : Z
}.

(** The license file after one use of the command, and after several. *)
Definition license_call (f : File LicenseManager.Data) (c : LicenseCall)
  : File LicenseManager.Data :=
  match license_command (c_permitted c) (c_action c) (c_user_id c)
                        (c_license_key c) (c_note c) (c_moderator_id c)
                        (c_now_1 c) (c_now_2 c) f with
  | Return (_, f') => f'
  | Raise _ => f
  end.

Definition license_calls (calls : list LicenseCall) (f : File LicenseManager.Data)
  : File LicenseManager.Data :=
  foldl license_call f calls.

(** What the command checks of a key before it stores it: 40 characters
    out of [0123456789abcdef]. *)
Definition checked_key (k : string) : Prop :=
  String.length k = 40%nat ∧ all_hex k = true.

(** Every key of the document, in the two indexes and in the history, is
    one the command would store. *)
Definition keys_checked (data : LicenseManager.Data) : Prop :=
  (∀ k info, LicenseManager.license_users data !! k = Some info → checked_key k)
  ∧ (∀ u info, LicenseManager.user_licenses data !! u = Some info →
               checked_key (LicenseManager.l_license info))
  ∧ (∀ h, h ∈ LicenseManager.license_history data →
          checked_key (LicenseManager.h_license h)).

End Commands.
(** * Properties of the ledgers *)

(** Settle every comparison of the goal that the linear hypotheses decide. *)
Ltac decide_cmp :=
  repeat match goal with
         | |- context [Z.leb ?a ?b] =>
             first [ rewrite (proj2 (Z.leb_le a b)) by lia
                   | rewrite (proj2 (Z.leb_gt a b)) by lia ]
         | |- context [Z.ltb ?a ?b] =>
             first [ rewrite (proj2 (Z.ltb_lt a b)) by lia
                   | rewrite (proj2 (Z.ltb_ge a b)) by lia ]
         end.

Section ViolationsFacts.
Import Violations.

(** The threshold table in closed form. *)
Lemma get_punishment_action_cases (p : Z) :
  get_punishment_action p =
    if p <=? 14 then "Written Warning"
    else if p <=? 24 then "3-Hour Ban"
    else if p <=? 34 then "12-Hour Ban"
    else if p <=? 44 then "1-Day Ban"
    else if p <=? 59 then "3-Day Ban"
    else if p <=? 74 then "1-Week Ban"
    else if p <=? 89 then "2-Week Ban"
    else if p <=? 99 then "1-Month Ban"
    else "Permanent Ban".
Proof.
  unfold get_punishment_action, PUNISHMENT_THRESHOLDS, first_action, in_range,
    le_bound.
  assert (p < 0 ∨ 0 <= p <= 14 ∨ 15 <= p <= 24 ∨ 25 <= p <= 34 ∨ 35 <= p <= 44
          ∨ 45 <= p <= 59 ∨ 60 <= p <= 74 ∨ 75 <= p <= 89 ∨ 90 <= p <= 99
          ∨ 100 <= p) as Hp by lia.
  repeat destruct Hp as [Hp|Hp]; decide_cmp; reflexivity.
Qed.

Lemma in_range_bounds (p : Z) (row : Z * Bound * string) :
  in_range p row = true ↔
  row.1.1 <= p ∧ match row.1.2 with Fin n => p <= n | Inf => True end.
Proof.
  destruct row as [[lo hi] label]; simpl.
  rewrite andb_true_iff, Z.leb_le. destruct hi; simpl; [rewrite Z.leb_le|]; tauto.
Qed.

Lemma labels_distinct : NoDup labels ∧ length labels = 9%nat.
Proof.
  split; [|reflexivity].
  unfold labels, PUNISHMENT_THRESHOLDS; simpl.
  repeat (apply NoDup_cons_2;
          [rewrite ?elem_of_cons, elem_of_nil; intros H;
           repeat destruct H as [H|H]; discriminate || contradiction|]).
  apply NoDup_nil_2.
Qed.

Lemma first_action_Some table (p : Z) (action : string) :
  first_action table p = Some action →
  ∃ row, row ∈ table ∧ in_range p row = true ∧ action = row.2.
Proof.
  induction table as [|row rest IH]; simpl; [discriminate|].
  destruct (in_range p row) eqn:Hr.
  - intros [= <-]. exists row. split; [apply elem_of_cons; by left|done].
  - intros H. destruct (IH H) as (row' & Hin & Hr' & ->).
    exists row'. split; [apply elem_of_cons; by right|done].
Qed.

Lemma first_action_covers (p : Z) :
  0 <= p → is_Some (first_action PUNISHMENT_THRESHOLDS p).
Proof.
  intros Hp0.
  assert (0 <= p <= 14 ∨ 15 <= p <= 24 ∨ 25 <= p <= 34 ∨ 35 <= p <= 44
          ∨ 45 <= p <= 59 ∨ 60 <= p <= 74 ∨ 75 <= p <= 89 ∨ 90 <= p <= 99
          ∨ 100 <= p) as Hp by lia.
  unfold PUNISHMENT_THRESHOLDS, first_action, in_range, le_bound.
  repeat destruct Hp as [Hp|Hp]; decide_cmp; simpl; eauto.
Qed.

Lemma thresholds_disjoint (p : Z) row row' :
  row ∈ PUNISHMENT_THRESHOLDS → row' ∈ PUNISHMENT_THRESHOLDS →
  in_range p row = true → in_range p row' = true → row' = row.
Proof.
  unfold PUNISHMENT_THRESHOLDS. rewrite !elem_of_cons, !elem_of_nil.
  intros Hin Hin' Hr Hr'. apply in_range_bounds in Hr, Hr'.
  repeat destruct Hin as [Hin|Hin]; try contradiction; subst row;
    repeat destruct Hin' as [Hin'|Hin']; try contradiction; subst row';
    simpl in Hr, Hr'; solve [reflexivity | lia].
Qed.

(** C4: for a non-negative number of points [get_punishment_action]
    returns the label of the one row of the table whose inclusive range
    holds the points: Written Warning up to 14, 3-Hour Ban up to 24,
    12-Hour Ban up to 34, 1-Day Ban up to 44, 3-Day Ban up to 59, 1-Week Ban
    up to 74, 2-Week Ban up to 89, 1-Month Ban up to 99, Permanent Ban from
    100 on. The label is one of the nine of the table, and more points never
    give a label that stands earlier in the table. *)
Theorem get_punishment_action_total_monotone (p : Z) :
  0 <= p →
  (∃ row, row ∈ PUNISHMENT_THRESHOLDS ∧ in_range p row = true
          ∧ get_punishment_action p = row.2
          ∧ ∀ row', row' ∈ PUNISHMENT_THRESHOLDS → in_range p row' = true →
                    row' = row)
  ∧ (get_punishment_action p ∈ labels ∧ NoDup labels ∧ length labels = 9%nat)
  ∧ get_punishment_action p =
      (if p <=? 14 then "Written Warning"
       else if p <=? 24 then "3-Hour Ban"
       else if p <=? 34 then "12-Hour Ban"
       else if p <=? 44 then "1-Day Ban"
       else if p <=? 59 then "3-Day Ban"
       else if p <=? 74 then "1-Week Ban"
       else if p <=? 89 then "2-Week Ban"
       else if p <=? 99 then "1-Month Ban"
       else "Permanent Ban")
  ∧ ∀ q, p <= q →
         (severity (get_punishment_action p) <= severity (get_punishment_action q))%nat.
Proof.
  intros Hp0.
  assert (0 <= p <= 14 ∨ 15 <= p <= 24 ∨ 25 <= p <= 34 ∨ 35 <= p <= 44
          ∨ 45 <= p <= 59 ∨ 60 <= p <= 74 ∨ 75 <= p <= 89 ∨ 90 <= p <= 99
          ∨ 100 <= p) as Hp by lia.
  split; [|split; [|split]].
  - destruct (first_action_covers p Hp0) as [action Ha].
    destruct (first_action_Some _ _ _ Ha) as (row & Hin & Hr & ->).
    exists row. repeat split; try done.
    + unfold get_punishment_action. by rewrite Ha.
    + intros row' Hin' Hr'. by apply (thresholds_disjoint p).
  - split; [|apply labels_distinct].
    rewrite get_punishment_action_cases. unfold labels, PUNISHMENT_THRESHOLDS.
    simpl. rewrite !elem_of_cons.
    repeat destruct Hp as [Hp|Hp]; decide_cmp; tauto.
  - apply get_punishment_action_cases.
  - intros q Hq. rewrite !get_punishment_action_cases.
    assert (0 <= q <= 14 ∨ 15 <= q <= 24 ∨ 25 <= q <= 34 ∨ 35 <= q <= 44
          ∨ 45 <= q <= 59 ∨ 60 <= q <= 74 ∨ 75 <= q <= 89 ∨ 90 <= q <= 99
          ∨ 100 <= q) as Hq' by lia.
    repeat destruct Hp as [Hp|Hp]; repeat destruct Hq' as [Hq'|Hq'];
      try lia; decide_cmp; vm_compute; lia.
Qed.

Lemma get_punishment_action_total_monotone_witness :
  0 <= 25 ∧ get_punishment_action 25 = "12-Hour Ban".
Proof.
  split; [lia|].
  exact (proj1 (proj2 (proj2 (get_punishment_action_total_monotone 25 ltac:(lia))))).
Defined.

End ViolationsFacts.

(** ** Decimal text of integers *)

Section PyFacts.
Import Py.

Lemma to_int_not_nil (n : Z) :
  Z.to_int n ≠ Decimal.Pos Decimal.Nil ∧ Z.to_int n ≠ Decimal.Neg Decimal.Nil.
Proof.
  destruct n as [|p|p]; simpl; split; try discriminate;
    intros [= H]; by apply DecimalPos.Unsigned.to_uint_nonnil in H.
Qed.

Lemma str_inj (x y : Z) : str x = str y → x = y.
Proof.
  unfold str. intros H.
  apply (f_equal NilZero.int_of_string) in H.
  destruct (to_int_not_nil x), (to_int_not_nil y).
  rewrite !NilZero.isi in H by done.
  injection H as H. by apply DecimalZ.to_int_inj.
Qed.

Lemma to_uint_not_nil (n : N) : N.to_uint n ≠ Decimal.Nil.
Proof.
  destruct n; simpl; [discriminate|apply DecimalPos.Unsigned.to_uint_nonnil].
Qed.

Lemma str_nonneg (n : Z) :
  0 <= n → str n = NilZero.string_of_uint (N.to_uint (Z.to_N n)).
Proof. destruct n; simpl; [reflexivity|reflexivity|lia]. Qed.

Lemma int_str (n : Z) : 0 <= n → int (str n) = Some n.
Proof.
  intros Hn. unfold int. rewrite str_nonneg by done.
  rewrite NilZero.usu by apply to_uint_not_nil.
  rewrite DecimalN.Unsigned.of_to. f_equal. lia.
Qed.

Lemma all_digits_string_of_uint d : all_digits (NilEmpty.string_of_uint d) = true.
Proof. induction d; simpl; auto. Qed.

Lemma isdigit_str (n : Z) : 0 <= n → isdigit (str n) = true.
Proof.
  intros Hn. rewrite str_nonneg by done.
  pose proof (to_uint_not_nil (Z.to_N n)) as Hnil.
  destruct (N.to_uint (Z.to_N n)) as [|d|d|d|d|d|d|d|d|d|d]; try done;
    simpl; apply all_digits_string_of_uint.
Qed.

End PyFacts.

(** ** Loading and saving the warning ledger *)

Section DatabaseFacts.
Import Py Violations Database Bot Ledger.

Lemma load_data_document f : load_data f = Return (document f).
Proof. by destruct f. Qed.

Lemma document_save_data d : document (save_data d) = d.
Proof. by destruct d. Qed.

(** ** The next warning id *)

Lemma id_number_nonneg k n : id_number k = Some n → 0 <= n.
Proof.
  unfold id_number, int. destruct (isdigit k); [|done].
  destruct (NilZero.uint_of_string k); [|done]. intros [= <-]. lia.
Qed.

Lemma id_number_str n : 0 <= n → id_number (str n) = Some n.
Proof. intros Hn. unfold id_number. by rewrite isdigit_str, int_str. Qed.

Lemma max_numeric_id_step k max_id :
  (if isdigit k then
     match int k with Some id_num => Z.max max_id id_num | None => max_id end
   else max_id)
  = match id_number k with Some n => Z.max max_id n | None => max_id end.
Proof. unfold id_number. by destruct (isdigit k). Qed.

(** [max_numeric_id] is the greatest number of an id of digits, and 0
    when there is none. *)
Lemma max_numeric_id_spec (ws : gmap string Warning) :
  0 <= max_numeric_id ws
  ∧ (∀ k n, is_Some (ws !! k) → id_number k = Some n → n <= max_numeric_id ws)
  ∧ (max_numeric_id ws = 0
     ∨ ∃ k, is_Some (ws !! k) ∧ id_number k = Some (max_numeric_id ws)).
Proof.
  unfold max_numeric_id.
  apply (map_fold_weak_ind (λ r (m : gmap string Warning),
    0 <= r
    ∧ (∀ k n, is_Some (m !! k) → id_number k = Some n → n <= r)
    ∧ (r = 0 ∨ ∃ k, is_Some (m !! k) ∧ id_number k = Some r))).
  - split; [lia|]. split; [|by left].
    intros k n [w Hw]. by rewrite lookup_empty in Hw.
  - intros i x m r Hi (Hr0 & Hub & Hat). rewrite max_numeric_id_step.
    destruct (id_number i) as [ni|] eqn:Hni.
    + split; [lia|]. split.
      * intros k n Hk Hn. rewrite lookup_insert_is_Some in Hk.
        destruct Hk as [->|[_ Hk]]; [|specialize (Hub k n Hk Hn); lia].
        rewrite Hni in Hn. injection Hn as ->. lia.
      * right. destruct (Z.max_spec r ni) as [[Hlt ->]|[Hle ->]].
        -- exists i. split; [|done]. rewrite lookup_insert_is_Some. by left.
        -- destruct Hat as [->|(k & Hk & Hn)].
           ++ exists i. pose proof (id_number_nonneg _ _ Hni).
              assert (ni = 0) as -> by lia.
              split; [|done]. rewrite lookup_insert_is_Some. by left.
           ++ exists k. split; [|done]. rewrite lookup_insert_is_Some.
              destruct (decide (i = k)); [by left|right; done].
    + split; [done|]. split.
      * intros k n Hk Hn. rewrite lookup_insert_is_Some in Hk.
        destruct Hk as [->|[_ Hk]]; [congruence|by eapply Hub].
      * destruct Hat as [->|(k & Hk & Hn)]; [by left|right].
        exists k. split; [|done]. rewrite lookup_insert_is_Some.
        destruct (decide (i = k)); [by left|right; done].
Qed.

Lemma max_numeric_id_unique (ws : gmap string Warning) (M : Z) :
  0 <= M →
  (∀ k n, is_Some (ws !! k) → id_number k = Some n → n <= M) →
  (M = 0 ∨ ∃ k, is_Some (ws !! k) ∧ id_number k = Some M) →
  max_numeric_id ws = M.
Proof.
  intros HM Hub Hat.
  destruct (max_numeric_id_spec ws) as (Hm & Hub' & Hat').
  assert (M <= max_numeric_id ws).
  { destruct Hat as [->|(k & Hk & Hn)]; [done|by eapply Hub']. }
  assert (max_numeric_id ws <= M).
  { destruct Hat' as [->|(k & Hk & Hn)]; [done|by eapply Hub]. }
  lia.
Qed.

Lemma max_numeric_id_same_keys (ws ws' : gmap string Warning) :
  (∀ k, is_Some (ws' !! k) ↔ is_Some (ws !! k)) →
  max_numeric_id ws' = max_numeric_id ws.
Proof.
  intros Hdom. destruct (max_numeric_id_spec ws) as (Hm & Hub & Hat).
  apply max_numeric_id_unique; [done|..].
  - intros k n Hk. apply Hub. by apply Hdom.
  - destruct Hat as [?|(k & Hk & Hn)]; [by left|right].
    exists k. split; [by apply Hdom|done].
Qed.

Lemma next_id_fresh (ws : gmap string Warning) :
  ws !! str (max_numeric_id ws + 1) = None.
Proof.
  destruct (max_numeric_id_spec ws) as (Hm & Hub & _).
  destruct (ws !! str (max_numeric_id ws + 1)) as [w|] eqn:Hw; [|done].
  assert (max_numeric_id ws + 1 <= max_numeric_id ws); [|lia].
  apply (Hub (str (max_numeric_id ws + 1))); [by eexists|].
  apply id_number_str. lia.
Qed.

Lemma max_numeric_id_insert_next (ws : gmap string Warning) (w : Warning) :
  max_numeric_id (<[str (max_numeric_id ws + 1) := w]> ws) = max_numeric_id ws + 1.
Proof.
  destruct (max_numeric_id_spec ws) as (Hm & Hub & _).
  apply max_numeric_id_unique; [lia|..].
  - intros k n Hk Hn. rewrite lookup_insert_is_Some in Hk.
    destruct Hk as [<-|[_ Hk]]; [|specialize (Hub k n Hk Hn); lia].
    rewrite id_number_str in Hn by lia. injection Hn as <-. lia.
  - right. exists (str (max_numeric_id ws + 1)).
    split; [rewrite lookup_insert_is_Some; by left|apply id_number_str; lia].
Qed.

(** ** The loop of [remove_user_warnings] *)

Section RemoveLoop.
Context (moderator_id : Z) (reason : string) (now : Z).

Lemma mark_removed_inactive m r t1 t2 w now' :
  is_active now' (mark_removed m r t1 t2 w) = false.
Proof. unfold is_active; simpl. apply andb_false_r. Qed.

Lemma remove_step_active ws c a w :
  ws !! a = Some w → is_active now w = true →
  remove_step moderator_id reason now (ws, c) a
  = (<[a := mark_removed moderator_id reason now now w]> ws, c + 1).
Proof.
  intros Hw Ha. unfold remove_step. rewrite Hw.
  unfold is_active in Ha. by rewrite Ha.
Qed.

Lemma remove_step_inactive ws c a :
  active_at ws now a = false →
  remove_step moderator_id reason now (ws, c) a = (ws, c).
Proof.
  unfold active_at, remove_step, is_active.
  destruct (ws !! a) as [w|]; [|done]. by intros ->.
Qed.

Lemma active_at_insert_removed ws a m r t1 t2 w now' k :
  active_at (<[a := mark_removed m r t1 t2 w]> ws) now' k
  = if decide (k = a) then false else active_at ws now' k.
Proof.
  unfold active_at. case_decide as Hk.
  - subst k. by rewrite lookup_insert_eq, mark_removed_inactive.
  - by rewrite lookup_insert_ne.
Qed.

Lemma length_filter_but_one (P P1 : string → Prop)
    `{!∀ x, Decision (P x)} `{!∀ x, Decision (P1 x)} (a : string) (l : list string) :
  NoDup l → P a → (∀ k, P1 k ↔ P k ∧ k ≠ a) →
  length (filter P l)
  = ((if decide (a ∈ l) then 1 else 0) + length (filter P1 l))%nat.
Proof.
  intros Hnd Pa HP1. induction Hnd as [|x l Hx Hnd IH].
  - by rewrite decide_False by apply not_elem_of_nil.
  - destruct (decide (x = a)) as [->|Hxa].
    + rewrite filter_cons_True by done.
      rewrite (filter_cons_False P1) by (rewrite HP1; tauto).
      rewrite decide_True by (apply elem_of_cons; by left).
      simpl. f_equal. rewrite IH. by rewrite decide_False.
    + assert ((a ∈ x :: l) ↔ a ∈ l) as Hin.
      { rewrite elem_of_cons. split; [intros [?|?]; [congruence|done]|by right]. }
      destruct (decide (P x)) as [Px|Px].
      * rewrite filter_cons_True by done.
        rewrite (filter_cons_True P1) by (rewrite HP1; tauto).
        simpl. rewrite IH.
        destruct (decide (a ∈ l)), (decide (a ∈ x :: l)); tauto || lia.
      * rewrite filter_cons_False by done.
        rewrite (filter_cons_False P1) by (rewrite HP1; tauto).
        rewrite IH.
        destruct (decide (a ∈ l)), (decide (a ∈ x :: l)); tauto || lia.
Qed.

(** The loop marks exactly the ids of the list that name an active
    warning, and counts each once. *)
Lemma remove_loop (l : list string) (ws : gmap string Warning) (c : Z) :
  (foldl (remove_step moderator_id reason now) (ws, c) l).2
  = c + Z.of_nat (length (filter (λ k, active_at ws now k = true) (remove_dups l)))
  ∧ ∀ k, (foldl (remove_step moderator_id reason now) (ws, c) l).1 !! k
         = if decide (k ∈ l ∧ active_at ws now k = true)
           then mark_removed moderator_id reason now now <$> ws !! k
           else ws !! k.
Proof.
  revert ws c. induction l as [|a l IH]; intros ws c.
  - split; [simpl; lia|]. intros k. cbn [foldl].
    case_decide as Hk; [|done]. destruct Hk as [Hk _].
    by apply not_elem_of_nil in Hk.
  - cbn [foldl]. destruct (active_at ws now a) eqn:Ha.
    + unfold active_at in Ha. destruct (ws !! a) as [w|] eqn:Hw; [|done].
      rewrite (remove_step_active _ _ _ w) by done.
      destruct (IH (<[a := mark_removed moderator_id reason now now w]> ws) (c + 1))
        as [Hc Hm].
      split.
      * rewrite Hc.
        rewrite (length_filter_but_one
                   (λ k, active_at ws now k = true)
                   (λ k, active_at (<[a := mark_removed moderator_id reason now now w]> ws)
                                   now k = true)
                   a (remove_dups (a :: l))).
        -- rewrite decide_True.
           2:{ apply elem_of_remove_dups. apply elem_of_cons. by left. }
           cbn [remove_dups].
           destruct (decide_rel elem_of a l) as [Hin|Hin].
           ++ lia.
           ++ rewrite filter_cons_False.
              2:{ rewrite active_at_insert_removed. by rewrite decide_True. }
              lia.
        -- apply NoDup_remove_dups.
        -- unfold active_at. by rewrite Hw.
        -- intros k. rewrite active_at_insert_removed.
           case_decide as Hka; [subst k; split; [done|intros [_ []]; done]|].
           split; [by intros ?|by intros [? _]].
      * intros k. rewrite Hm. rewrite active_at_insert_removed.
        destruct (decide (k = a)) as [->|Hk].
        -- rewrite decide_False by (by intros [_ ?]).
           rewrite lookup_insert_eq. rewrite decide_True.
           ++ by rewrite Hw.
           ++ split; [apply elem_of_cons; by left|].
              unfold active_at. by rewrite Hw.
        -- rewrite lookup_insert_ne by done.
           destruct (decide (k ∈ l ∧ active_at ws now k = true)) as [[H1 H2]|Hn].
           ++ rewrite decide_True; [done|]. split; [|done].
              apply elem_of_cons. by right.
           ++ rewrite decide_False; [done|]. intros [H1 H2]. apply Hn.
              split; [|done]. apply elem_of_cons in H1 as [?|?]; done.
    + rewrite remove_step_inactive by done.
      destruct (IH ws c) as [Hc Hm]. split.
      * rewrite Hc. cbn [remove_dups].
        destruct (decide_rel elem_of a l); [done|].
        rewrite filter_cons_False; [done|]. by rewrite Ha.
      * intros k. rewrite Hm.
        destruct (decide (k ∈ l ∧ active_at ws now k = true)) as [[H1 H2]|Hn].
        -- rewrite decide_True; [done|]. split; [|done].
           apply elem_of_cons. by right.
        -- rewrite decide_False; [done|]. intros [H1 H2]. apply Hn.
           split; [|done]. apply elem_of_cons in H1 as [->|?]; [congruence|done].
Qed.

End RemoveLoop.

(** ** What each function of the ledger does to the document *)

Lemma remove_warning_eq warning_id moderator_id reason now_at now_exp f :
  remove_warning warning_id moderator_id reason now_at now_exp f
  = match warnings (document f) !! warning_id with
    | Some w =>
        Return (true,
                save_data
                  {| users := users (document f);
                     warnings :=
                       <[warning_id := mark_removed moderator_id reason now_at now_exp w]>
                         (warnings (document f));
                     bans := bans (document f) |})
    | None => Return (false, f)
    end.
Proof.
  unfold remove_warning. rewrite load_data_document. simpl.
  by destruct (warnings (document f) !! warning_id).
Qed.

Lemma mark_removed_again m1 r1 t1 t2 m2 r2 t3 t4 w :
  mark_removed m2 r2 t3 t4 (mark_removed m1 r1 t1 t2 w) = mark_removed m2 r2 t3 t4 w.
Proof. reflexivity. Qed.

(** C7: [remove_warning] returns [False] exactly when the id is not a key of
    the stored warnings, and then leaves the file as it was; otherwise it
    returns [True] and the stored warning gets [removed = True], the
    moderator, the time and the reason of the removal, and [expires_at] one
    day before the clock reading, with its other fields, the other warnings,
    the users and the bans unchanged; a second call on the removed warning
    returns [True] again and stamps the five fields anew. *)
Theorem remove_warning_marks_or_fails (warning_id : string) (moderator_id : Z)
    (reason : string) (now_at now_exp : Z) (f : File RawData) :
  ∃ b f',
    remove_warning warning_id moderator_id reason now_at now_exp f = Return (b, f')
    ∧ (b = false ↔ warnings (document f) !! warning_id = None)
    ∧ (b = false → f' = f)
    ∧ ∀ w, warnings (document f) !! warning_id = Some w →
        b = true
        ∧ users (document f') = users (document f)
        ∧ bans (document f') = bans (document f)
        ∧ (∀ k, k ≠ warning_id →
                warnings (document f') !! k = warnings (document f) !! k)
        ∧ (∃ w', warnings (document f') !! warning_id = Some w'
             ∧ w_removed w' = Some true
             ∧ w_removed_by w' = Some moderator_id
             ∧ w_removed_at w' = Some now_at
             ∧ w_removal_reason w' = Some reason
             ∧ w_expires_at w' = now_exp - timedelta_days 1
             ∧ (w_id w', w_user_id w', w_moderator_id w', w_violation_type w')
               = (w_id w, w_user_id w, w_moderator_id w, w_violation_type w)
             ∧ (w_points w', w_clips w', w_reason w', w_timestamp w')
               = (w_points w, w_clips w, w_reason w, w_timestamp w))
        ∧ ∀ moderator2 reason2 now_at2 now_exp2,
            ∃ f2,
              remove_warning warning_id moderator2 reason2 now_at2 now_exp2 f'
              = Return (true, f2)
              ∧ warnings (document f2)
                = <[warning_id := mark_removed moderator2 reason2 now_at2 now_exp2 w]>
                    (warnings (document f)).
Proof.
  rewrite remove_warning_eq.
  destruct (warnings (document f) !! warning_id) as [w|] eqn:Hw.
  - eexists true, _. split; [reflexivity|].
    split; [split; discriminate|]. split; [discriminate|].
    intros w0 [= <-]. rewrite document_save_data. simpl.
    split; [done|]. split; [done|]. split; [done|]. split.
    { intros k Hk. by rewrite lookup_insert_ne. }
    split.
    { eexists. split; [apply lookup_insert_eq|]. by repeat split. }
    intros m2 r2 t3 t4. rewrite remove_warning_eq, document_save_data. simpl.
    rewrite lookup_insert_eq. eexists. split; [reflexivity|].
    rewrite document_save_data. simpl.
    by rewrite insert_insert_eq, mark_removed_again.
  - exists false, f. split; [done|]. split; [done|]. split; [done|].
    intros w [=].
Qed.

Lemma remove_user_warnings_eq user_id moderator_id reason now f :
  remove_user_warnings user_id moderator_id reason now f
  = match users (document f) !! str user_id with
    | None => Return (0, f)
    | Some user =>
        let r := foldl (remove_step moderator_id reason now)
                       (warnings (document f), 0) (u_warnings user) in
        Return (r.2,
                save_data {| users := users (document f);
                             warnings := r.1;
                             bans := bans (document f) |})
    end.
Proof.
  unfold remove_user_warnings. rewrite load_data_document. simpl.
  destruct (users (document f) !! str user_id) as [user|]; [|done].
  by destruct (foldl _ _ _).
Qed.


Lemma is_active_later now now2 w :
  now <= now2 → is_active now w = false → is_active now2 w = false.
Proof.
  unfold is_active. rewrite !andb_false_iff, !Z.ltb_ge. intros ? [?|?]; [left; lia|by right].
Qed.

Lemma filter_active_stored (ws : gmap string Warning) now (l : list string) :
  length (filter (λ k, active_at ws now k = true) l)
  = length (filter (λ w, is_active now w = true) (omap (λ k, ws !! k) l)).
Proof.
  induction l as [|a l IH]; [done|].
  cbn [omap list_omap].
  destruct (decide (active_at ws now a = true)) as [Ha|Ha].
  - rewrite filter_cons_True by done. unfold active_at in Ha.
    destruct (ws !! a) as [w|]; [|done].
    rewrite (filter_cons_True (λ w, is_active now w = true)) by done.
    simpl. by rewrite IH.
  - rewrite filter_cons_False by done. unfold active_at in Ha.
    destruct (ws !! a) as [w|]; [|done].
    by rewrite (filter_cons_False (λ w, is_active now w = true)).
Qed.



(** ** The reading functions as sums and lists over the stored warnings *)

Lemma sum_points_app l1 l2 : sum_points (l1 ++ l2) = sum_points l1 + sum_points l2.
Proof. induction l1 as [|w l1 IH]; simpl; [done|]. rewrite IH. lia. Qed.

Lemma points_loop (ws : gmap string Warning) (now : Z) (l : list string) (total : Z) :
  foldl (λ total warning_id,
           match ws !! warning_id with
           | Some warning =>
               if now <? w_expires_at warning then
                 if negb (default false (w_removed warning))
                 then total + w_points warning
                 else total
               else total
           | None => total
           end) total l
  = total + sum_points (filter (λ w, is_active now w = true) (omap (λ k, ws !! k) l)).
Proof.
  revert total. induction l as [|a l IH]; intros total; [simpl; lia|].
  cbn [foldl omap list_omap]. rewrite IH.
  destruct (ws !! a) as [w|]; [|done].
  destruct (decide (is_active now w = true)) as [Ha|Ha].
  - rewrite filter_cons_True by done. unfold is_active in Ha.
    apply andb_true_iff in Ha as [-> ->]. simpl. lia.
  - rewrite filter_cons_False by done. unfold is_active in Ha.
    destruct (now <? w_expires_at w); [|done].
    destruct (negb (default false (w_removed w))); [done|done].
Qed.

Lemma active_loop (ws : gmap string Warning) (now : Z) (l : list string)
    (acc : list Warning) :
  foldl (λ acc warning_id,
           match ws !! warning_id with
           | Some warning =>
               if now <? w_expires_at warning then
                 if negb (default false (w_removed warning))
                 then (acc ++ [warning])%list
                 else acc
               else acc
           | None => acc
           end) acc l
  = (acc ++ filter (λ w, is_active now w = true) (omap (λ k, ws !! k) l))%list.
Proof.
  revert acc. induction l as [|a l IH]; intros acc; [by rewrite app_nil_r|].
  cbn [foldl omap list_omap]. rewrite IH.
  destruct (ws !! a) as [w|]; [|done].
  destruct (decide (is_active now w = true)) as [Ha|Ha].
  - rewrite filter_cons_True by done. unfold is_active in Ha.
    apply andb_true_iff in Ha as [-> ->]. by rewrite <- app_assoc.
  - rewrite filter_cons_False by done. unfold is_active in Ha.
    destruct (now <? w_expires_at w); [|done].
    destruct (negb (default false (w_removed w))); [done|done].
Qed.

Lemma all_loop (ws : gmap string Warning) (l : list string) (acc : list Warning) :
  foldl (λ acc warning_id,
           match ws !! warning_id with
           | Some warning => (acc ++ [warning])%list
           | None => acc
           end) acc l
  = (acc ++ omap (λ k, ws !! k) l)%list.
Proof.
  revert acc. induction l as [|a l IH]; intros acc; [by rewrite app_nil_r|].
  cbn [foldl omap list_omap]. rewrite IH.
  destruct (ws !! a) as [w|]; [|done]. by rewrite <- app_assoc.
Qed.

Lemma get_user_points_eq user_id now f :
  get_user_points user_id now f
  = Return (sum_points (filter (λ w, is_active now w = true)
                               (stored_warnings (document f) user_id))).
Proof.
  unfold get_user_points, stored_warnings. rewrite load_data_document. simpl.
  destruct (users (document f) !! str user_id) as [user|]; [|done].
  by rewrite points_loop.
Qed.

Lemma get_user_warnings_eq user_id now f :
  get_user_warnings user_id now f
  = Return (sorted_reverse w_timestamp
              (filter (λ w, is_active now w = true)
                      (stored_warnings (document f) user_id))).
Proof.
  unfold get_user_warnings, stored_warnings. rewrite load_data_document. simpl.
  destruct (users (document f) !! str user_id) as [user|]; [|done].
  by rewrite active_loop.
Qed.

Lemma find_warnings_by_user_eq user_id limit f :
  find_warnings_by_user user_id limit f
  = Return (slice_to (sorted_reverse w_timestamp
                        (stored_warnings (document f) user_id)) limit).
Proof.
  unfold find_warnings_by_user, stored_warnings. rewrite load_data_document. simpl.
  destruct (users (document f) !! str user_id) as [user|].
  - by rewrite all_loop.
  - unfold slice_to. simpl. by destruct (0 <=? limit); rewrite take_nil.
Qed.

Lemma insert_desc_Permutation {A} (key : A → Z) x l :
  insert_desc key x l ≡ₚ x :: l.
Proof.
  induction l as [|y l IH]; [done|]. simpl.
  destruct (key y <=? key x); [done|]. rewrite IH. apply Permutation_swap.
Qed.

Lemma sorted_reverse_Permutation {A} (key : A → Z) l :
  sorted_reverse key l ≡ₚ l.
Proof.
  induction l as [|x l IH]; [done|]. unfold sorted_reverse in *. simpl.
  by rewrite insert_desc_Permutation, IH.
Qed.

Lemma insert_desc_descending {A} (key : A → Z) x l :
  StronglySorted (λ a b, key b <= key a) l →
  StronglySorted (λ a b, key b <= key a) (insert_desc key x l).
Proof.
  induction 1 as [|y l Hl IH Hy]; simpl.
  - constructor; [constructor|constructor].
  - destruct (Z.leb_spec (key y) (key x)) as [Hle|Hgt].
    + constructor; [by constructor|].
      constructor; [done|]. eapply Forall_impl; [exact Hy|]. simpl. lia.
    + constructor; [done|].
      rewrite insert_desc_Permutation. constructor; [lia|done].
Qed.

Lemma sorted_reverse_descending {A} (key : A → Z) l :
  StronglySorted (λ a b, key b <= key a) (sorted_reverse key l).
Proof.
  induction l as [|x l IH]; [constructor|].
  by apply insert_desc_descending.
Qed.

Lemma is_active_iff now w :
  is_active now w = true ↔ now < w_expires_at w ∧ default false (w_removed w) = false.
Proof.
  unfold is_active. rewrite andb_true_iff, Z.ltb_lt, negb_true_iff. tauto.
Qed.













(** The same with the limit of 100 the bot passes: of 101 warnings the
    oldest, once removed, is cut off. *)
Example default_limit_cuts_oldest_warning :
  ∃ f' found,
    remove_warning "1" 2 "appeal" 500 500
      (run ((λ i : nat, Issue 7 1 [] "Mic / Chat Spam"
                              (Z.of_nat i) (Z.of_nat i) (Z.of_nat i))
            <$> seq 0 101) Missing).1
    = Return (true, f')
    ∧ find_warnings_by_user 7 100 f' = Return found
    ∧ length found = 100%nat
    ∧ forallb (λ w, negb (String.eqb (w_id w) "1")) found = true.
Proof.
  eexists _, _. split; [vm_compute; reflexivity|].
  split; [vm_compute; reflexivity|]. split; vm_compute; reflexivity.
Qed.

(** ** Issuing a warning *)

Lemma alter_or_insert {A} (g : A → A) (k : string) (x0 : A) (m : gmap string A) :
  alter g k (match m !! k with None => <[k := x0]> m | Some _ => m end)
  = <[k := g (default x0 (m !! k))]> m.
Proof.
  apply map_eq. intros j. destruct (decide (k = j)) as [<-|Hj].
  - rewrite lookup_insert_eq, lookup_alter_eq.
    destruct (m !! k) as [x|] eqn:Hk; [by rewrite Hk|by rewrite lookup_insert_eq].
  - rewrite lookup_insert_ne, lookup_alter_ne by done.
    destruct (m !! k); [done|by rewrite lookup_insert_ne].
Qed.

Lemma add_warning_eq user_id moderator_id violation_type points clips reason
    now_ts now_exp f :
  add_warning user_id moderator_id violation_type points clips reason
              now_ts now_exp f
  = let data := document f in
    let warning_id := str (max_numeric_id (warnings data) + 1) in
    let old := default (mkUserRecord 0 [] []) (users data !! str user_id) in
    let warning :=
      mkWarning warning_id user_id moderator_id violation_type points clips
                reason now_ts (_calculate_expiry violation_type now_exp)
                None None None None in
    Return (warning,
            save_data
              {| users := <[str user_id :=
                              mkUserRecord (total_points old + points)
                                           (u_warnings old ++ [warning_id])
                                           (u_bans old)]> (users data);
                 warnings := <[warning_id := warning]> (warnings data);
                 bans := bans data |}).
Proof.
  unfold add_warning. rewrite load_data_document. cbn [mbind Exc_bind mret Exc_ret].
  cbn zeta. unfold _get_next_warning_id. by rewrite alter_or_insert.
Qed.

Lemma issue_violation_eq target_user_id moderator_id clips violation_type
    now_count now_ts now_exp f :
  issue_violation target_user_id moderator_id clips violation_type
                  now_count now_ts now_exp f
  = match dict_get VIOLATIONS violation_type with
    | None => Raise (KeyError violation_type)
    | Some v =>
        let points :=
          calculate_points violation_type
            (Z.of_nat (length
               (filter (λ w, w_violation_type w = violation_type)
                  (filter (λ w, is_active now_count w = true)
                     (stored_warnings (document f) target_user_id))))) in
        match add_warning target_user_id moderator_id violation_type points
                          clips (description v) now_ts now_exp f with
        | Return (w, f') => Return (points, w, f')
        | Raise e => Raise e
        end
    end.
Proof.
  unfold issue_violation.
  destruct (dict_get VIOLATIONS violation_type) as [v|]; [|done].
  cbn [mbind Exc_bind mret Exc_ret]. rewrite get_user_warnings_eq.
  assert (∀ l : list Warning,
            length (filter (λ w, w_violation_type w = violation_type)
                           (sorted_reverse w_timestamp l))
            = length (filter (λ w, w_violation_type w = violation_type) l)) as Hlen.
  { intros l. by rewrite sorted_reverse_Permutation. }
  cbn [mbind Exc_bind mret Exc_ret]. cbn zeta.
  rewrite Hlen, add_warning_eq. reflexivity.
Qed.

Lemma dict_get_Some {V} (d : list (string * V)) k v :
  dict_get d k = Some v → (k, v) ∈ d.
Proof.
  induction d as [|[k' v'] d IH]; [done|]. simpl.
  destruct (String.eqb_spec k' k) as [->|Hk].
  - intros [= ->]. apply elem_of_cons. by left.
  - intros H. apply elem_of_cons. right. by apply IH.
Qed.

Lemma VIOLATIONS_points :
  Forall (λ kv, 5 <= base_points kv.2 ∧ 0 <= repeat_penalty kv.2) VIOLATIONS.
Proof. unfold VIOLATIONS. repeat (constructor; [simpl; lia|]). constructor. Qed.

Lemma calculate_points_positive violation_type v n :
  dict_get VIOLATIONS violation_type = Some v → 0 <= n →
  5 <= calculate_points violation_type n.
Proof.
  intros Hv Hn. unfold calculate_points. rewrite Hv.
  apply dict_get_Some in Hv.
  pose proof (proj1 (Forall_forall _ _) VIOLATIONS_points _ Hv) as [Hb Hr].
  simpl in Hb, Hr. nia.
Qed.

(** ** One command *)

(** A command either issues no warning, keeps the users and at most marks
    stored warnings as removed, or it issues one warning under the next id. *)
Lemma exec_effect c f :
  ((exec c f).2 = []
   ∧ users (document (exec c f).1) = users (document f)
   ∧ ∀ k, warnings (document (exec c f).1) !! k = warnings (document f) !! k
          ∨ ∃ w m r t1 t2,
              warnings (document f) !! k = Some w
              ∧ warnings (document (exec c f).1) !! k
                = Some (mark_removed m r t1 t2 w))
  ∨ (∃ w, (exec c f).2 = [w]
       ∧ w_id w = str (max_numeric_id (warnings (document f)) + 1)
       ∧ 5 <= w_points w
       ∧ warnings (document (exec c f).1) = <[w_id w := w]> (warnings (document f))
       ∧ users (document (exec c f).1)
         = <[str (w_user_id w) :=
               mkUserRecord
                 (total_points (default (mkUserRecord 0 [] [])
                                  (users (document f) !! str (w_user_id w)))
                  + w_points w)
                 (u_warnings (default (mkUserRecord 0 [] [])
                                (users (document f) !! str (w_user_id w)))
                  ++ [w_id w])
                 (u_bans (default (mkUserRecord 0 [] [])
                            (users (document f) !! str (w_user_id w))))]>
             (users (document f))).
Proof.
  destruct c as [u m clips vt t1 t2 t3|wid m r t1 t2|u m r t|u total action mid t
                |mid m t]; cbn [exec].
  - rewrite issue_violation_eq.
    destruct (dict_get VIOLATIONS vt) as [v|] eqn:Hv.
    + right. cbn zeta. rewrite add_warning_eq. cbn zeta. cbn [fst snd].
      eexists. split; [reflexivity|]. cbn [w_id w_points w_user_id].
      split; [done|]. split.
      { eapply calculate_points_positive; [done|lia]. }
      by rewrite document_save_data.
    + left. cbn [fst snd]. split; [done|]. split; [done|]. intros k. by left.
  - left. rewrite remove_warning_eq.
    destruct (warnings (document f) !! wid) as [w|] eqn:Hw; cbn [fst snd].
    + rewrite document_save_data. cbn [users warnings].
      split; [done|]. split; [done|]. intros k.
      destruct (decide (wid = k)) as [<-|Hk].
      * right. exists w, m, r, t1, t2. by rewrite lookup_insert_eq.
      * left. by rewrite lookup_insert_ne.
    + split; [done|]. split; [done|]. intros k. by left.
  - left. rewrite remove_user_warnings_eq.
    destruct (users (document f) !! str u) as [user|] eqn:Hu; cbn zeta; cbn [fst snd].
    + rewrite document_save_data. cbn [users warnings].
      split; [done|]. split; [done|]. intros k.
      destruct (remove_loop m r t (u_warnings user) (warnings (document f)) 0)
        as [_ Hm].
      rewrite Hm. case_decide; [|by left].
      destruct (warnings (document f) !! k) as [w|]; [|by left].
      right. by exists w, m, r, t, t.
    + split; [done|]. split; [done|]. intros k. by left.
  - left. unfold add_ban_request. rewrite load_data_document.
    cbn [mbind Exc_bind mret Exc_ret fst snd]. rewrite document_save_data.
    split; [done|]. split; [done|]. intros k. by left.
  - left. unfold complete_ban_request. rewrite load_data_document.
    cbn [mbind Exc_bind mret Exc_ret].
    destruct (bans (document f) !! str mid); simpl;
      (split; [done|]; split; [done|]; intros k; by left).
Qed.

Lemma exec_max_numeric_id c f :
  max_numeric_id (warnings (document (exec c f).1))
  = max_numeric_id (warnings (document f)) + Z.of_nat (length (exec c f).2).
Proof.
  destruct (exec_effect c f) as [(-> & _ & Hws)|(w & -> & Hid & _ & Hws & _)].
  - simpl. rewrite Z.add_0_r. apply max_numeric_id_same_keys. intros k.
    destruct (Hws k) as [->|(w & m & r & t1 & t2 & -> & ->)]; [done|].
    split; by eexists.
  - rewrite Hws, Hid. simpl. apply max_numeric_id_insert_next.
Qed.

(** The ids of the warnings issued by a sequence of commands are the
    decimal texts of the integers that follow the greatest number among
    the ids stored at the start. *)
Lemma run_ids cs f :
  max_numeric_id (warnings (document (run cs f).1))
  = max_numeric_id (warnings (document f)) + Z.of_nat (length (run cs f).2)
  ∧ ∀ i w, (run cs f).2 !! i = Some w →
           w_id w = str (max_numeric_id (warnings (document f)) + 1 + Z.of_nat i).
Proof.
  revert f. induction cs as [|c cs IH]; intros f.
  - simpl. split; [lia|]. intros i w Hi. by rewrite lookup_nil in Hi.
  - cbn [run]. pose proof (exec_max_numeric_id c f) as Hc.
    destruct (exec c f) as [f1 issued1] eqn:Hexec.
    destruct (IH f1) as [Hm Hi]. destruct (run cs f1) as [f2 issued2].
    cbn [fst snd] in *. split.
    + rewrite Hm, Hc, length_app. lia.
    + intros i w Hw.
      destruct (exec_effect c f) as [(Hnil & _)|(w1 & Hone & Hid & _)];
        rewrite Hexec in *; cbn [fst snd] in *; subst issued1.
      * simpl in Hw. rewrite (Hi i w Hw), Hc. simpl. f_equal. lia.
      * destruct i as [|i]; simpl in Hw.
        -- injection Hw as <-. rewrite Hid. f_equal. lia.
        -- rewrite (Hi i w Hw), Hc. simpl length. f_equal. lia.
Qed.

Lemma above_max_fresh (ws : gmap string Warning) (n : Z) :
  max_numeric_id ws < n → ws !! str n = None.
Proof.
  intros Hn. destruct (max_numeric_id_spec ws) as (Hm & Hub & _).
  destruct (ws !! str n) as [w|] eqn:Hw; [|done].
  assert (n <= max_numeric_id ws); [|lia].
  apply (Hub (str n)); [by eexists|]. apply id_number_str. lia.
Qed.

(** C5: whatever the file holds at the start and whatever removals come in
    between, the ids of the warnings issued by a sequence of commands are
    the decimal texts of consecutive integers, the first being one more
    than the greatest number among the stored ids made of digits: they
    increase strictly, none occurs twice and none is an id the file already
    held. [add_warning] takes as id the text of one plus [max_numeric_id],
    which is the greatest number of a stored id made of decimal digits
    only (0 when there is none); the other ids do not count. *)
Theorem warning_ids_strictly_increase (cs : list Cmd) (f : File RawData) :
  (∀ i w, (run cs f).2 !! i = Some w →
     w_id w = str (max_numeric_id (warnings (document f)) + 1 + Z.of_nat i)
     ∧ isdigit (w_id w) = true
     ∧ int (w_id w) = Some (max_numeric_id (warnings (document f)) + 1 + Z.of_nat i))
  ∧ (∀ i j wi wj, (i < j)%nat →
       (run cs f).2 !! i = Some wi → (run cs f).2 !! j = Some wj →
       ∃ ni nj, int (w_id wi) = Some ni ∧ int (w_id wj) = Some nj ∧ ni < nj)
  ∧ NoDup (w_id <$> (run cs f).2)
  ∧ (∀ w, w ∈ (run cs f).2 → warnings (document f) !! w_id w = None)
  ∧ (∀ user_id moderator_id violation_type points clips reason now_ts now_exp f0,
       ∃ w f',
         add_warning user_id moderator_id violation_type points clips reason
                     now_ts now_exp f0 = Return (w, f')
         ∧ w_id w = str (max_numeric_id (warnings (document f0)) + 1)
         ∧ warnings (document f0) !! w_id w = None)
  ∧ (∀ ws : gmap string Warning,
       0 <= max_numeric_id ws
       ∧ (∀ k n, is_Some (ws !! k) → isdigit k = true → int k = Some n →
                 n <= max_numeric_id ws)
       ∧ (max_numeric_id ws = 0
          ∨ ∃ k, is_Some (ws !! k) ∧ isdigit k = true
                 ∧ int k = Some (max_numeric_id ws))).
Proof.
  destruct (run_ids cs f) as [_ Hids].
  destruct (max_numeric_id_spec (warnings (document f))) as (Hm0 & _ & _).
  assert (∀ i w, (run cs f).2 !! i = Some w →
     w_id w = str (max_numeric_id (warnings (document f)) + 1 + Z.of_nat i)
     ∧ isdigit (w_id w) = true
     ∧ int (w_id w) = Some (max_numeric_id (warnings (document f)) + 1 + Z.of_nat i))
    as Hall.
  { intros i w Hw. rewrite (Hids i w Hw).
    split; [done|]. split; [apply isdigit_str; lia|apply int_str; lia]. }
  split; [done|]. split; [|split; [|split; [|split]]].
  - intros i j wi wj Hij Hi Hj.
    destruct (Hall i wi Hi) as (_ & _ & Hni).
    destruct (Hall j wj Hj) as (_ & _ & Hnj).
    eexists _, _. split; [done|]. split; [done|]. lia.
  - apply NoDup_alt. intros i j x. rewrite !list_lookup_fmap.
    destruct ((run cs f).2 !! i) as [wi|] eqn:Hi; [|done].
    destruct ((run cs f).2 !! j) as [wj|] eqn:Hj; [|done].
    simpl. intros [= <-] [= Heq].
    rewrite (Hids i wi Hi), (Hids j wj Hj) in Heq.
    apply str_inj in Heq. lia.
  - intros w Hw. apply list_elem_of_lookup in Hw as [i Hi].
    rewrite (Hids i w Hi). apply above_max_fresh. lia.
  - intros u m vt pts clips reason t1 t2 f0. rewrite add_warning_eq. cbn zeta.
    eexists _, _. split; [reflexivity|]. cbn [w_id]. split; [done|].
    apply next_id_fresh.
  - intros ws. destruct (max_numeric_id_spec ws) as (Hm & Hub & Hat).
    split; [done|]. split.
    + intros k n Hk Hd Hn. apply (Hub k n Hk). unfold id_number. by rewrite Hd.
    + destruct Hat as [?|(k & Hk & Hn)]; [by left|right].
      exists k. split; [done|]. unfold id_number in Hn.
      destruct (isdigit k); [done|discriminate].
Qed.

(** ** The stored counter *)

Lemma sum_points_same_points (ws ws' : gmap string Warning) (l : list string) :
  (∀ k, w_points <$> ws' !! k = w_points <$> ws !! k) →
  sum_points (omap (λ k, ws' !! k) l) = sum_points (omap (λ k, ws !! k) l).
Proof.
  intros Hp. induction l as [|a l IH]; [done|]. cbn [omap list_omap].
  specialize (Hp a).
  destruct (ws' !! a) as [w'|], (ws !! a) as [w|]; simpl in *; try done.
  injection Hp as ->. by rewrite IH.
Qed.

Lemma omap_insert_fresh (ws : gmap string Warning) wid w (l : list string) :
  (∀ k, k ∈ l → is_Some (ws !! k)) → ws !! wid = None →
  omap (λ k, <[wid := w]> ws !! k) l = omap (λ k, ws !! k) l.
Proof.
  intros Hl Hwid. induction l as [|a l IH]; [done|]. cbn [omap list_omap].
  assert (wid ≠ a) as Ha.
  { intros <-. destruct (Hl wid) as [x Hx]; [apply elem_of_cons; by left|].
    congruence. }
  rewrite lookup_insert_ne by done. rewrite IH; [done|].
  intros k Hk. apply Hl, elem_of_cons. by right.
Qed.

Lemma consistent_initial : consistent initial_data.
Proof.
  split.
  - intros k user Hk. simpl in Hk. by rewrite lookup_empty in Hk.
  - intros k w Hk. simpl in Hk. by rewrite lookup_empty in Hk.
Qed.

Lemma exec_consistent c f :
  consistent (document f) → consistent (document (exec c f).1).
Proof.
  intros [Husers Hpos].
  destruct (exec_effect c f) as [(_ & Hu & Hws)|(w & _ & Hid & Hpts & Hws & Hu)].
  - split.
    + intros k user Hk. rewrite Hu in Hk. destruct (Husers k user Hk) as [Ht Hex].
      split.
      * rewrite Ht. symmetry. apply sum_points_same_points. intros j.
        destruct (Hws j) as [->|(w & m & r & t1 & t2 & -> & ->)]; done.
      * intros j Hj. destruct (Hex j Hj) as [w Hw].
        destruct (Hws j) as [->|(w' & m & r & t1 & t2 & _ & ->)]; by eexists.
    + intros j w Hw.
      destruct (Hws j) as [Heq|(w' & m & r & t1 & t2 & Hw' & Heq)];
        rewrite Heq in Hw.
      * by eapply Hpos.
      * injection Hw as <-. simpl. by eapply Hpos.
  - pose proof (next_id_fresh (warnings (document f))) as Hfresh.
    rewrite <- Hid in Hfresh. split.
    + intros k user Hk. rewrite Hu in Hk. rewrite Hws.
      destruct (decide (str (w_user_id w) = k)) as [<-|Hne].
      * rewrite lookup_insert_eq in Hk. injection Hk as <-.
        cbn [total_points u_warnings].
        assert (total_points (default (mkUserRecord 0 [] [])
                               (users (document f) !! str (w_user_id w)))
                = sum_points (omap (λ k, warnings (document f) !! k)
                    (u_warnings (default (mkUserRecord 0 [] [])
                                   (users (document f) !! str (w_user_id w)))))
                ∧ ∀ j, j ∈ u_warnings (default (mkUserRecord 0 [] [])
                                   (users (document f) !! str (w_user_id w))) →
                       is_Some (warnings (document f) !! j)) as [Ht Hex].
        { destruct (users (document f) !! str (w_user_id w)) as [old|] eqn:Hold.
          - simpl. by apply (Husers (str (w_user_id w)) old).
          - simpl. split; [done|]. intros j Hj. by apply not_elem_of_nil in Hj. }
        split.
        -- rewrite omap_app, sum_points_app. cbn [omap list_omap].
           rewrite lookup_insert_eq. rewrite omap_insert_fresh by done.
           rewrite Ht. simpl. lia.
        -- intros j Hj. rewrite lookup_insert_is_Some.
           apply elem_of_app in Hj as [Hj|Hj].
           ++ destruct (decide (w_id w = j)); [by left|right]. split; [done|].
              by apply Hex.
           ++ left. apply list_elem_of_singleton in Hj. done.
      * rewrite lookup_insert_ne in Hk by done.
        destruct (Husers k user Hk) as [Ht Hex]. split.
        -- by rewrite omap_insert_fresh.
        -- intros j Hj. rewrite lookup_insert_is_Some.
           destruct (decide (w_id w = j)); [by left|right]. split; [done|].
           by apply Hex.
    + intros j w0. rewrite Hws. rewrite lookup_insert_Some.
      intros [[_ <-]|[_ Hw0]]; [lia|by eapply Hpos].
Qed.

Lemma run_consistent cs f :
  consistent (document f) → consistent (document (run cs f).1).
Proof.
  revert f. induction cs as [|c cs IH]; intros f Hf; [done|].
  cbn [run]. pose proof (exec_consistent c f Hf) as Hc.
  destruct (exec c f) as [f1 issued1]. specialize (IH f1 Hc).
  by destruct (run cs f1).
Qed.

(** In a document reached from the empty ledger no record names a
    warning twice, so the number [remove_user_warnings] returns is the
    number of the user's active warnings. *)
Lemma exec_records_NoDup c f :
  consistent (document f) →
  (∀ k user, users (document f) !! k = Some user → NoDup (u_warnings user)) →
  ∀ k user, users (document (exec c f).1) !! k = Some user → NoDup (u_warnings user).
Proof.
  intros [Husers _] Hnd k user.
  destruct (exec_effect c f) as [(_ & -> & _)|(w & _ & Hid & _ & _ & ->)];
    [by apply Hnd|].
  pose proof (next_id_fresh (warnings (document f))) as Hfresh.
  rewrite <- Hid in Hfresh. rewrite lookup_insert_Some.
  intros [[_ <-]|[_ Hk]]; [|by eapply Hnd]. cbn [u_warnings].
  apply NoDup_app.
  destruct (users (document f) !! str (w_user_id w)) as [old|] eqn:Hold; simpl.
  - split; [by eapply Hnd|]. split; [|apply NoDup_singleton].
    intros j Hj Hj'. apply list_elem_of_singleton in Hj'. subst j.
    destruct (Husers _ _ Hold) as [_ Hex]. destruct (Hex _ Hj) as [x Hx].
    congruence.
  - split; [apply NoDup_nil_2|]. split; [|apply NoDup_singleton].
    intros j Hj. by apply not_elem_of_nil in Hj.
Qed.

Lemma run_records_NoDup cs f0 k user :
  load_data f0 = Return initial_data →
  users (document (run cs f0).1) !! k = Some user → NoDup (u_warnings user).
Proof.
  intros Hfresh.
  assert (consistent (document f0)
          ∧ ∀ k user, users (document f0) !! k = Some user → NoDup (u_warnings user))
    as Hstart.
  { unfold document. rewrite Hfresh. split; [apply consistent_initial|].
    intros j u Hj. simpl in Hj. by rewrite lookup_empty in Hj. }
  clear Hfresh. revert k user. revert f0 Hstart.
  induction cs as [|c cs IH]; intros f0 [Hc Hnd] k user; [by apply Hnd|].
  cbn [run]. pose proof (exec_consistent c f0 Hc) as Hc'.
  pose proof (exec_records_NoDup c f0 Hc Hnd) as Hnd'.
  destruct (exec c f0) as [f1 issued1]. specialize (IH f1 (conj Hc' Hnd') k user).
  by destruct (run cs f1).
Qed.

Lemma exec_stored_total c f user_id :
  stored_total (document (exec c f).1) user_id
  = stored_total (document f) user_id
    + sum_points (filter (λ w, w_user_id w = user_id) (exec c f).2).
Proof.
  unfold stored_total.
  destruct (exec_effect c f) as [(-> & -> & _)|(w & -> & _ & _ & _ & ->)].
  - simpl. lia.
  - destruct (decide (w_user_id w = user_id)) as [<-|Hne].
    + rewrite lookup_insert_eq, filter_cons_True by done. simpl.
      destruct (users (document f) !! str (w_user_id w)); simpl; lia.
    + rewrite lookup_insert_ne, filter_cons_False by (try done; by intros ?%str_inj).
      simpl. lia.
Qed.

Lemma run_stored_total cs f user_id :
  stored_total (document (run cs f).1) user_id
  = stored_total (document f) user_id
    + sum_points (filter (λ w, w_user_id w = user_id) (run cs f).2).
Proof.
  revert f. induction cs as [|c cs IH]; intros f; [simpl; lia|].
  cbn [run]. pose proof (exec_stored_total c f user_id) as Hc.
  destruct (exec c f) as [f1 issued1]. specialize (IH f1).
  destruct (run cs f1) as [f2 issued2]. cbn [fst snd] in *.
  rewrite IH, Hc, filter_app, sum_points_app. lia.
Qed.

Lemma sum_points_filter (P : Warning → Prop) `{!∀ w, Decision (P w)}
    (l : list Warning) :
  (∀ w, w ∈ l → 0 < w_points w) →
  sum_points (filter P l) <= sum_points l
  ∧ ((∃ w, w ∈ l ∧ ¬ P w) → sum_points (filter P l) < sum_points l)
  ∧ ((∀ w, w ∈ l → P w) → sum_points (filter P l) = sum_points l).
Proof.
  induction l as [|x l IH]; intros Hpos.
  - simpl. split; [done|]. split; [|done].
    intros (w & Hw & _). by apply not_elem_of_nil in Hw.
  - destruct IH as (Hle & Hlt & Heq).
    { intros w Hw. apply Hpos, elem_of_cons. by right. }
    assert (0 < w_points x) as Hx by (apply Hpos, elem_of_cons; by left).
    destruct (decide (P x)) as [Px|Px].
    + rewrite filter_cons_True by done. simpl. split; [lia|]. split.
      * intros (w & Hw & HPw). apply elem_of_cons in Hw as [->|Hw]; [done|].
        assert (sum_points (filter P l) < sum_points l); [|lia].
        apply Hlt. by exists w.
      * intros Hall. rewrite Heq; [done|].
        intros w Hw. apply Hall, elem_of_cons. by right.
    + rewrite filter_cons_False by done. simpl. split; [lia|]. split; [lia|].
      intros Hall. destruct Px. apply Hall, elem_of_cons. by left.
Qed.

(** C10: starting from the empty ledger, after any sequence of commands the
    stored [total_points] of a user is the sum of the points of all the
    warnings issued to that user, removed and expired ones included, which
    is also the sum over the warnings the user's record names.
    [add_warning] always returns: it stores the warning, with the points it
    was given, under a new id, appends the id to the record of its user and
    adds the points to the counter of that user and to no other; so does
    the issuing of a warning of a known type, by at least 5 points.
    [remove_warning] and [remove_user_warnings] always return and leave
    every counter as it is, and so does the passing of time, of which the
    stored document does not depend. [get_user_points] never exceeds the
    counter, equals it when all the user's warnings are active, and is
    strictly below it as soon as one of them is removed or expired. *)
Theorem total_points_never_decremented (cs : list Cmd) (f0 : File RawData)
    (user_id now : Z) :
  load_data f0 = Return initial_data →
  stored_total (document (run cs f0).1) user_id
  = sum_points (filter (λ w, w_user_id w = user_id) (run cs f0).2)
  ∧ stored_total (document (run cs f0).1) user_id
    = sum_points (stored_warnings (document (run cs f0).1) user_id)
  ∧ (∃ active,
       get_user_points user_id now (run cs f0).1 = Return active
       ∧ active <= stored_total (document (run cs f0).1) user_id
       ∧ ((∃ w, w ∈ stored_warnings (document (run cs f0).1) user_id
                ∧ is_active now w = false) →
          active < stored_total (document (run cs f0).1) user_id)
       ∧ ((∀ w, w ∈ stored_warnings (document (run cs f0).1) user_id →
                is_active now w = true) →
          active = stored_total (document (run cs f0).1) user_id))
  ∧ (∀ g u moderator_id clips violation_type now_count now_ts now_exp points w g',
       issue_violation u moderator_id clips violation_type now_count now_ts
                       now_exp g = Return (points, w, g') →
       stored_total (document g') user_id
       = stored_total (document g) user_id
         + (if decide (u = user_id) then w_points w else 0))
  ∧ (∀ g warning_id moderator_id reason now_at now_exp b g',
       remove_warning warning_id moderator_id reason now_at now_exp g
       = Return (b, g') →
       stored_total (document g') user_id = stored_total (document g) user_id)
  ∧ (∀ g u moderator_id reason now' n g',
       remove_user_warnings u moderator_id reason now' g = Return (n, g') →
       stored_total (document g') user_id = stored_total (document g) user_id)
  ∧ (∀ g u moderator_id violation_type points clips reason now_ts now_exp,
       ∃ w g',
         add_warning u moderator_id violation_type points clips reason
                     now_ts now_exp g = Return (w, g')
         ∧ w_points w = points
         ∧ w_user_id w = u
         ∧ warnings (document g) !! w_id w = None
         ∧ warnings (document g') !! w_id w = Some w
         ∧ (∃ user', users (document g') !! str u = Some user'
                     ∧ u_warnings user'
                       = (match users (document g) !! str u with
                          | Some user => u_warnings user
                          | None => []
                          end ++ [w_id w])%list)
         ∧ stored_total (document g') user_id
           = stored_total (document g) user_id
             + (if decide (u = user_id) then points else 0))
  ∧ (∀ g u moderator_id clips violation_type now_count now_ts now_exp,
       is_Some (dict_get VIOLATIONS violation_type) →
       ∃ w g',
         issue_violation u moderator_id clips violation_type now_count now_ts
                         now_exp g = Return (w_points w, w, g')
         ∧ 5 <= w_points w
         ∧ w_user_id w = u
         ∧ warnings (document g') !! w_id w = Some w
         ∧ stored_total (document g') user_id
           = stored_total (document g) user_id
             + (if decide (u = user_id) then w_points w else 0))
  ∧ (∀ g warning_id moderator_id reason now_at now_exp,
       ∃ b g',
         remove_warning warning_id moderator_id reason now_at now_exp g
         = Return (b, g')
         ∧ users (document g') = users (document g))
  ∧ (∀ g u moderator_id reason now',
       ∃ n g',
         remove_user_warnings u moderator_id reason now' g = Return (n, g')
         ∧ users (document g') = users (document g)).
Proof.
  intros Hfresh.
  assert (document f0 = initial_data) as Hd0.
  { unfold document. by rewrite Hfresh. }
  assert (consistent (document (run cs f0).1)) as [Husers Hpos].
  { apply run_consistent. rewrite Hd0. apply consistent_initial. }
  assert (stored_total (document (run cs f0).1) user_id
          = sum_points (stored_warnings (document (run cs f0).1) user_id)) as Hsum.
  { unfold stored_total, stored_warnings.
    destruct (users (document (run cs f0).1) !! str user_id) as [user|] eqn:Hu;
      [|done].
    by destruct (Husers _ _ Hu). }
  assert (∀ g u moderator_id violation_type points clips reason now_ts now_exp,
            ∃ w g',
              add_warning u moderator_id violation_type points clips reason
                          now_ts now_exp g = Return (w, g')
              ∧ w_points w = points
              ∧ w_user_id w = u
              ∧ warnings (document g) !! w_id w = None
              ∧ warnings (document g') !! w_id w = Some w
              ∧ (∃ user', users (document g') !! str u = Some user'
                          ∧ u_warnings user'
                            = (match users (document g) !! str u with
                               | Some user => u_warnings user
                               | None => []
                               end ++ [w_id w])%list)
              ∧ stored_total (document g') user_id
                = stored_total (document g) user_id
                  + (if decide (u = user_id) then points else 0)) as Hadd.
  { intros g u m vt p clips reason t1 t2. rewrite add_warning_eq. cbn zeta.
    eexists (mkWarning _ _ _ _ _ _ _ _ _ _ _ _ _), _. split; [reflexivity|].
    rewrite document_save_data. cbn [w_points w_user_id w_id users warnings].
    split; [done|]. split; [done|]. split; [apply next_id_fresh|].
    split; [apply lookup_insert_eq|]. split.
    - rewrite lookup_insert_eq. eexists. split; [reflexivity|]. cbn [u_warnings].
      by destruct (users (document g) !! str u).
    - unfold stored_total. cbn [users].
      destruct (decide (u = user_id)) as [->|Hne].
      + rewrite lookup_insert_eq. cbn [total_points].
        by destruct (users (document g) !! str user_id).
      + rewrite lookup_insert_ne by (by intros ?%str_inj).
        destruct (users (document g) !! str user_id); lia. }
  split; [|split; [done|split; [|split; [|split; [|split; [|split;
    [done|split; [|split]]]]]]]].
  - rewrite run_stored_total, Hd0. unfold stored_total. simpl.
    by rewrite lookup_empty.
  - rewrite get_user_points_eq. eexists. split; [reflexivity|].
    rewrite Hsum.
    destruct (sum_points_filter (λ w, is_active now w = true)
                (stored_warnings (document (run cs f0).1) user_id))
      as (Hle & Hlt & Heq).
    { intros w Hw. unfold stored_warnings in Hw.
      destruct (users (document (run cs f0).1) !! str user_id) as [user|];
        [|by apply not_elem_of_nil in Hw].
      apply list_elem_of_omap in Hw as (k & _ & Hk). by eapply Hpos. }
    split; [done|]. split; [|done].
    intros (w & Hw & Hina). apply Hlt. exists w. split; [done|]. congruence.
  - intros g u m clips vt t1 t2 t3 p w g' Hi.
    pose proof (exec_stored_total (Issue u m clips vt t1 t2 t3) g user_id) as He.
    cbn [exec] in He. rewrite Hi in He. cbn [fst snd] in He. rewrite He.
    assert (w_user_id w = u) as Hu.
    { rewrite issue_violation_eq in Hi.
      destruct (dict_get VIOLATIONS vt); [|done]. cbn zeta in Hi.
      rewrite add_warning_eq in Hi. cbn zeta in Hi. by injection Hi as _ <- _. }
    rewrite filter_cons, filter_nil, Hu.
    destruct (decide (u = user_id)); simpl; lia.
  - intros g wid m r t1 t2 b g' Hrm.
    pose proof (exec_stored_total (RemoveWarning wid m r t1 t2) g user_id) as He.
    destruct (exec_effect (RemoveWarning wid m r t1 t2) g)
      as [(Hnil & _)|(w & Hone & _)]; cbn [exec] in *; rewrite Hrm in *;
      cbn [fst snd] in *; [|done].
    rewrite He. simpl. lia.
  - intros g u m r t n g' Hrm.
    pose proof (exec_stored_total (RemoveUserWarnings u m r t) g user_id) as He.
    destruct (exec_effect (RemoveUserWarnings u m r t) g)
      as [(Hnil & _)|(w & Hone & _)]; cbn [exec] in *; rewrite Hrm in *;
      cbn [fst snd] in *; [|done].
    rewrite He. simpl. lia.
  - intros g u m clips vt t1 t2 t3 [v Hv]. rewrite issue_violation_eq, Hv.
    cbn zeta.
    destruct (Hadd g u m vt
                (calculate_points vt
                   (Z.of_nat (length
                      (filter (λ w, w_violation_type w = vt)
                         (filter (λ w, is_active t1 w = true)
                            (stored_warnings (document g) u))))))
                clips (description v) t2 t3)
      as (w & g' & -> & Hp & Hu & _ & Hst & _ & Htot).
    exists w, g'. rewrite Hp. split; [done|]. split.
    { rewrite <- Hp.
      pose proof (calculate_points_positive vt v
                    (Z.of_nat (length
                       (filter (λ w, w_violation_type w = vt)
                          (filter (λ w, is_active t1 w = true)
                             (stored_warnings (document g) u))))) Hv) as Hpos5.
      lia. }
    split; [done|]. split; [done|]. exact Htot.
  - intros g wid m r t1 t2. rewrite remove_warning_eq.
    destruct (warnings (document g) !! wid); eexists _, _;
      (split; [reflexivity|]); [by rewrite document_save_data|done].
  - intros g u m r t. rewrite remove_user_warnings_eq.
    destruct (users (document g) !! str u); cbn zeta; eexists _, _;
      (split; [reflexivity|]); [by rewrite document_save_data|done].
Qed.

(** One warning issued and removed again: the counter of the user stays at
    the 10 points of the warning while the user's active points are 0. *)
Lemma total_points_never_decremented_witness :
  load_data Missing = Return initial_data
  ∧ stored_total
      (document (run [Issue 7 1 [] "RDM / VDM" 0 0 0;
                      RemoveWarning "1" 2 "appeal" 5 5] Missing).1) 7
    = 10
  ∧ get_user_points 7 10
      (run [Issue 7 1 [] "RDM / VDM" 0 0 0;
            RemoveWarning "1" 2 "appeal" 5 5] Missing).1
    = Return 0.
Proof.
  split; [reflexivity|].
  destruct (total_points_never_decremented
              [Issue 7 1 [] "RDM / VDM" 0 0 0;
               RemoveWarning "1" 2 "appeal" 5 5] Missing 7 10 eq_refl)
    as (Htotal & _).
  split; [rewrite Htotal; reflexivity|reflexivity].
Defined.

(** ** The points of a new warning *)

(** The count that [issue_violation] does not make: a warning of the same
    type that was removed is stored, and is not counted. *)
Lemma prior_count_skips_removed :
  ¬ (∀ user_id moderator_id clips violation_type now_count now_ts now_exp f
       v points w f',
       dict_get VIOLATIONS violation_type = Some v →
       issue_violation user_id moderator_id clips violation_type
                       now_count now_ts now_exp f = Return (points, w, f') →
       points
       = base_points v
         + repeat_penalty v
           * Z.of_nat (length (filter (λ w0, w_violation_type w0 = violation_type)
                                      (stored_warnings (document f) user_id)))).
Proof.
  intros H.
  pose (f := (run [Issue 7 1 [] "RDM / VDM" 0 0 0;
                   RemoveWarning "1" 2 "appeal" 5 5] Missing).1).
  destruct (issue_violation 7 1 [] "RDM / VDM" 10 10 10 f)
    as [e|[[points w] f']] eqn:Hissue; [by vm_compute in Hissue|].
  specialize (H 7 1 [] "RDM / VDM" 10 10 10 f _ points w f' eq_refl Hissue).
  vm_compute in Hissue. injection Hissue as <- _ _.
  vm_compute in H. discriminate.
Qed.

(** C3, as amended: the points of a new warning are the base points of its
    type plus the repeat penalty times the number of the warnings of that
    type that the user's record names and that are active when the command
    is given (not expired, not removed); removed and expired warnings do
    not count. A type that is not in the catalog raises [KeyError] before
    anything is stored, and [calculate_points] is 0 for it. *)
Theorem issue_violation_counts_active (target_user_id moderator_id : Z)
    (clips : list string) (violation_type : string)
    (now_count now_ts now_exp : Z) (f : File RawData) :
  match dict_get VIOLATIONS violation_type with
  | Some v =>
      ∃ w f',
        issue_violation target_user_id moderator_id clips violation_type
                        now_count now_ts now_exp f = Return (w_points w, w, f')
        ∧ w_points w
          = base_points v
            + repeat_penalty v
              * Z.of_nat (length
                  (filter (λ w0, w_violation_type w0 = violation_type
                                 ∧ now_count < w_expires_at w0
                                 ∧ default false (w_removed w0) = false)
                          (stored_warnings (document f) target_user_id)))
        ∧ w_violation_type w = violation_type
        ∧ w_user_id w = target_user_id
        ∧ warnings (document f') !! w_id w = Some w
  | None =>
      issue_violation target_user_id moderator_id clips violation_type
                      now_count now_ts now_exp f = Raise (KeyError violation_type)
      ∧ ∀ n, calculate_points violation_type n = 0
  end.
Proof.
  rewrite issue_violation_eq. unfold calculate_points.
  destruct (dict_get VIOLATIONS violation_type) as [v|] eqn:Hv; [|done].
  cbn zeta. rewrite add_warning_eq. cbn zeta.
  eexists (mkWarning _ _ _ _ _ _ _ _ _ _ _ _ _), _.
  split; [reflexivity|]. cbn [w_points w_violation_type w_user_id w_id].
  split; [|split; [done|split; [done|]]].
  - do 4 f_equal. rewrite list_filter_filter. apply list_filter_iff.
    intros w. by rewrite is_active_iff.
  - rewrite document_save_data. cbn [warnings]. apply lookup_insert_eq.
Qed.

(** ** The expiry of a new warning *)

Lemma expiry_follows_grade violation_type v now :
  dict_get VIOLATIONS violation_type = Some v →
  violation_type ≠ "DDoS / Dox / Exploiting / Hacking" →
  _calculate_expiry violation_type now
  = now + timedelta_weeks (if grade v =? 1 then 2 else if grade v =? 2 then 4 else 8).
Proof.
  intros Hv Hne. unfold VIOLATIONS in Hv. cbn [dict_get] in Hv.
  repeat match type of Hv with
         | (if String.eqb ?k violation_type then _ else _) = _ =>
             destruct (String.eqb_spec k violation_type) as [<-|_];
             [injection Hv as <-; try reflexivity; by destruct Hne|]
         end.
  discriminate.
Qed.

(** C1: a warning for ["DDoS / Dox / Exploiting / Hacking"], of grade 3 in
    the catalog, gets the expiry of grade 1, two weeks after the clock
    reading: the type is missing from [grade_map]. *)
Theorem expiry_of_ddos_is_two_weeks (target_user_id moderator_id : Z)
    (clips : list string) (now_count now_ts now_exp : Z) (f : File RawData) :
  grade <$> dict_get VIOLATIONS "DDoS / Dox / Exploiting / Hacking" = Some 3
  ∧ ∃ w f',
      issue_violation target_user_id moderator_id clips
                      "DDoS / Dox / Exploiting / Hacking"
                      now_count now_ts now_exp f = Return (w_points w, w, f')
      ∧ w_timestamp w = now_ts
      ∧ w_expires_at w = now_exp + timedelta_weeks 2
      ∧ w_expires_at w ≠ now_exp + timedelta_weeks 8.
Proof.
  split; [reflexivity|].
  rewrite issue_violation_eq.
  assert (dict_get VIOLATIONS "DDoS / Dox / Exploiting / Hacking"
          = Some (mkViolation 100 0 "DDoS attacks, doxxing, exploiting, or hacking." 3))
    as -> by reflexivity.
  cbn zeta. rewrite add_warning_eq. cbn zeta.
  eexists (mkWarning _ _ _ _ _ _ _ _ _ _ _ _ _), _.
  split; [reflexivity|]. cbn [w_timestamp w_expires_at].
  split; [done|]. split; [reflexivity|].
  change (_calculate_expiry "DDoS / Dox / Exploiting / Hacking" now_exp)
    with (now_exp + timedelta_weeks 2).
  unfold timedelta_weeks, timedelta_days. lia.
Qed.

(** ** Two scenarios, run *)

(** A first "RDM / VDM" gives 10 points and a written warning, a second one
    15 more and a 12-hour ban; with the second removed the user is back to
    10 points, while the stored counter stays at 25. *)
Example scenario_two_rdm :
  let f1 := (run [Issue 7 1 [] "RDM / VDM" 0 0 0] Missing).1 in
  let f2 := (run [Issue 7 1 [] "RDM / VDM" 1 1 1] f1).1 in
  let f3 := (run [RemoveWarning "2" 2 "appeal" 5 5] f2).1 in
  get_user_points 7 2 f1 = Return 10
  ∧ get_punishment_action 10 = "Written Warning"
  ∧ get_user_points 7 2 f2 = Return 25
  ∧ get_punishment_action 25 = "12-Hour Ban"
  ∧ get_user_points 7 6 f3 = Return 10
  ∧ stored_total (document f3) 7 = 25.
Proof. vm_compute. by repeat split. Qed.

(** With three active warnings and one removed, [remove_user_warnings]
    returns 3, and 0 when called again. *)
Example scenario_remove_all :
  let f := (run [Issue 7 1 [] "RDM / VDM" 0 0 0;
                 Issue 7 1 [] "NLR" 1 1 1;
                 Issue 7 1 [] "Metagaming" 2 2 2;
                 Issue 7 1 [] "Cop Baiting" 3 3 3;
                 RemoveWarning "2" 2 "appeal" 5 5] Missing).1 in
  ∃ f', remove_user_warnings 7 2 "amnesty" 6 f = Return (3, f')
        ∧ remove_user_warnings 7 2 "amnesty" 6 f' = Return (0, f').
Proof. eexists. split; vm_compute; reflexivity. Qed.

End DatabaseFacts.

(** ** The license ledger *)

Section LicenseFacts.
Import Py LicenseManager LicenseLedger.

Lemma license_load_data_document f : load_data f = Return (document f).
Proof. by destruct f. Qed.

Lemma license_document_save_data d : document (save_data d) = d.
Proof. reflexivity. Qed.

Lemma add_license_eq user_id license_key moderator_id note now_added now_hist f :
  add_license user_id license_key moderator_id note now_added now_hist f
  = let data := document f in
    if match license_users data !! license_key with
       | Some existing => negb (l_user_id existing =? user_id)
       | None => false
       end
    then Return (false, f)
    else
      let info := mkLicenseInfo license_key user_id moderator_id now_added note in
      Return (true,
              save_data
                {| user_licenses := <[str user_id := info]> (user_licenses data);
                   license_users :=
                     <[license_key := info]>
                       match user_licenses data !! str user_id with
                       | Some old => delete (l_license old) (license_users data)
                       | None => license_users data
                       end;
                   license_history :=
                     license_history data
                     ++ [mkHistoryEntry add user_id license_key moderator_id
                                        now_hist (Some note) None] |}).
Proof.
  unfold add_license. rewrite license_load_data_document.
  cbn [mbind Exc_bind mret Exc_ret]. cbn zeta.
  by destruct (match license_users (document f) !! license_key with
               | Some existing => negb (l_user_id existing =? user_id)
               | None => false
               end).
Qed.

Lemma remove_license_eq user_id moderator_id reason now f :
  remove_license user_id moderator_id reason now f
  = let data := document f in
    match user_licenses data !! str user_id with
    | None => Return (false, f)
    | Some info =>
        Return (true,
                save_data
                  {| user_licenses := delete (str user_id) (user_licenses data);
                     license_users := delete (l_license info) (license_users data);
                     license_history :=
                       license_history data
                       ++ [mkHistoryEntry remove user_id (l_license info)
                                          moderator_id now None (Some reason)] |})
    end.
Proof.
  unfold remove_license. rewrite license_load_data_document.
  cbn [mbind Exc_bind mret Exc_ret]. cbn zeta.
  by destruct (user_licenses (document f) !! str user_id).
Qed.

Lemma one_to_one_initial : one_to_one initial_data.
Proof.
  split; intros k info Hk; simpl in Hk; by rewrite lookup_empty in Hk.
Qed.

Lemma add_license_one_to_one user_id license_key moderator_id note
    now_added now_hist f :
  one_to_one (document f) →
  one_to_one (document (exec (AddLicense user_id license_key moderator_id note
                                         now_added now_hist) f)).
Proof.
  intros [Hul Hlu]. cbn [exec]. rewrite add_license_eq. cbn zeta.
  destruct (license_users (document f) !! license_key) as [existing|] eqn:Hex.
  - destruct (Z.eqb_spec (l_user_id existing) user_id) as [Heq|Hne];
      cbn [negb]; [|by split].
    rewrite license_document_save_data.
    destruct (Hlu _ _ Hex) as [Hkey Hback]. rewrite Heq in Hback.
    rewrite Hback. split; cbn [user_licenses license_users].
    + intros j info. rewrite lookup_insert_Some. intros [[<- <-]|[Hj Hinfo]].
      * split; [done|]. apply lookup_insert_eq.
      * destruct (Hul _ _ Hinfo) as [-> Hl]. split; [done|].
        assert (l_license info ≠ l_license existing) as Hd.
        { intros Hd. rewrite Hd, <- Hkey, Hex in Hl. injection Hl as ->.
          by rewrite Heq in Hj. }
        rewrite lookup_insert_ne by congruence.
        by rewrite lookup_delete_ne.
    + intros j info. rewrite lookup_insert_Some. intros [[<- <-]|[Hj Hinfo]].
      * split; [done|]. apply lookup_insert_eq.
      * apply lookup_delete_Some in Hinfo as [Hj' Hinfo].
        destruct (Hlu _ _ Hinfo) as [-> Hu]. split; [done|].
        rewrite lookup_insert_ne; [done|]. intros Hd. rewrite <- Hd, Hback in Hu.
        injection Hu as ->. congruence.
  - rewrite license_document_save_data.
    destruct (user_licenses (document f) !! str user_id) as [old|] eqn:Hold;
      split; cbn [user_licenses license_users].
    + destruct (Hul _ _ Hold) as [Hstr Hl].
      intros j info. rewrite lookup_insert_Some. intros [[<- <-]|[Hj Hinfo]].
      * split; [done|]. apply lookup_insert_eq.
      * destruct (Hul _ _ Hinfo) as [-> Hl']. split; [done|].
        rewrite lookup_insert_ne by congruence.
        rewrite lookup_delete_ne; [done|]. intros Hd. rewrite Hd, Hl' in Hl.
        injection Hl as ->. congruence.
    + destruct (Hul _ _ Hold) as [Hstr Hl].
      intros j info. rewrite lookup_insert_Some. intros [[<- <-]|[Hj Hinfo]].
      * split; [done|]. apply lookup_insert_eq.
      * apply lookup_delete_Some in Hinfo as [Hj' Hinfo].
        destruct (Hlu _ _ Hinfo) as [-> Hu]. split; [done|].
        rewrite lookup_insert_ne; [done|]. intros Hd. rewrite <- Hd, Hold in Hu.
        injection Hu as ->. congruence.
    + intros j info. rewrite lookup_insert_Some. intros [[<- <-]|[Hj Hinfo]].
      * split; [done|]. apply lookup_insert_eq.
      * destruct (Hul _ _ Hinfo) as [-> Hl']. split; [done|].
        rewrite lookup_insert_ne; [done|]. congruence.
    + intros j info. rewrite lookup_insert_Some. intros [[<- <-]|[Hj Hinfo]].
      * split; [done|]. apply lookup_insert_eq.
      * destruct (Hlu _ _ Hinfo) as [-> Hu]. split; [done|].
        rewrite lookup_insert_ne; [done|]. congruence.
Qed.

Lemma remove_license_one_to_one user_id moderator_id reason now f :
  one_to_one (document f) →
  one_to_one (document (exec (RemoveLicense user_id moderator_id reason now) f)).
Proof.
  intros [Hul Hlu]. cbn [exec]. rewrite remove_license_eq. cbn zeta.
  destruct (user_licenses (document f) !! str user_id) as [info0|] eqn:H0;
    [|by split].
  rewrite license_document_save_data. destruct (Hul _ _ H0) as [Hstr Hl0].
  split; cbn [user_licenses license_users].
  - intros j info. rewrite lookup_delete_Some. intros [Hj Hinfo].
    destruct (Hul _ _ Hinfo) as [-> Hl]. split; [done|].
    rewrite lookup_delete_ne; [done|]. intros Hd. rewrite Hd, Hl in Hl0.
    injection Hl0 as ->. congruence.
  - intros j info. rewrite lookup_delete_Some. intros [Hj Hinfo].
    destruct (Hlu _ _ Hinfo) as [-> Hu]. split; [done|].
    rewrite lookup_delete_ne; [done|]. intros Hd. rewrite <- Hd, H0 in Hu.
    injection Hu as ->. congruence.
Qed.

Lemma run_one_to_one cs f :
  one_to_one (document f) → one_to_one (document (run cs f)).
Proof.
  revert f. induction cs as [|c cs IH]; intros f Hf; [done|].
  cbn [run foldl]. apply IH.
  destruct c; [by apply add_license_one_to_one|by apply remove_license_one_to_one].
Qed.

(** C2: in every document reached from the empty license ledger by
    [add_license] and [remove_license] the two indexes agree, so no two
    users hold the same license and no user holds two. [add_license] for a
    license that another user holds returns [False] and leaves the file as
    it was; [add_license] by a user who holds a license, for a license that
    no other user holds, returns [True], frees the old license and stores
    the new one under both indexes. *)
Theorem license_mapping_one_to_one (cs : list Cmd) (f0 : File Data) :
  load_data f0 = Return initial_data →
  one_to_one (document (run cs f0))
  ∧ (∀ u1 u2 info1 info2,
       user_licenses (document (run cs f0)) !! str u1 = Some info1 →
       user_licenses (document (run cs f0)) !! str u2 = Some info2 →
       l_license info1 = l_license info2 → u1 = u2)
  ∧ (∀ k1 k2 info1 info2,
       license_users (document (run cs f0)) !! k1 = Some info1 →
       license_users (document (run cs f0)) !! k2 = Some info2 →
       l_user_id info1 = l_user_id info2 → k1 = k2)
  ∧ (∀ g u1 u2 k moderator_id note now_added now_hist info,
       license_users (document g) !! k = Some info →
       l_user_id info = u1 → u2 ≠ u1 →
       add_license u2 k moderator_id note now_added now_hist g = Return (false, g))
  ∧ (∀ g u1 k k2 moderator_id note now_added now_hist info,
       user_licenses (document g) !! str u1 = Some info →
       l_license info = k → k2 ≠ k →
       (∀ other, license_users (document g) !! k2 = Some other →
                 l_user_id other = u1) →
       ∃ g' new,
         add_license u1 k2 moderator_id note now_added now_hist g = Return (true, g')
         ∧ license_users (document g') !! k = None
         ∧ license_users (document g') !! k2 = Some new
         ∧ user_licenses (document g') !! str u1 = Some new
         ∧ l_user_id new = u1
         ∧ l_license new = k2).
Proof.
  intros Hfresh.
  assert (one_to_one (document (run cs f0))) as Hinv.
  { apply run_one_to_one. unfold document. rewrite Hfresh.
    apply one_to_one_initial. }
  split; [done|]. destruct Hinv as [Hul Hlu].
  split; [|split; [|split]].
  - intros u1 u2 info1 info2 H1 H2 Hk.
    destruct (Hul _ _ H1) as [Hs1 Hl1]. destruct (Hul _ _ H2) as [Hs2 Hl2].
    rewrite Hk, Hl2 in Hl1. injection Hl1 as ->.
    apply str_inj. congruence.
  - intros k1 k2 info1 info2 H1 H2 Hu.
    destruct (Hlu _ _ H1) as [-> Hu1]. destruct (Hlu _ _ H2) as [-> Hu2].
    rewrite Hu, Hu2 in Hu1. by injection Hu1 as ->.
  - intros g u1 u2 k m note t1 t2 info Hk Hu Hne.
    rewrite add_license_eq. cbn zeta. rewrite Hk.
    destruct (Z.eqb_spec (l_user_id info) u2); [congruence|done].
  - intros g u1 k k2 m note t1 t2 info Hu Hk Hne Hfree.
    rewrite add_license_eq. cbn zeta.
    assert (match license_users (document g) !! k2 with
            | Some existing => negb (l_user_id existing =? u1)
            | None => false
            end = false) as ->.
    { destruct (license_users (document g) !! k2) as [other|]; [|done].
      rewrite (Hfree other eq_refl). by rewrite Z.eqb_refl. }
    rewrite Hu, Hk.
    eexists _, _. split; [reflexivity|]. rewrite license_document_save_data.
    cbn [license_users user_licenses].
    split; [|split; [apply lookup_insert_eq|split; [apply lookup_insert_eq|done]]].
    rewrite lookup_insert_ne by done. apply lookup_delete_eq.
Qed.

Lemma license_mapping_one_to_one_witness :
  load_data Missing = Return initial_data
  ∧ one_to_one (document (run [AddLicense 1 "aa" 9 "" 0 0;
                               AddLicense 2 "aa" 9 "" 1 1;
                               AddLicense 1 "bb" 9 "" 2 2;
                               RemoveLicense 2 9 "" 3] Missing)).
Proof.
  split; [reflexivity|].
  exact (proj1 (license_mapping_one_to_one
                  [AddLicense 1 "aa" 9 "" 0 0;
                   AddLicense 2 "aa" 9 "" 1 1;
                   AddLicense 1 "bb" 9 "" 2 2;
                   RemoveLicense 2 9 "" 3] Missing eq_refl)).
Defined.

End LicenseFacts.

(** ** Reading a file that is missing or damaged *)

Section ReadFailure.
Import Py.

(** C9: when the file of a ledger is missing or is not JSON, [load_data]
    catches the exception and returns the empty document, so every reading
    function returns what it returns on the empty ledger, and returns it as
    a value: no points, no warnings, no license, no search result, no
    history. *)
Theorem read_failure_reads_as_empty :
  (∀ (f : File Database.RawData) (e : Exn),
     read_json f = Raise e →
     Database.load_data f = Return Database.initial_data
     ∧ ∀ user_id now limit,
         (Database.get_user_points user_id now f = Return 0
          ∧ Database.get_user_points user_id now f
            = Database.get_user_points user_id now
                (Database.save_data Database.initial_data))
         ∧ (Database.get_user_warnings user_id now f = Return []
            ∧ Database.get_user_warnings user_id now f
              = Database.get_user_warnings user_id now
                  (Database.save_data Database.initial_data))
         ∧ (Database.find_warnings_by_user user_id limit f = Return []
            ∧ Database.find_warnings_by_user user_id limit f
              = Database.find_warnings_by_user user_id limit
                  (Database.save_data Database.initial_data)))
  ∧ (∀ (f : File LicenseManager.Data) (e : Exn),
       read_json f = Raise e →
       LicenseManager.load_data f = Return LicenseManager.initial_data
       ∧ ∀ user_id license_key query user_filter license_filter limit,
           (LicenseManager.get_user_license user_id f = Return None
            ∧ LicenseManager.get_user_license user_id f
              = LicenseManager.get_user_license user_id
                  (LicenseManager.save_data LicenseManager.initial_data))
           ∧ (LicenseManager.get_license_user license_key f = Return None
              ∧ LicenseManager.get_license_user license_key f
                = LicenseManager.get_license_user license_key
                    (LicenseManager.save_data LicenseManager.initial_data))
           ∧ (LicenseManager.search_licenses query f = Return []
              ∧ LicenseManager.search_licenses query f
                = LicenseManager.search_licenses query
                    (LicenseManager.save_data LicenseManager.initial_data))
           ∧ (LicenseManager.get_license_history user_filter license_filter limit f
              = Return []
              ∧ LicenseManager.get_license_history user_filter license_filter limit f
                = LicenseManager.get_license_history user_filter license_filter limit
                    (LicenseManager.save_data LicenseManager.initial_data))).
Proof.
  assert (∀ limit, slice_to (@nil LicenseManager.HistoryEntry) limit = []) as Hslice.
  { intros limit. unfold slice_to. by destruct (0 <=? limit); rewrite take_nil. }
  assert (∀ limit, slice_to (@nil Database.Warning) limit = []) as Hslice'.
  { intros limit. unfold slice_to. by destruct (0 <=? limit); rewrite take_nil. }
  split.
  - intros f e Hf. destruct f as [| |doc]; [| |discriminate]; (split; [done|]);
      intros user_id now limit;
      unfold Database.find_warnings_by_user; simpl; rewrite ?lookup_empty;
      simpl; by rewrite ?Hslice'.
  - intros f e Hf. destruct f as [| |doc]; [| |discriminate]; (split; [done|]);
      intros user_id license_key query user_filter license_filter limit;
      unfold LicenseManager.get_license_history; simpl; rewrite ?lookup_empty;
      (repeat split; try done);
      destruct user_filter, license_filter; simpl; by rewrite ?Hslice.
Qed.

Lemma read_failure_reads_as_empty_witness :
  read_json (@Garbled Database.RawData) = Raise JSONDecodeError
  ∧ Database.get_user_points 7 0 Garbled = Return 0.
Proof.
  split; [reflexivity|].
  exact (proj1 (proj1 (proj2 (proj1 read_failure_reads_as_empty
                                Garbled JSONDecodeError eq_refl) 7 0 0))).
Defined.

End ReadFailure.

(** * Further properties of the warning ledger *)

Section MoreDatabaseFacts.
Import Py Violations Database Bot Ledger.

Lemma sum_points_Permutation l1 l2 : l1 ≡ₚ l2 → sum_points l1 = sum_points l2.
Proof.
  induction 1 as [|x l1 l2 _ IH|x y l|l1 l2 l3 _ IH1 _ IH2]; simpl; lia.
Qed.

Lemma filter_insert_desc_key {A} (key : A → Z) (t : Z) x l :
  filter (λ a, key a = t) (insert_desc key x l)
  = filter (λ a, key a = t) (x :: l).
Proof.
  induction l as [|y l IH]; [done|]. simpl.
  destruct (Z.leb_spec (key y) (key x)) as [Hle|Hgt]; [done|].
  rewrite (filter_cons _ y), IH, !(filter_cons _ x), (filter_cons _ y).
  destruct (decide (key x = t)), (decide (key y = t)); try done. lia.
Qed.

(** Python's sort is stable: the warnings of one timestamp keep the order
    they had. *)
Lemma sorted_reverse_stable {A} (key : A → Z) (t : Z) l :
  filter (λ a, key a = t) (sorted_reverse key l) = filter (λ a, key a = t) l.
Proof.
  induction l as [|x l IH]; [done|].
  change (sorted_reverse key (x :: l)) with (insert_desc key x (sorted_reverse key l)).
  by rewrite filter_insert_desc_key, !filter_cons, IH.
Qed.

(** [get_user_warnings] returns the warnings the user's record names that
    are not expired and not removed, each as often as the record names it,
    newest first, warnings of one timestamp in the order of the record; the
    points [get_user_points] reports at the same instant are the sum of
    their points. *)
Theorem get_user_warnings_active_newest_first (user_id now : Z) (f : File RawData) :
  ∃ active,
    get_user_warnings user_id now f = Return active
    ∧ active ≡ₚ filter (λ w, now < w_expires_at w ∧ default false (w_removed w) = false)
                       (stored_warnings (document f) user_id)
    ∧ StronglySorted (λ a b, w_timestamp b <= w_timestamp a) active
    ∧ (∀ t, filter (λ w, w_timestamp w = t) active
            = filter (λ w, w_timestamp w = t)
                (filter (λ w, now < w_expires_at w
                              ∧ default false (w_removed w) = false)
                        (stored_warnings (document f) user_id)))
    ∧ get_user_points user_id now f = Return (sum_points active)
    ∧ (users (document f) !! str user_id = None → active = []).
Proof.
  rewrite get_user_warnings_eq, get_user_points_eq.
  assert (filter (λ w, is_active now w = true) (stored_warnings (document f) user_id)
          = filter (λ w, now < w_expires_at w ∧ default false (w_removed w) = false)
                   (stored_warnings (document f) user_id)) as Hf.
  { apply list_filter_iff. intros w. apply is_active_iff. }
  rewrite Hf. eexists. split; [reflexivity|].
  split; [apply sorted_reverse_Permutation|].
  split; [apply sorted_reverse_descending|].
  split; [intros t; apply sorted_reverse_stable|].
  split.
  - f_equal. symmetry. apply sum_points_Permutation, sorted_reverse_Permutation.
  - intros Hu. unfold stored_warnings. by rewrite Hu.
Qed.

Lemma prefix_take {A} (l : list A) n : take n l `prefix_of` l.
Proof. exists (drop n l). by rewrite take_drop. Qed.

Lemma StronglySorted_take {A} (R : A → A → Prop) (l : list A) n :
  StronglySorted R l → StronglySorted R (take n l).
Proof.
  intros Hl. revert n. induction Hl as [|x l Hl IH Hx]; intros [|n]; simpl;
    try constructor; [apply IH|].
  apply Forall_forall. intros y Hy.
  apply (proj1 (Forall_forall _ _) Hx).
  apply elem_of_take in Hy as (i & Hi & _). by eapply list_elem_of_lookup_2.
Qed.

(** [find_warnings_by_user] returns the head of the list of all warnings the
    user's record names, removed and expired ones included, sorted newest
    first: its first [limit] when [limit] is not negative, all but its last
    [-limit] when it is. *)
Theorem find_warnings_by_user_newest_first (user_id limit : Z) (f : File RawData) :
  ∃ found,
    find_warnings_by_user user_id limit f = Return found
    ∧ found `prefix_of` sorted_reverse w_timestamp (stored_warnings (document f) user_id)
    ∧ StronglySorted (λ a b, w_timestamp b <= w_timestamp a) found
    ∧ (∀ w, w ∈ found → w ∈ stored_warnings (document f) user_id)
    ∧ Z.of_nat (length found)
      = (if 0 <=? limit
         then Z.min limit (Z.of_nat (length (stored_warnings (document f) user_id)))
         else Z.max 0 (Z.of_nat (length (stored_warnings (document f) user_id)) + limit)).
Proof.
  rewrite find_warnings_by_user_eq. eexists. split; [reflexivity|].
  assert (length (sorted_reverse w_timestamp (stored_warnings (document f) user_id))
          = length (stored_warnings (document f) user_id)) as Hlen.
  { by rewrite sorted_reverse_Permutation. }
  unfold slice_to. rewrite Hlen.
  split; [destruct (0 <=? limit); apply prefix_take|].
  split.
  { destruct (0 <=? limit); apply StronglySorted_take, sorted_reverse_descending. }
  split.
  { intros w Hw. rewrite <- (sorted_reverse_Permutation w_timestamp).
    destruct (0 <=? limit); apply elem_of_take in Hw as (i & Hi & _);
      by eapply list_elem_of_lookup_2. }
  destruct (Z.leb_spec 0 limit); rewrite length_take, Hlen; lia.
Qed.

Lemma exec_keeps_warning c f id w :
  warnings (document f) !! id = Some w →
  ∃ w', warnings (document (exec c f).1) !! id = Some w'
        ∧ (w_id w', w_user_id w', w_moderator_id w', w_violation_type w')
          = (w_id w, w_user_id w, w_moderator_id w, w_violation_type w)
        ∧ (w_points w', w_clips w', w_reason w', w_timestamp w')
          = (w_points w, w_clips w, w_reason w, w_timestamp w)
        ∧ (w_removed w = Some true → w_removed w' = Some true).
Proof.
  intros Hw.
  destruct (exec_effect c f) as [(_ & _ & Hws)|(w1 & _ & Hid & _ & Hws & _)].
  - destruct (Hws id) as [Heq|(w0 & m & r & t1 & t2 & Hw0 & Heq)]; rewrite Heq.
    + by exists w.
    + rewrite Hw in Hw0. injection Hw0 as <-. by eexists.
  - rewrite Hws. exists w. split; [|done].
    rewrite lookup_insert_ne; [done|]. intros Heq.
    pose proof (next_id_fresh (warnings (document f))) as Hfresh.
    rewrite <- Hid, Heq in Hfresh. congruence.
Qed.

Lemma exec_keeps_record c f k user :
  users (document f) !! k = Some user →
  ∃ user', users (document (exec c f).1) !! k = Some user'
           ∧ u_warnings user `prefix_of` u_warnings user'
           ∧ total_points user <= total_points user'.
Proof.
  intros Hu.
  destruct (exec_effect c f) as [(_ & -> & _)|(w1 & _ & _ & Hpts & _ & ->)].
  - by exists user.
  - destruct (decide (str (w_user_id w1) = k)) as [<-|Hk].
    + rewrite lookup_insert_eq, Hu. eexists. split; [done|]. simpl.
      split; [by eexists|lia].
    + rewrite lookup_insert_ne by done. by exists user.
Qed.

(** No command deletes a stored warning or changes its id, user,
    moderator, type, points, clips, reason or timestamp, and a warning that
    is removed stays removed; no command deletes the record of a user, takes
    an id out of it or lowers its counter. *)
Theorem run_never_deletes (cs : list Cmd) (f : File RawData) :
  (∀ id w, warnings (document f) !! id = Some w →
     ∃ w', warnings (document (run cs f).1) !! id = Some w'
           ∧ (w_id w', w_user_id w', w_moderator_id w', w_violation_type w')
             = (w_id w, w_user_id w, w_moderator_id w, w_violation_type w)
           ∧ (w_points w', w_clips w', w_reason w', w_timestamp w')
             = (w_points w, w_clips w, w_reason w, w_timestamp w)
           ∧ (w_removed w = Some true → w_removed w' = Some true))
  ∧ (∀ k user, users (document f) !! k = Some user →
       ∃ user', users (document (run cs f).1) !! k = Some user'
                ∧ u_warnings user `prefix_of` u_warnings user'
                ∧ total_points user <= total_points user').
Proof.
  revert f. induction cs as [|c cs IH]; intros f.
  - split; [intros id w Hw; by exists w|intros k user Hu; by exists user].
  - cbn [run]. pose proof (exec_keeps_warning c f) as Hw1.
    pose proof (exec_keeps_record c f) as Hu1.
    destruct (exec c f) as [f1 issued1]. destruct (IH f1) as [Hw2 Hu2].
    destruct (run cs f1) as [f2 issued2]. cbn [fst snd] in *. split.
    + intros id w Hw. destruct (Hw1 id w Hw) as (w1 & Hl1 & Ha1 & Hb1 & Hr1).
      destruct (Hw2 id w1 Hl1) as (w2 & Hl2 & Ha2 & Hb2 & Hr2).
      exists w2. split; [done|]. split; [congruence|]. split; [congruence|].
      intros Hr. by apply Hr2, Hr1.
    + intros k user Hu. destruct (Hu1 k user Hu) as (u1 & Hl1 & Hp1 & Ht1).
      destruct (Hu2 k u1 Hl1) as (u2 & Hl2 & Hp2 & Ht2).
      exists u2. split; [done|]. split; [by etrans|lia].
Qed.

Lemma remove_loop_leaves_inactive moderator_id reason now now2
    (l : list string) (ws : gmap string Warning) (c : Z) k :
  now <= now2 → k ∈ l →
  active_at (foldl (remove_step moderator_id reason now) (ws, c) l).1 now2 k = false.
Proof.
  intros Hle Hk. destruct (remove_loop moderator_id reason now l ws c) as [_ Hm].
  unfold active_at. rewrite Hm.
  destruct (decide (k ∈ l ∧ active_at ws now k = true)) as [[_ Hact]|Hn].
  - unfold active_at in Hact. destruct (ws !! k) as [w|]; [|done].
    apply mark_removed_inactive.
  - destruct (ws !! k) as [w|] eqn:Hw; [|done].
    apply (is_active_later now); [done|].
    destruct (is_active now w) eqn:Hact; [|done].
    destruct Hn. split; [done|]. unfold active_at. by rewrite Hw.
Qed.

(** After [remove_user_warnings] the user has no active warning and no
    points, at the reading of the clock the removal made and at any later
    one. *)
Theorem remove_user_warnings_clears_points (user_id moderator_id : Z)
    (reason : string) (now : Z) (f : File RawData) :
  ∃ n f',
    remove_user_warnings user_id moderator_id reason now f = Return (n, f')
    ∧ ∀ now2, now <= now2 →
        get_user_points user_id now2 f' = Return 0
        ∧ get_user_warnings user_id now2 f' = Return [].
Proof.
  rewrite remove_user_warnings_eq.
  destruct (users (document f) !! str user_id) as [user|] eqn:Hu.
  - cbn zeta. eexists _, _. split; [reflexivity|]. intros now2 Hle.
    rewrite get_user_points_eq, get_user_warnings_eq.
    unfold stored_warnings. rewrite document_save_data. cbn [users warnings].
    rewrite Hu.
    assert (filter (λ w, is_active now2 w = true)
              (omap (λ k, (foldl (remove_step moderator_id reason now)
                                 (warnings (document f), 0) (u_warnings user)).1 !! k)
                    (u_warnings user)) = []) as ->; [|done].
    apply length_zero_iff_nil. rewrite <- filter_active_stored.
    apply length_zero_iff_nil.
    destruct (filter _ _) as [|k l] eqn:Hf; [done|].
    assert (k ∈ filter (λ k, active_at (foldl (remove_step moderator_id reason now)
                                 (warnings (document f), 0) (u_warnings user)).1
                                 now2 k = true) (u_warnings user)) as Hk.
    { rewrite Hf. apply elem_of_cons. by left. }
    apply list_elem_of_filter in Hk as [Hact Hk].
    by rewrite remove_loop_leaves_inactive in Hact.
  - eexists _, _. split; [reflexivity|]. intros now2 Hle.
    rewrite get_user_points_eq, get_user_warnings_eq.
    unfold stored_warnings. by rewrite Hu.
Qed.

(** When every id a record names is stored, a new warning adds its points
    to the points of its user for as long as the clock reads less than its
    expiry and nothing after that, and leaves the points of every other
    user as they are; for a type of [grade_map] the expiry is 2, 4 or 8
    weeks after the clock reading, by the grade. *)
Theorem issue_adds_points_until_expiry (target_user_id moderator_id : Z)
    (clips : list string) (violation_type : string) (v : Violation)
    (now_count now_ts now_exp : Z) (f : File RawData) :
  dict_get VIOLATIONS violation_type = Some v →
  (∀ k user id, users (document f) !! k = Some user → id ∈ u_warnings user →
                is_Some (warnings (document f) !! id)) →
  ∃ w f',
    issue_violation target_user_id moderator_id clips violation_type
                    now_count now_ts now_exp f = Return (w_points w, w, f')
    ∧ (∀ now, ∃ before,
         get_user_points target_user_id now f = Return before
         ∧ get_user_points target_user_id now f'
           = Return (before + (if now <? w_expires_at w then w_points w else 0)))
    ∧ (∀ other now, other ≠ target_user_id →
         get_user_points other now f' = get_user_points other now f)
    ∧ (violation_type ≠ "DDoS / Dox / Exploiting / Hacking" →
       w_expires_at w
       = now_exp + timedelta_weeks (if grade v =? 1 then 2
                                    else if grade v =? 2 then 4 else 8)).
Proof.
  intros Hv Hstored. rewrite issue_violation_eq, Hv. cbn zeta.
  rewrite add_warning_eq. cbn zeta.
  eexists (mkWarning _ _ _ _ _ _ _ _ _ _ _ _ _), _.
  split; [reflexivity|]. cbn [w_points w_expires_at].
  pose proof (next_id_fresh (warnings (document f))) as Hfresh.
  split; [|split].
  - intros now. rewrite !get_user_points_eq. eexists. split; [reflexivity|].
    f_equal. unfold stored_warnings. rewrite document_save_data.
    cbn [users warnings]. rewrite lookup_insert_eq. cbn [u_warnings].
    rewrite omap_app, filter_app, sum_points_app. cbn [omap list_omap].
    rewrite lookup_insert_eq.
    destruct (users (document f) !! str target_user_id) as [old|] eqn:Hold;
      cbn [default u_warnings].
    + rewrite omap_insert_fresh; [|intros k Hk; by eapply Hstored|done].
      f_equal. unfold is_active.
      destruct (now <? _calculate_expiry violation_type now_exp) eqn:Hlt.
      * rewrite filter_cons_True by (simpl; by rewrite Hlt). simpl. lia.
      * rewrite filter_cons_False by (simpl; by rewrite Hlt). done.
    + simpl. unfold is_active.
      destruct (now <? _calculate_expiry violation_type now_exp) eqn:Hlt.
      * rewrite filter_cons_True by (simpl; by rewrite Hlt). simpl. lia.
      * rewrite filter_cons_False by (simpl; by rewrite Hlt). done.
  - intros other now Hne. rewrite !get_user_points_eq. do 2 f_equal.
    unfold stored_warnings. rewrite document_save_data. cbn [users warnings].
    rewrite lookup_insert_ne by (by intros ?%str_inj).
    destruct (users (document f) !! str other) as [user|] eqn:Hu; [|done].
    f_equal. apply omap_insert_fresh; [|done]. intros k Hk. by eapply Hstored.
  - intros Hne. by apply expiry_follows_grade.
Qed.

Lemma issue_adds_points_until_expiry_witness :
  dict_get VIOLATIONS "NLR"
  = Some (mkViolation 10 5 "Returning to the scene after death." 1)
  ∧ ∃ w f',
      issue_violation 7 1 [] "NLR" 0 0 0 Missing = Return (w_points w, w, f')
      ∧ w_expires_at w = 0 + timedelta_weeks 2.
Proof.
  split; [reflexivity|].
  destruct (issue_adds_points_until_expiry 7 1 [] "NLR"
              (mkViolation 10 5 "Returning to the scene after death." 1)
              0 0 0 Missing eq_refl) as (w & f' & Hi & _ & _ & He).
  { intros k user id Hk. simpl in Hk. by rewrite lookup_empty in Hk. }
  exists w, f'. split; [done|]. by apply He.
Defined.

(** ** Ban requests *)

(** [add_ban_request] stores a pending request under the message id and
    touches no user, no warning and no other request; [complete_ban_request]
    with that message id then returns it marked completed, with the
    moderator and the time, and with the user, points, action, message id
    and creation time it was stored with. *)
Theorem ban_request_round_trip (user_id total : Z) (action : string)
    (message_id now : Z) (moderator_id now2 : Z) (f : File RawData) :
  ∃ b f1,
    add_ban_request user_id total action message_id now f = Return (b, f1)
    ∧ b = mkBanRequest user_id total action message_id now pending None None
    ∧ bans (document f1) !! str message_id = Some b
    ∧ (∀ other, other ≠ message_id →
         bans (document f1) !! str other = bans (document f) !! str other)
    ∧ users (document f1) = users (document f)
    ∧ warnings (document f1) = warnings (document f)
    ∧ ∃ b' f2,
        complete_ban_request message_id moderator_id now2 f1 = Return (Some b', f2)
        ∧ b' = mkBanRequest user_id total action message_id now completed
                            (Some moderator_id) (Some now2)
        ∧ bans (document f2) !! str message_id = Some b'
        ∧ users (document f2) = users (document f)
        ∧ warnings (document f2) = warnings (document f).
Proof.
  unfold add_ban_request. rewrite load_data_document.
  cbn [mbind Exc_bind mret Exc_ret]. eexists _, _. split; [reflexivity|].
  split; [done|]. rewrite document_save_data. cbn [users warnings bans].
  split; [apply lookup_insert_eq|]. split.
  { intros other Hne. rewrite lookup_insert_ne; [done|]. by intros ?%str_inj. }
  split; [done|]. split; [done|].
  unfold complete_ban_request. rewrite load_data_document, document_save_data.
  cbn [mbind Exc_bind mret Exc_ret bans]. rewrite lookup_insert_eq.
  eexists _, _. split; [reflexivity|]. split; [done|].
  rewrite document_save_data. cbn [users warnings bans].
  split; [apply lookup_insert_eq|done].
Qed.

(** [complete_ban_request] returns [None] exactly when no request is stored
    under the message id, and then leaves the file as it was. A request that
    is already completed is completed again, with the new moderator and
    time; [add_ban_request] under a message id that is in use replaces the
    request, so a completed one is pending again. *)
Theorem complete_ban_request_unknown_or_restamps (message_id moderator_id now : Z)
    (f : File RawData) :
  ∃ r f',
    complete_ban_request message_id moderator_id now f = Return (r, f')
    ∧ (r = None ↔ bans (document f) !! str message_id = None)
    ∧ (r = None → f' = f)
    ∧ (∀ b, bans (document f) !! str message_id = Some b →
         r = Some (mkBanRequest (b_user_id b) (b_total_points b) (b_action b)
                                (b_message_id b) (b_timestamp b) completed
                                (Some moderator_id) (Some now))
         ∧ bans (document f') !! str message_id = r
         ∧ (∀ moderator2 now2, ∃ f2,
              complete_ban_request message_id moderator2 now2 f'
              = Return (Some (mkBanRequest (b_user_id b) (b_total_points b)
                                (b_action b) (b_message_id b) (b_timestamp b)
                                completed (Some moderator2) (Some now2)), f2))
         ∧ (∀ user_id total action now2, ∃ b2 f2,
              add_ban_request user_id total action message_id now2 f'
              = Return (b2, f2)
              ∧ bans (document f2) !! str message_id = Some b2
              ∧ b_status b2 = pending ∧ b_completed_by b2 = None)).
Proof.
  unfold complete_ban_request at 1. rewrite load_data_document.
  cbn [mbind Exc_bind mret Exc_ret].
  destruct (bans (document f) !! str message_id) as [b|] eqn:Hb.
  - eexists _, _. split; [reflexivity|]. split; [split; discriminate|].
    split; [discriminate|]. intros b0 [= <-]. split; [done|].
    rewrite document_save_data. cbn [bans]. split; [apply lookup_insert_eq|].
    split.
    + intros m2 t2. unfold complete_ban_request.
      rewrite load_data_document, document_save_data.
      cbn [mbind Exc_bind mret Exc_ret bans]. rewrite lookup_insert_eq.
      eexists. reflexivity.
    + intros u total action t2. unfold add_ban_request.
      rewrite load_data_document, document_save_data.
      cbn [mbind Exc_bind mret Exc_ret bans]. eexists _, _.
      split; [reflexivity|]. rewrite document_save_data. cbn [bans].
      split; [apply lookup_insert_eq|done].
  - exists None, f. split; [done|]. split; [done|]. split; [done|]. intros b [=].
Qed.

End MoreDatabaseFacts.

(** * Further properties of the license ledger *)

Section MoreLicenseFacts.
Import Py LicenseManager LicenseLedger LicenseQueries.

(** [add_license] fails exactly when the license is held by another user;
    when it succeeds, looking up the user and looking up the license both
    return the new record, which carries the license, the user, the
    moderator, the first clock reading and the note, and the entries of
    the other users are as before, but for the one that held the license
    this user gave up. *)
Theorem add_license_then_lookup (user_id : Z) (license_key : string)
    (moderator_id : Z) (note : string) (now_added now_hist : Z) (f : File Data) :
  ∃ b f',
    add_license user_id license_key moderator_id note now_added now_hist f
    = Return (b, f')
    ∧ (b = false ↔ ∃ info, license_users (document f) !! license_key = Some info
                           ∧ l_user_id info ≠ user_id)
    ∧ (b = false → f' = f)
    ∧ (b = true →
       get_user_license user_id f'
       = Return (Some (mkLicenseInfo license_key user_id moderator_id now_added note))
       ∧ get_license_user license_key f'
         = Return (Some (mkLicenseInfo license_key user_id moderator_id now_added note))
       ∧ (∀ other, other ≠ user_id →
            get_user_license other f' = get_user_license other f)
       ∧ (∀ k, k ≠ license_key →
            (∀ old, user_licenses (document f) !! str user_id = Some old →
                    k ≠ l_license old) →
            get_license_user k f' = get_license_user k f)).
Proof.
  rewrite add_license_eq. cbn zeta.
  destruct (license_users (document f) !! license_key) as [existing|] eqn:Hex.
  - destruct (Z.eqb_spec (l_user_id existing) user_id) as [Heq|Hne]; cbn [negb].
    + eexists true, _. split; [reflexivity|]. split.
      { split; [discriminate|]. intros (info & [= <-] & Hn). done. }
      split; [discriminate|]. intros _.
      unfold get_user_license, get_license_user.
      rewrite !license_load_data_document, license_document_save_data.
      cbn [mbind Exc_bind mret Exc_ret user_licenses license_users].
      rewrite !lookup_insert_eq. split; [done|]. split; [done|]. split.
      * intros other Hne. rewrite lookup_insert_ne; [done|]. by intros ?%str_inj.
      * intros k Hk Hold. rewrite lookup_insert_ne by done.
        destruct (user_licenses (document f) !! str user_id) as [old|]; [|done].
        rewrite lookup_delete_ne; [done|]. intros Heq'. by apply (Hold old).
    + exists false, f. split; [done|]. split.
      { split; [|done]. intros _. by exists existing. }
      split; [done|]. discriminate.
  - eexists true, _. split; [reflexivity|]. split.
    { split; [discriminate|]. intros (info & [=] & _). }
    split; [discriminate|]. intros _.
    unfold get_user_license, get_license_user.
    rewrite !license_load_data_document, license_document_save_data.
    cbn [mbind Exc_bind mret Exc_ret user_licenses license_users].
    rewrite !lookup_insert_eq. split; [done|]. split; [done|]. split.
    * intros other Hne. rewrite lookup_insert_ne; [done|]. by intros ?%str_inj.
    * intros k Hk Hold. rewrite lookup_insert_ne by done.
      destruct (user_licenses (document f) !! str user_id) as [old|]; [|done].
      rewrite lookup_delete_ne; [done|]. intros Heq'. by apply (Hold old).
Qed.

(** [remove_license] returns [False] exactly when the user has no license,
    and then leaves the file as it was. Otherwise neither the user nor the
    license is found any more, the other users keep their entries, and the
    license is free: [add_license] gives it to any user. *)
Theorem remove_license_frees_license (user_id moderator_id : Z) (reason : string)
    (now : Z) (f : File Data) :
  ∃ b f',
    remove_license user_id moderator_id reason now f = Return (b, f')
    ∧ (b = false ↔ user_licenses (document f) !! str user_id = None)
    ∧ (b = false → f' = f)
    ∧ ∀ info, user_licenses (document f) !! str user_id = Some info →
        b = true
        ∧ get_user_license user_id f' = Return None
        ∧ get_license_user (l_license info) f' = Return None
        ∧ (∀ other, other ≠ user_id →
             get_user_license other f' = get_user_license other f)
        ∧ (∀ k, k ≠ l_license info →
             get_license_user k f' = get_license_user k f)
        ∧ ∀ user2 moderator2 note now_added now_hist,
            ∃ f2, add_license user2 (l_license info) moderator2 note
                              now_added now_hist f' = Return (true, f2).
Proof.
  rewrite remove_license_eq. cbn zeta.
  destruct (user_licenses (document f) !! str user_id) as [info|] eqn:Hu.
  - eexists true, _. split; [reflexivity|]. split; [split; discriminate|].
    split; [discriminate|]. intros info0 [= <-]. split; [done|].
    unfold get_user_license, get_license_user.
    rewrite !license_load_data_document, license_document_save_data.
    cbn [mbind Exc_bind mret Exc_ret user_licenses license_users].
    rewrite !lookup_delete_eq. split; [done|]. split; [done|]. split.
    { intros other Hne. rewrite lookup_delete_ne; [done|]. by intros ?%str_inj. }
    split.
    { intros k Hk. by rewrite lookup_delete_ne. }
    intros u2 m2 note t1 t2. rewrite add_license_eq, license_document_save_data.
    cbn zeta. cbn [license_users]. rewrite lookup_delete_eq. by eexists.
  - exists false, f. split; [done|]. split; [done|]. split; [done|]. intros info [=].
Qed.

(** Giving a free license to a user without one and removing it again
    restores both indexes; the history has the two entries more. *)
Theorem add_then_remove_license_restores (user_id : Z) (license_key : string)
    (moderator_id : Z) (note : string) (now_added now_hist : Z)
    (moderator2 : Z) (reason : string) (now : Z) (f : File Data) :
  user_licenses (document f) !! str user_id = None →
  license_users (document f) !! license_key = None →
  ∃ f1 f2,
    add_license user_id license_key moderator_id note now_added now_hist f
    = Return (true, f1)
    ∧ remove_license user_id moderator2 reason now f1 = Return (true, f2)
    ∧ user_licenses (document f2) = user_licenses (document f)
    ∧ license_users (document f2) = license_users (document f)
    ∧ license_history (document f2)
      = (license_history (document f)
         ++ [mkHistoryEntry add user_id license_key moderator_id now_hist
                            (Some note) None;
             mkHistoryEntry remove user_id license_key moderator2 now
                            None (Some reason)])%list.
Proof.
  intros Hu Hk. rewrite add_license_eq. cbn zeta. rewrite Hk, Hu.
  eexists _, _. split; [reflexivity|].
  rewrite remove_license_eq, license_document_save_data. cbn zeta.
  cbn [user_licenses license_users license_history]. rewrite lookup_insert_eq.
  split; [reflexivity|]. rewrite license_document_save_data.
  cbn [user_licenses license_users license_history l_license].
  split; [by rewrite delete_insert_eq, delete_id|].
  split; [by rewrite delete_insert_eq, delete_id|].
  by rewrite <- app_assoc.
Qed.

Lemma add_then_remove_license_restores_witness :
  user_licenses (document Missing) !! str 1 = None
  ∧ license_users (document Missing) !! "aa" = None
  ∧ ∃ f1 f2,
      add_license 1 "aa" 9 "" 0 0 Missing = Return (true, f1)
      ∧ remove_license 1 9 "" 1 f1 = Return (true, f2)
      ∧ user_licenses (document f2) = user_licenses (document Missing).
Proof.
  split; [reflexivity|]. split; [reflexivity|].
  destruct (add_then_remove_license_restores 1 "aa" 9 "" 0 0 9 "" 1 Missing
              eq_refl eq_refl) as (f1 & f2 & H1 & H2 & H3 & _).
  by exists f1, f2.
Defined.

(** ** The history *)

(** The history only grows: a call that succeeds appends one entry, with
    its action, user, license, moderator, second clock reading and note or
    reason; a call that fails appends none; no entry is changed or
    dropped. *)
Theorem license_history_append_only :
  (∀ user_id license_key moderator_id note now_added now_hist f,
     ∃ b f',
       add_license user_id license_key moderator_id note now_added now_hist f
       = Return (b, f')
       ∧ license_history (document f')
         = (license_history (document f)
            ++ if b then [mkHistoryEntry add user_id license_key moderator_id
                                         now_hist (Some note) None]
               else [])%list)
  ∧ (∀ user_id moderator_id reason now f,
       ∃ b f',
         remove_license user_id moderator_id reason now f = Return (b, f')
         ∧ license_history (document f')
           = (license_history (document f)
              ++ match user_licenses (document f) !! str user_id with
                 | Some info =>
                     [mkHistoryEntry remove user_id (l_license info) moderator_id
                                     now None (Some reason)]
                 | None => []
                 end)%list
         ∧ (b = true ↔ is_Some (user_licenses (document f) !! str user_id)))
  ∧ (∀ cs f,
       license_history (document f) `prefix_of` license_history (document (run cs f))
       ∧ (length (license_history (document (run cs f)))
          <= length (license_history (document f)) + length cs)%nat).
Proof.
  assert (∀ c f, ∃ new,
            license_history (document (exec c f))
            = (license_history (document f) ++ new)%list
            ∧ (length new <= 1)%nat) as Hexec.
  { intros [u k m note t1 t2|u m r t] f; cbn [exec].
    - rewrite add_license_eq. cbn zeta.
      destruct (match license_users (document f) !! k with
                | Some existing => negb (l_user_id existing =? u)
                | None => false
                end).
      + exists []. split; [by rewrite app_nil_r|simpl; lia].
      + eexists [_]. rewrite license_document_save_data. split; [done|simpl; lia].
    - rewrite remove_license_eq. cbn zeta.
      destruct (user_licenses (document f) !! str u).
      + eexists [_]. rewrite license_document_save_data. split; [done|simpl; lia].
      + exists []. split; [by rewrite app_nil_r|simpl; lia]. }
  split; [|split].
  - intros u k m note t1 t2 f. rewrite add_license_eq. cbn zeta.
    destruct (match license_users (document f) !! k with
              | Some existing => negb (l_user_id existing =? u)
              | None => false
              end).
    + eexists false, _. split; [reflexivity|]. by rewrite app_nil_r.
    + eexists true, _. split; [reflexivity|].
      by rewrite license_document_save_data.
  - intros u m r t f. rewrite remove_license_eq. cbn zeta.
    destruct (user_licenses (document f) !! str u) as [info|].
    + eexists true, _. split; [reflexivity|].
      rewrite license_document_save_data. split; [done|]. split; [by eexists|done].
    + eexists false, _. split; [reflexivity|]. rewrite app_nil_r.
      split; [done|]. split; [discriminate|]. by intros [? [=]].
  - intros cs. induction cs as [|c cs IH]; intros f; [split; [done|simpl; lia]|].
    cbn [run foldl]. destruct (Hexec c f) as (new & Hnew & Hlen).
    destruct (IH (exec c f)) as [Hpre Hl]. split.
    + etrans; [|exact Hpre]. rewrite Hnew. by apply prefix_app_r.
    + unfold run in Hl. etrans; [exact Hl|]. rewrite Hnew, length_app. simpl. lia.
Qed.

(** ** Searching *)

Lemma append_String a (s t : string) :
  String.append (String a s) t = String a (String.append s t).
Proof. reflexivity. Qed.

Lemma append_Empty (t : string) : String.append "" t = t.
Proof. reflexivity. Qed.

Lemma prefix_append (p s : string) :
  String.prefix p s = true ↔ ∃ post, s = String.append p post.
Proof.
  revert s. induction p as [|a p IH]; intros s.
  - destruct s; simpl; (split; [intros _; eexists; by rewrite append_Empty|done]).
  - destruct s as [|b s]; simpl.
    + split; [done|]. intros [post Hp]. by rewrite append_String in Hp.
    + destruct (ascii_dec a b) as [->|Hab].
      * rewrite IH. split; intros [post Hp]; exists post;
          rewrite append_String in *; congruence.
      * split; [done|]. intros [post Hp]. rewrite append_String in Hp. congruence.
Qed.

(** [contains] is the test [needle in hay] of Python: the needle occurs
    somewhere in the hay. *)
Lemma contains_substring (needle hay : string) :
  contains needle hay = true
  ↔ ∃ pre post, hay = String.append pre (String.append needle post).
Proof.
  induction hay as [|c hay IH].
  - cbn [contains]. destruct (String.prefix needle "") eqn:Hp.
    + split; [intros _|done]. apply prefix_append in Hp as [post Hp].
      exists "", post. by rewrite append_Empty.
    + split; [by destruct (String.prefix needle "")|].
      intros (pre & post & Hh). destruct pre; [|by rewrite append_String in Hh].
      rewrite append_Empty in Hh. rewrite <- Hp.
      apply prefix_append. by exists post.
  - cbn [contains]. destruct (String.prefix needle (String c hay)) eqn:Hp.
    + split; [intros _|done]. apply prefix_append in Hp as [post Hp].
      exists "", post. by rewrite append_Empty.
    + rewrite IH. split.
      * intros (pre & post & ->). exists (String c pre), post.
        by rewrite append_String.
      * intros (pre & post & Hh). destruct pre as [|c' pre].
        -- rewrite append_Empty in Hh.
           assert (String.prefix needle (String c hay) = true) as Hp'
             by (apply prefix_append; by exists post).
           congruence.
        -- rewrite append_String in Hh. injection Hh as _ Hh. by exists pre, post.
Qed.

Lemma lower_char_idempotent c : lower_char (lower_char c) = lower_char c.
Proof. by destruct c as [[] [] [] [] [] [] [] []]. Qed.

Lemma lower_idempotent s : lower (lower s) = lower s.
Proof. induction s as [|c s IH]; simpl; [done|]. by rewrite lower_char_idempotent, IH. Qed.

(** [search_licenses] returns one result for each stored license whose
    lower-case text has the lower-case query somewhere in it, with the
    user, time and note of its record, and nothing else; the case of the
    query does not matter, and the empty query returns every license. *)
Theorem search_licenses_finds_substrings (query : string) (f : File Data) :
  ∃ results,
    search_licenses query f = Return results
    ∧ (∀ r, r ∈ results ↔
         ∃ k info,
           license_users (document f) !! k = Some info
           ∧ (∃ pre post,
                lower k = String.append pre (String.append (lower query) post))
           ∧ r = mkSearchResult "license" k (l_user_id info) (l_added_at info)
                                (l_note info))
    ∧ search_licenses (lower query) f = Return results
    ∧ (length results <= size (license_users (document f)))%nat
    ∧ (query = "" → length results = size (license_users (document f))).
Proof.
  unfold search_licenses. rewrite license_load_data_document.
  cbn [mbind Exc_bind mret Exc_ret]. cbn zeta. rewrite lower_idempotent.
  eexists. split; [reflexivity|]. split; [|split; [done|split]].
  - intros r. rewrite list_elem_of_omap. split.
    + intros ([k info] & Hin & Hr). apply elem_of_map_to_list in Hin.
      destruct (contains (lower query) (lower k)) eqn:Hc; [|done].
      injection Hr as <-. exists k, info. split; [done|]. split; [|done].
      by apply contains_substring.
    + intros (k & info & Hk & Hsub & ->). exists (k, info).
      split; [by apply elem_of_map_to_list|].
      apply contains_substring in Hsub. by rewrite Hsub.
  - rewrite <- length_map_to_list.
    induction (map_to_list (license_users (document f))) as [|[k info] l IH];
      [done|].
    cbn [omap list_omap]. destruct (contains (lower query) (lower k)); simpl; lia.
  - intros ->. change (lower "") with "". rewrite <- length_map_to_list.
    induction (map_to_list (license_users (document f))) as [|[k info] l IH];
      [done|].
    cbn [omap list_omap].
    assert (contains "" (lower k) = true) as ->.
    { apply contains_substring. exists "", (lower k). by rewrite !append_Empty. }
    simpl. by rewrite IH.
Qed.

(** [get_license_history] returns entries of the history that are of the
    user and of the license asked for, when one is given, newest first,
    entries of one timestamp in the order of the history, and at most
    [limit] of them when [limit] is not negative. *)
Theorem get_license_history_newest_first (user_id : option Z)
    (license_key : option string) (limit : Z) (f : File Data) :
  ∃ entries,
    get_license_history user_id license_key limit f = Return entries
    ∧ entries `prefix_of`
        sorted_reverse h_timestamp
          (filter (asked_for user_id license_key) (license_history (document f)))
    ∧ StronglySorted (λ a b, h_timestamp b <= h_timestamp a) entries
    ∧ (∀ h, h ∈ entries →
            h ∈ license_history (document f)
            ∧ (∀ u, user_id = Some u → h_user_id h = u)
            ∧ (∀ k, license_key = Some k → h_license h = k))
    ∧ (0 <= limit → Z.of_nat (length entries) <= limit).
Proof.
  unfold get_license_history. rewrite license_load_data_document.
  cbn [mbind Exc_bind mret Exc_ret]. cbn zeta. eexists. split; [reflexivity|].
  assert (match license_key with
          | Some k => filter (λ h, h_license h = k)
                        match user_id with
                        | Some u => filter (λ h, h_user_id h = u)
                                           (license_history (document f))
                        | None => license_history (document f)
                        end
          | None => match user_id with
                    | Some u => filter (λ h, h_user_id h = u)
                                       (license_history (document f))
                    | None => license_history (document f)
                    end
          end
          = filter (asked_for user_id license_key) (license_history (document f)))
    as Hfilter.
  { destruct license_key as [k|], user_id as [u|]; unfold asked_for.
    - rewrite list_filter_filter. apply list_filter_iff. intros h. tauto.
    - apply list_filter_iff. intros h. tauto.
    - apply list_filter_iff. intros h. tauto.
    - induction (license_history (document f)) as [|h l IH]; [done|].
      rewrite filter_cons_True by done. by rewrite <- IH. }
  rewrite Hfilter. unfold slice_to.
  split; [destruct (0 <=? limit); apply prefix_take|].
  split.
  { destruct (0 <=? limit); apply StronglySorted_take, sorted_reverse_descending. }
  split.
  { intros h Hh.
    assert (h ∈ filter (asked_for user_id license_key)
                       (license_history (document f))) as Hin.
    { rewrite <- (sorted_reverse_Permutation h_timestamp).
      destruct (0 <=? limit); apply elem_of_take in Hh as (i & Hi & _);
        by eapply list_elem_of_lookup_2. }
    apply list_elem_of_filter in Hin as [[H1 H2] Hin].
    split; [done|]. split.
    - intros u ->. exact H1.
    - intros k ->. exact H2. }
  intros Hl. rewrite (proj2 (Z.leb_le 0 limit)) by done.
  rewrite length_take. lia.
Qed.

End MoreLicenseFacts.

(** * The pages of the warnings view *)

Section ViewFacts.
Import Py PyMore Database Views.

Lemma max_pages_init (ws : list Warning) :
  1 <= max_pages (__init__ ws)
  ∧ 5 * (max_pages (__init__ ws) - 1) <= Z.of_nat (length ws)
  ∧ Z.of_nat (length ws) <= 5 * max_pages (__init__ ws)
  ∧ (ws ≠ [] → 5 * (max_pages (__init__ ws) - 1) < Z.of_nat (length ws)).
Proof.
  destruct ws as [|w ws]; [simpl; split; [lia|split; [lia|split; [lia|done]]]|].
  cbn [__init__ max_pages].
  pose proof (Z.div_mod (Z.of_nat (length (w :: ws)) - 1) 5 ltac:(lia)) as Hd.
  pose proof (Z.mod_pos_bound (Z.of_nat (length (w :: ws)) - 1) 5 ltac:(lia)) as Hm.
  assert (1 <= Z.of_nat (length (w :: ws))) by (simpl; lia).
  assert (0 <= (Z.of_nat (length (w :: ws)) - 1) / 5) by (apply Z.div_pos; lia).
  repeat split; try lia.
Qed.

Lemma press_in_range (v : WarningsView) (p : Press) :
  0 <= current_page v < max_pages v →
  0 <= current_page (press v p) < max_pages (press v p)
  ∧ v_warnings (press v p) = v_warnings v
  ∧ per_page (press v p) = per_page v
  ∧ max_pages (press v p) = max_pages v.
Proof.
  intros Hv. destruct p; unfold press, previous_page, next_page.
  - destruct (Z.ltb_spec 0 (current_page v)); simpl; repeat split; lia.
  - destruct (Z.ltb_spec (current_page v) (max_pages v - 1)); simpl;
      repeat split; lia.
Qed.

Lemma presses_in_range (ws : list Warning) (presses : list Press) :
  0 <= current_page (foldl press (__init__ ws) presses)
     < max_pages (foldl press (__init__ ws) presses)
  ∧ v_warnings (foldl press (__init__ ws) presses) = ws
  ∧ per_page (foldl press (__init__ ws) presses) = 5
  ∧ max_pages (foldl press (__init__ ws) presses) = max_pages (__init__ ws).
Proof.
  induction presses as [|p presses IH] using rev_ind.
  - destruct (max_pages_init ws) as (H1 & _). cbn [foldl].
    assert (current_page (__init__ ws) = 0) as -> by reflexivity.
    repeat split; try done; lia.
  - rewrite foldl_app. cbn [foldl].
    destruct IH as (Hr & Hw & Hp & Hm).
    destruct (press_in_range (foldl press (__init__ ws) presses) p Hr)
      as (Hr' & Hw' & Hp' & Hm').
    repeat split; try lia; congruence.
Qed.

(** The warnings of a page, without the numbers: five from the start of
    the page on. *)
Lemma page_warnings_take (v : WarningsView) :
  0 <= current_page v → per_page v = 5 →
  5 * current_page v <= Z.of_nat (length (v_warnings v)) →
  (page_warnings v).*2
  = take 5 (drop (Z.to_nat (5 * current_page v)) (v_warnings v)).
Proof.
  intros Hc Hp Hn. unfold page_warnings. rewrite Hp.
  assert (∀ (s : Z) (l : list Warning),
            (imap (λ i warning, (s + Z.of_nat i + 1, warning)) l).*2 = l) as Himap.
  { intros s l. revert s. induction l as [|w l IH]; intros s; [done|].
    cbn [imap fmap list_fmap]. f_equal.
    rewrite <- (IH (s + 1)) at 2. f_equal. apply imap_ext. intros i x _.
    simpl. f_equal. lia. }
  rewrite Himap. unfold slice, clamp.
  rewrite (proj2 (Z.ltb_ge (current_page v * 5) 0)) by lia.
  rewrite (proj2 (Z.ltb_ge (Z.min (current_page v * 5 + 5)
                              (Z.of_nat (length (v_warnings v)))) 0)) by lia.
  replace (Z.min (current_page v * 5) (Z.of_nat (length (v_warnings v))))
    with (5 * current_page v) by lia.
  replace (Z.min (Z.min (current_page v * 5 + 5) (Z.of_nat (length (v_warnings v))))
                 (Z.of_nat (length (v_warnings v))))
    with (Z.min (current_page v * 5 + 5) (Z.of_nat (length (v_warnings v))))
    by lia.
  destruct (Z.le_gt_cases (current_page v * 5 + 5) (Z.of_nat (length (v_warnings v)))).
  - f_equal. lia.
  - rewrite !take_ge; [done|rewrite length_drop; lia|rewrite length_drop; lia].
Qed.

(** Whatever buttons are pressed and in whatever order, the view shows a
    page that exists: the page number stays between 0 and [max_pages - 1],
    [max_pages] is the number of warnings divided by five and rounded up
    (1 for no warning), and the page shows at least one and at most five
    warnings when there is any. *)
Theorem pages_stay_in_range (ws : list Warning) (presses : list Press) :
  0 <= current_page (foldl press (__init__ ws) presses)
     < max_pages (foldl press (__init__ ws) presses)
  ∧ max_pages (foldl press (__init__ ws) presses)
    = (if decide (ws = []) then 1 else (Z.of_nat (length ws) + 4) / 5)
  ∧ (length (page_warnings (foldl press (__init__ ws) presses)) <= 5)%nat
  ∧ (ws ≠ [] → page_warnings (foldl press (__init__ ws) presses) ≠ []).
Proof.
  destruct (presses_in_range ws presses) as (Hr & Hw & Hp & Hm).
  destruct (max_pages_init ws) as (H1 & H2 & H3 & H4).
  split; [done|]. split.
  { rewrite Hm. destruct ws as [|w ws]; [done|]. rewrite decide_False by done.
    cbn [__init__ max_pages].
    replace (Z.of_nat (length (w :: ws)) + 4)
      with ((Z.of_nat (length (w :: ws)) - 1) + 1 * 5) by lia.
    by rewrite Z.div_add by lia. }
  assert ((page_warnings (foldl press (__init__ ws) presses)).*2
          = take 5 (drop (Z.to_nat (5 * current_page (foldl press (__init__ ws) presses)))
                         ws)) as Hpage.
  { rewrite page_warnings_take; [by rewrite Hw|lia|done|]. rewrite Hw. lia. }
  split.
  - rewrite <- (length_fmap snd), Hpage, length_take. lia.
  - intros Hne Hnil. rewrite Hnil in Hpage. simpl in Hpage.
    symmetry in Hpage. apply (f_equal length) in Hpage.
    rewrite length_take, length_drop in Hpage. cbn [length] in Hpage.
    specialize (H4 Hne). lia.
Qed.

Lemma concat_pages (l : list Warning) (k : nat) :
  (length l <= 5 * k)%nat →
  concat ((λ p : nat, take 5 (drop (5 * p) l)) <$> seq 0 k) = l.
Proof.
  revert l. induction k as [|k IH]; intros l Hl.
  - destruct l; [done|simpl in Hl; lia].
  - cbn [seq fmap list_fmap concat]. rewrite <- fmap_S_seq, <- list_fmap_compose.
    rewrite Nat.mul_0_r, drop_0.
    transitivity (take 5 l ++ drop 5 l)%list; [|apply take_drop]. f_equal.
    rewrite <- (IH (drop 5 l)) by (rewrite length_drop; lia).
    f_equal. apply list_fmap_ext. intros _ p _. simpl. rewrite drop_drop.
    do 2 f_equal. lia.
Qed.

(** The pages, from the first to the last, show the warnings of the view
    in their order, each once, and the number a page gives a warning is its
    position in the whole list, counted from 1. *)
Theorem pages_partition_warnings (ws : list Warning) :
  concat ((λ p : nat, (page_warnings (turn_to (__init__ ws) (Z.of_nat p))).*2)
          <$> seq 0 (Z.to_nat (max_pages (__init__ ws))))
  = ws
  ∧ ∀ (p : nat) number w,
      (Z.of_nat p < max_pages (__init__ ws)) →
      (number, w) ∈ page_warnings (turn_to (__init__ ws) (Z.of_nat p)) →
      1 <= number ∧ ws !! Z.to_nat (number - 1) = Some w
      ∧ 5 * Z.of_nat p < number <= 5 * Z.of_nat p + 5.
Proof.
  destruct (max_pages_init ws) as (H1 & H2 & H3 & H4).
  split.
  - rewrite <- (concat_pages ws (Z.to_nat (max_pages (__init__ ws)))) at 2 by lia.
    f_equal. apply list_fmap_ext. intros i p Hp.
    apply lookup_seq in Hp as [-> Hp]. cbn [Nat.add].
    rewrite page_warnings_take; cbn [turn_to current_page per_page v_warnings];
      try done; try lia.
    + do 2 f_equal. lia.
    + simpl. lia.
  - intros p number w Hp Hin. unfold page_warnings in Hin.
    cbn [turn_to current_page per_page v_warnings __init__] in Hin.
    apply list_elem_of_lookup in Hin as [i Hi].
    rewrite list_lookup_imap in Hi.
    destruct (slice ws (Z.of_nat p * 5)
                (Z.min (Z.of_nat p * 5 + 5) (Z.of_nat (length ws))) !! i)
      as [w'|] eqn:Hs; [|done].
    simpl in Hi. injection Hi as <- <-.
    unfold slice, clamp in Hs.
    rewrite (proj2 (Z.ltb_ge (Z.of_nat p * 5) 0)) in Hs by lia.
    rewrite (proj2 (Z.ltb_ge (Z.min (Z.of_nat p * 5 + 5) (Z.of_nat (length ws))) 0))
      in Hs by lia.
    apply lookup_take_Some in Hs as [Hs Hi]. rewrite lookup_drop in Hs.
    split; [lia|]. split; [|lia].
    rewrite <- Hs. f_equal. lia.
Qed.

(** A press turns the page exactly when its button is enabled; [Next]
    followed by [Previous], and [Previous] followed by [Next], bring back
    the page they started from whenever the first of the two turned it. *)
Theorem page_turns_match_buttons (ws : list Warning) (presses : list Press) :
  ((next_page (foldl press (__init__ ws) presses)).2 = true
   ↔ mkButton "Next" false ∈ update_buttons (foldl press (__init__ ws) presses))
  ∧ ((previous_page (foldl press (__init__ ws) presses)).2 = true
     ↔ mkButton "Previous" false ∈ update_buttons (foldl press (__init__ ws) presses))
  ∧ ((next_page (foldl press (__init__ ws) presses)).2 = true →
     previous_page (next_page (foldl press (__init__ ws) presses)).1
     = (foldl press (__init__ ws) presses, true))
  ∧ ((previous_page (foldl press (__init__ ws) presses)).2 = true →
     next_page (previous_page (foldl press (__init__ ws) presses)).1
     = (foldl press (__init__ ws) presses, true))
  ∧ ((next_page (foldl press (__init__ ws) presses)).2 = false →
     (next_page (foldl press (__init__ ws) presses)).1
     = foldl press (__init__ ws) presses)
  ∧ ((previous_page (foldl press (__init__ ws) presses)).2 = false →
     (previous_page (foldl press (__init__ ws) presses)).1
     = foldl press (__init__ ws) presses).
Proof.
  destruct (presses_in_range ws presses) as (Hr & _).
  destruct (foldl press (__init__ ws) presses) as [vw cp pp mp].
  cbn [current_page max_pages] in Hr.
  unfold next_page, previous_page, update_buttons, turn_to;
    cbn [current_page max_pages v_warnings per_page].
  repeat split.
  - destruct (Z.ltb_spec cp (mp - 1)); [|done]. intros _.
    rewrite (proj2 (Z.ltb_lt 1 mp)) by lia.
    rewrite (proj2 (Z.leb_gt (mp - 1) cp)) by lia.
    apply elem_of_cons. right. apply elem_of_cons. right. apply elem_of_cons. by left.
  - destruct (Z.ltb_spec 1 mp); [|by intros ?%not_elem_of_nil].
    rewrite !elem_of_cons, elem_of_nil. intros [[=]|[[=]|[[= Hd]|[]]]].
    symmetry in Hd. apply Z.leb_gt in Hd. by rewrite (proj2 (Z.ltb_lt cp (mp - 1))).
  - destruct (Z.ltb_spec 0 cp); [|done]. intros _.
    rewrite (proj2 (Z.ltb_lt 1 mp)) by lia.
    rewrite (proj2 (Z.eqb_neq cp 0)) by lia.
    apply elem_of_cons. by left.
  - destruct (Z.ltb_spec 1 mp); [|by intros ?%not_elem_of_nil].
    rewrite !elem_of_cons, elem_of_nil. intros [[= Hd]|[[=]|[[=]|[]]]].
    symmetry in Hd. apply Z.eqb_neq in Hd. by rewrite (proj2 (Z.ltb_lt 0 cp)) by lia.
  - destruct (Z.ltb_spec cp (mp - 1)); [|done]. intros _.
    cbn [fst current_page]. rewrite (proj2 (Z.ltb_lt 0 (cp + 1))) by lia.
    f_equal. f_equal. lia.
  - destruct (Z.ltb_spec 0 cp); [|done]. intros _.
    cbn [fst current_page max_pages]. rewrite (proj2 (Z.ltb_lt (cp - 1) (mp - 1))) by lia.
    f_equal. f_equal. lia.
  - by destruct (Z.ltb_spec cp (mp - 1)).
  - by destruct (Z.ltb_spec 0 cp).
Qed.

End ViewFacts.

(** * The callback of the violation menu *)

Section CallbackFacts.
Import Py Violations Database Bot Ledger Commands.

Lemma document_ensure_db_exists f : document (_ensure_db_exists f) = document f.
Proof. by destruct f. Qed.

Lemma issue_known target moderator clips vt t1 t2 t3 f :
  is_Some (dict_get VIOLATIONS vt) →
  ∃ w f',
    issue_violation target moderator clips vt t1 t2 t3 f = Return (w_points w, w, f')
    ∧ (w_violation_type w = vt ∧ w_user_id w = target
       ∧ w_expires_at w = _calculate_expiry vt t3 ∧ w_removed w = None)
    ∧ w_id w = str (max_numeric_id (warnings (document f)) + 1)
    ∧ warnings (document f') = <[w_id w := w]> (warnings (document f))
    ∧ bans (document f') = bans (document f)
    ∧ users (document f')
      = <[str target :=
            mkUserRecord
              (total_points (default (mkUserRecord 0 [] [])
                               (users (document f) !! str target)) + w_points w)
              (u_warnings (default (mkUserRecord 0 [] [])
                             (users (document f) !! str target)) ++ [w_id w])
              (u_bans (default (mkUserRecord 0 [] [])
                         (users (document f) !! str target)))]>
          (users (document f)).
Proof.
  intros [v Hv]. rewrite issue_violation_eq, Hv. cbn zeta.
  rewrite add_warning_eq. cbn zeta.
  eexists (mkWarning _ _ _ _ _ _ _ _ _ _ _ _ _), _. split; [reflexivity|].
  rewrite document_save_data. by cbn.
Qed.

(** The loop over a selection of known types is the run of its commands. *)
Lemma issue_selected_known target moderator clips sel added details f :
  Forall (λ s : string * (Z * Z * Z), is_Some (dict_get VIOLATIONS s.1)) sel →
  ∃ issued f',
    issue_selected target moderator clips sel added details f
    = (Return (added + sum_points issued,
               (details ++ zip_with (λ s w, mkDetail s.1 (w_points w) w) sel issued)%list),
       f')
    ∧ run (issues target moderator clips sel) f = (f', issued)
    ∧ Forall2 (λ s w, w_violation_type w = s.1 ∧ w_user_id w = target
                      ∧ w_expires_at w = _calculate_expiry s.1 s.2.2
                      ∧ w_removed w = None) sel issued
    ∧ (∀ id w, warnings (document f) !! id = Some w →
               warnings (document f') !! id = Some w)
    ∧ (∀ w, w ∈ issued → warnings (document f') !! w_id w = Some w)
    ∧ bans (document f') = bans (document f).
Proof.
  intros Hsel. revert added details f.
  induction Hsel as [|[vt [[t1 t2] t3]] rest Hvt _ IH]; intros added details f.
  - exists [], f. cbn. rewrite app_nil_r, Z.add_0_r.
    repeat split; try done. intros w Hw. by apply elem_of_nil in Hw.
  - destruct (issue_known target moderator clips vt t1 t2 t3 f Hvt)
      as (w & f1 & Hissue & Hw & Hid & Hws & Hbans & _).
    destruct (IH (added + w_points w)
                 (details ++ [mkDetail vt (w_points w) w])%list f1)
      as (issued & f' & Hloop & Hrun & Hall & Hkeep & Hstored & Hbans').
    exists (w :: issued), f'. cbn [issue_selected]. rewrite Hissue, Hloop.
    split.
    { cbn [zip_with fst sum_points foldr]. rewrite <- app_assoc.
      do 3 f_equal. unfold sum_points. lia. }
    split.
    { cbn [issues fmap list_fmap run exec]. rewrite Hissue.
      fold (issues target moderator clips rest). by rewrite Hrun. }
    split; [by constructor|].
    assert (warnings (document f1) !! w_id w = Some w) as Hw1.
    { rewrite Hws. apply lookup_insert_eq. }
    split.
    { intros id w0 Hw0. apply Hkeep. rewrite Hws.
      rewrite lookup_insert_ne; [done|]. intros <-.
      rewrite Hid, next_id_fresh in Hw0. discriminate. }
    split; [|congruence].
    intros w0 [->|Hin]%elem_of_cons; [by apply Hkeep|by apply Hstored].
Qed.

Lemma add_ban_request_eq user_id total action message_id now f :
  add_ban_request user_id total action message_id now f
  = Return (mkBanRequest user_id total action message_id now pending None None,
            save_data
              {| users := users (document f);
                 warnings := warnings (document f);
                 bans := <[str message_id :=
                             mkBanRequest user_id total action message_id now
                                          pending None None]> (bans (document f)) |}).
Proof. unfold add_ban_request. by rewrite load_data_document. Qed.

(** The callback on a selection of known types, in one equation. *)
Lemma callback_known target moderator clips sel now_total ban_message now_ban f :
  Forall (λ s : string * (Z * Z * Z), is_Some (dict_get VIOLATIONS s.1)) sel →
  ∃ issued f1,
    run (issues target moderator clips sel) (_ensure_db_exists f) = (f1, issued)
    ∧ Forall2 (λ s w, w_violation_type w = s.1 ∧ w_user_id w = target
                      ∧ w_expires_at w = _calculate_expiry s.1 s.2.2
                      ∧ w_removed w = None) sel issued
    ∧ (∀ id w, warnings (document f) !! id = Some w →
               warnings (document f1) !! id = Some w)
    ∧ (∀ w, w ∈ issued → warnings (document f1) !! w_id w = Some w)
    ∧ bans (document f1) = bans (document f)
    ∧ ∃ f',
        callback target moderator clips sel now_total ban_message now_ban f
        = (Return
             (mkCallbackResult
                (sum_points issued)
                (zip_with (λ s w, mkDetail s.1 (w_points w) w) sel issued)
                (sum_points (filter (λ w, is_active now_total w = true)
                               (stored_warnings (document f1) target)))
                (get_punishment_action
                   (sum_points (filter (λ w, is_active now_total w = true)
                                  (stored_warnings (document f1) target))))),
           f')
        ∧ users (document f') = users (document f1)
        ∧ warnings (document f') = warnings (document f1)
        ∧ bans (document f')
          = match ban_message with
            | Some m =>
                if 15 <=? sum_points (filter (λ w, is_active now_total w = true)
                                        (stored_warnings (document f1) target))
                then <[str m :=
                         mkBanRequest target
                           (sum_points (filter (λ w, is_active now_total w = true)
                                          (stored_warnings (document f1) target)))
                           (get_punishment_action
                              (sum_points (filter (λ w, is_active now_total w = true)
                                             (stored_warnings (document f1) target))))
                           m now_ban pending None None]> (bans (document f1))
                else bans (document f1)
            | None => bans (document f1)
            end.
Proof.
  intros Hsel.
  destruct (issue_selected_known target moderator clips sel 0 [] (_ensure_db_exists f)
              Hsel) as (issued & f1 & Hloop & Hrun & Hall & Hkeep & Hstored & Hbans).
  rewrite document_ensure_db_exists in Hkeep, Hbans.
  exists issued, f1. do 5 (split; [done|]).
  unfold callback. rewrite Hloop, get_user_points_eq. cbn zeta.
  rewrite Z.add_0_l, app_nil_l.
  destruct (15 <=? _) eqn:Hdue; [destruct ban_message as [m|]|].
  - rewrite add_ban_request_eq. eexists. split; [reflexivity|].
    rewrite document_save_data, document_ensure_db_exists. by cbn.
  - eexists. by split; [reflexivity|].
  - eexists. split; [reflexivity|]. by destruct ban_message.
Qed.

Lemma filter_all {A} (P : A → Prop) `{∀ x, Decision (P x)} (l : list A) :
  Forall P l → filter P l = l.
Proof.
  induction 1 as [|x l Hx _ IH]; [done|]. by rewrite filter_cons_True, IH.
Qed.

Lemma filter_none {A} (P : A → Prop) `{∀ x, Decision (P x)} (l : list A) :
  Forall (λ x, ¬ P x) l → filter P l = [].
Proof.
  induction 1 as [|x l Hx _ IH]; [done|]. by rewrite filter_cons_False.
Qed.

Lemma issue_points target moderator clips vt t1 t2 t3 f p w f' :
  issue_violation target moderator clips vt t1 t2 t3 f = Return (p, w, f') →
  w_points w
  = calculate_points vt
      (Z.of_nat (length (filter (λ w, w_violation_type w = vt)
                           (filter (λ w, is_active t1 w = true)
                              (stored_warnings (document f) target))))).
Proof.
  rewrite issue_violation_eq. destruct (dict_get VIOLATIONS vt); [|discriminate].
  cbn zeta. rewrite add_warning_eq. cbn zeta. by intros [= <- <- <-].
Qed.

Lemma details_columns (sel : list (string * (Z * Z * Z))) (issued : list Warning) :
  length sel = length issued →
  d_type <$> zip_with (λ s w, mkDetail s.1 (w_points w) w) sel issued = sel.*1
  ∧ d_warning <$> zip_with (λ s w, mkDetail s.1 (w_points w) w) sel issued = issued.
Proof.
  revert issued. induction sel as [|s sel IH]; intros [|w issued] Hlen;
    try done. cbn. injection Hlen as Hlen. destruct (IH issued Hlen) as [-> ->].
  done.
Qed.

(** What a record names after a warning is issued: one warning more for
    the user warned, and the same for everyone else. *)
Lemma stored_after_issue target f f' w u :
  consistent (document f) →
  w_id w = str (max_numeric_id (warnings (document f)) + 1) →
  warnings (document f') = <[w_id w := w]> (warnings (document f)) →
  users (document f')
  = <[str target :=
        mkUserRecord
          (total_points (default (mkUserRecord 0 [] [])
                           (users (document f) !! str target)) + w_points w)
          (u_warnings (default (mkUserRecord 0 [] [])
                         (users (document f) !! str target)) ++ [w_id w])
          (u_bans (default (mkUserRecord 0 [] [])
                     (users (document f) !! str target)))]>
      (users (document f)) →
  stored_warnings (document f') u
  = (stored_warnings (document f) u ++ (if decide (u = target) then [w] else []))%list.
Proof.
  intros [Hcons _] Hid Hws Hus.
  assert (warnings (document f) !! w_id w = None) as Hfresh.
  { rewrite Hid. apply next_id_fresh. }
  unfold stored_warnings. rewrite Hus, Hws.
  destruct (decide (u = target)) as [->|Hne].
  - rewrite lookup_insert_eq. cbn [u_warnings].
    rewrite omap_app. cbn [omap list_omap]. rewrite lookup_insert_eq.
    destruct (users (document f) !! str target) as [old|] eqn:Hold;
      cbn [default u_warnings]; [|done].
    f_equal. apply omap_insert_fresh; [|done].
    intros k Hk. by apply (Hcons _ _ Hold).
  - rewrite lookup_insert_ne by (by intros ?%str_inj). rewrite app_nil_r.
    destruct (users (document f) !! str u) as [user|] eqn:Hu; [|done].
    apply omap_insert_fresh; [|done]. intros k Hk. by apply (Hcons _ _ Hu).
Qed.

Lemma run_issues_stored target moderator clips sel f u :
  Forall (λ s : string * (Z * Z * Z), is_Some (dict_get VIOLATIONS s.1)) sel →
  consistent (document f) →
  stored_warnings (document (run (issues target moderator clips sel) f).1) u
  = (stored_warnings (document f) u
     ++ (if decide (u = target)
         then (run (issues target moderator clips sel) f).2 else []))%list.
Proof.
  intros Hsel. revert f.
  induction Hsel as [|[vt [[t1 t2] t3]] rest Hvt _ IH]; intros f Hcons.
  - cbn. destruct (decide (u = target)); by rewrite app_nil_r.
  - destruct (issue_known target moderator clips vt t1 t2 t3 f Hvt)
      as (w & f1 & Hissue & _ & Hid & Hws & _ & Hus).
    pose proof (exec_consistent (Issue target moderator clips vt t1 t2 t3) f Hcons)
      as Hcons1.
    cbn [issues fmap list_fmap run exec] in *. rewrite Hissue in *.
    fold (issues target moderator clips rest). cbn [fst] in Hcons1.
    specialize (IH f1 Hcons1).
    destruct (run (issues target moderator clips rest) f1) as [f2 issued2].
    cbn [fst snd] in *. rewrite IH.
    rewrite (stored_after_issue target f f1 w u Hcons Hid Hws Hus).
    rewrite <- app_assoc. by destruct (decide (u = target)).
Qed.

Lemma calculate_expiry_two_weeks vt t : t + timedelta_weeks 2 <= _calculate_expiry vt t.
Proof.
  unfold _calculate_expiry, timedelta_weeks, timedelta_days.
  destruct (_ =? 1); [lia|]. destruct (_ =? 2); lia.
Qed.

(** The callback on a selection of types of the table issues one warning
    for each, in the order of the selection: the details name the types,
    the points added are the points of the warnings, and the warnings get
    the next free numbers as ids and are stored under them as returned. *)
Theorem callback_issues_every_selected (target moderator : Z) (clips : list string)
    (sel : list (string * (Z * Z * Z))) (now_total : Z) (ban_message : option Z)
    (now_ban : Z) (f : File RawData) :
  Forall (λ s : string * (Z * Z * Z), is_Some (dict_get VIOLATIONS s.1)) sel →
  ∃ r f',
    callback target moderator clips sel now_total ban_message now_ban f
    = (Return r, f')
    ∧ d_type <$> warning_details r = sel.*1
    ∧ total_points_added r = sum_points (d_warning <$> warning_details r)
    ∧ ∀ i d, warning_details r !! i = Some d →
        d_points d = w_points (d_warning d)
        ∧ w_violation_type (d_warning d) = d_type d
        ∧ w_user_id (d_warning d) = target
        ∧ w_id (d_warning d)
          = str (max_numeric_id (warnings (document f)) + 1 + Z.of_nat i)
        ∧ warnings (document f') !! w_id (d_warning d) = Some (d_warning d).
Proof.
  intros Hsel.
  destruct (callback_known target moderator clips sel now_total ban_message
              now_ban f Hsel)
    as (issued & f1 & Hrun & Hall & _ & Hstored & _ & f' & Hcb & _ & Hws & _).
  pose proof (Forall2_length _ _ _ Hall) as Hlen.
  destruct (details_columns sel issued Hlen) as [Htypes Hwarnings].
  eexists _, f'. split; [exact Hcb|]. cbn [warning_details total_points_added].
  split; [done|]. split; [by rewrite Hwarnings|].
  intros i d Hd. apply lookup_zip_with_Some in Hd as (s & w & -> & Hs & Hw).
  cbn [d_points d_warning d_type].
  destruct (Forall2_lookup_lr _ _ _ _ _ _ Hall Hs Hw) as (Htype & Huser & _).
  split; [done|]. split; [done|]. split; [done|]. split.
  - destruct (run_ids (issues target moderator clips sel) (_ensure_db_exists f))
      as [_ Hids].
    rewrite Hrun, document_ensure_db_exists in Hids. by apply Hids.
  - rewrite Hws. apply Hstored. by eapply list_elem_of_lookup_2.
Qed.

Lemma callback_issues_every_selected_witness :
  ∃ r f',
    callback 7 1 [] [("NLR", (0, 0, 0)); ("Metagaming", (0, 0, 0))] 0 (Some 99) 0
             Missing
    = (Return r, f')
    ∧ d_type <$> warning_details r = ["NLR"; "Metagaming"]
    ∧ total_points_added r = sum_points (d_warning <$> warning_details r).
Proof.
  destruct (callback_issues_every_selected 7 1 []
              [("NLR", (0, 0, 0)); ("Metagaming", (0, 0, 0))] 0 (Some 99) 0 Missing)
    as (r & f' & Hcb & Htypes & Hsum & _).
  { repeat constructor; by eexists. }
  by exists r, f'.
Defined.

(** The action for the new total is not the written warning exactly from
    15 points on, the threshold of the callback. When it is not, and the
    request was posted in the ban request channel, the request is stored
    under the id of its message, pending, with the total and the action
    the callback reports. When the action is the written warning, or when
    the guild has no ban request channel, so that nothing is posted, the
    stored requests are as before, whatever the total. The total reported
    is the total of the file the callback leaves. *)
Theorem callback_requests_ban_from_15_points (target moderator : Z)
    (clips : list string) (sel : list (string * (Z * Z * Z))) (now_total : Z)
    (ban_message : option Z) (now_ban : Z) (f : File RawData) :
  Forall (λ s : string * (Z * Z * Z), is_Some (dict_get VIOLATIONS s.1)) sel →
  ∃ r f',
    callback target moderator clips sel now_total ban_message now_ban f
    = (Return r, f')
    ∧ cb_action r = get_punishment_action (cb_total_points r)
    ∧ (cb_action r ≠ "Written Warning" ↔ 15 <= cb_total_points r)
    ∧ get_user_points target now_total f' = Return (cb_total_points r)
    ∧ bans (document f')
      = match ban_message with
        | Some m =>
            if decide (cb_action r = "Written Warning") then bans (document f)
            else <[str m := mkBanRequest target (cb_total_points r) (cb_action r)
                              m now_ban pending None None]> (bans (document f))
        | None => bans (document f)
        end.
Proof.
  intros Hsel.
  destruct (callback_known target moderator clips sel now_total ban_message
              now_ban f Hsel)
    as (issued & f1 & _ & _ & _ & _ & Hbans1 & f' & Hcb & Hus & Hws & Hbans).
  eexists _, f'. split; [exact Hcb|]. cbn [cb_action cb_total_points].
  set (total := sum_points (filter (λ w, is_active now_total w = true)
                              (stored_warnings (document f1) target))) in *.
  assert (get_punishment_action total ≠ "Written Warning" ↔ 15 <= total) as Hdue.
  { generalize total. intros t. rewrite get_punishment_action_cases.
    assert (t <= 14 ∨ 15 <= t <= 24 ∨ 25 <= t <= 34 ∨ 35 <= t <= 44
            ∨ 45 <= t <= 59 ∨ 60 <= t <= 74 ∨ 75 <= t <= 89
            ∨ 90 <= t <= 99 ∨ 100 <= t) as Ht by lia.
    repeat destruct Ht as [Ht|Ht]; decide_cmp;
      (split; intros ?; first [lia|congruence]). }
  split; [done|]. split; [done|]. split.
  - rewrite get_user_points_eq. unfold stored_warnings. by rewrite Hus, Hws.
  - rewrite Hbans, Hbans1. destruct ban_message as [m|]; [|done].
    destruct (decide (get_punishment_action total = "Written Warning")) as [Hw|Hw].
    + rewrite (proj2 (Z.leb_gt 15 total)); [done|].
      destruct (Z.lt_ge_cases total 15); [done|]. by apply Hdue in Hw.
    + by rewrite (proj2 (Z.leb_le 15 total)) by (by apply Hdue).
Qed.

Lemma callback_requests_ban_from_15_points_witness :
  ∃ r f',
    callback 7 1 [] [("NITRP", (0, 0, 0))] 0 (Some 99) 0 Missing = (Return r, f')
    ∧ (cb_action r ≠ "Written Warning" ↔ 15 <= cb_total_points r).
Proof.
  destruct (callback_requests_ban_from_15_points 7 1 [] [("NITRP", (0, 0, 0))]
              0 (Some 99) 0 Missing)
    as (r & f' & Hcb & _ & Hdue & _).
  { repeat constructor; by eexists. }
  by exists r, f'.
Defined.

(** On a ledger whose records name stored warnings, and while none of the
    warnings just issued has expired (two weeks at least), the total the
    callback reports is the total the user had before plus the points
    added, and the totals of the other users are as before. *)
Theorem callback_total_is_before_plus_added (target moderator : Z)
    (clips : list string) (sel : list (string * (Z * Z * Z))) (now_total : Z)
    (ban_message : option Z) (now_ban : Z) (f : File RawData) :
  Forall (λ s : string * (Z * Z * Z), is_Some (dict_get VIOLATIONS s.1)) sel →
  consistent (document f) →
  Forall (λ s : string * (Z * Z * Z), now_total < s.2.2 + timedelta_weeks 2) sel →
  ∃ r f' before,
    callback target moderator clips sel now_total ban_message now_ban f
    = (Return r, f')
    ∧ get_user_points target now_total f = Return before
    ∧ cb_total_points r = before + total_points_added r
    ∧ ∀ other now, other ≠ target →
        get_user_points other now f' = get_user_points other now f.
Proof.
  intros Hsel Hcons Hfresh.
  destruct (callback_known target moderator clips sel now_total ban_message
              now_ban f Hsel)
    as (issued & f1 & Hrun & Hall & _ & _ & _ & f' & Hcb & Hus & Hws & _).
  assert (consistent (document (_ensure_db_exists f))) as Hcons0
    by (by rewrite document_ensure_db_exists).
  pose proof (λ u, run_issues_stored target moderator clips sel
                     (_ensure_db_exists f) u Hsel Hcons0) as Hstored.
  rewrite Hrun in Hstored. cbn [fst snd] in Hstored.
  rewrite document_ensure_db_exists in Hstored.
  eexists _, f', _. split; [exact Hcb|]. split; [apply get_user_points_eq|].
  cbn [cb_total_points total_points_added]. split.
  - rewrite Hstored, decide_True by done. rewrite filter_app, sum_points_app.
    do 2 f_equal. apply filter_all.
    clear -Hall Hfresh. induction Hall as [|s w sel issued (_ & _ & He & Hr) _ IH];
      [done|].
    apply Forall_cons in Hfresh as [Hs Hfresh]. constructor; [|by apply IH].
    unfold is_active. rewrite He, Hr. cbn [default negb].
    pose proof (calculate_expiry_two_weeks s.1 s.2.2).
    rewrite andb_true_r. apply Z.ltb_lt. lia.
  - intros other now Hne. rewrite !get_user_points_eq. do 3 f_equal.
    transitivity (stored_warnings (document f1) other).
    + unfold stored_warnings. by rewrite Hus, Hws.
    + rewrite Hstored, decide_False by done. apply app_nil_r.
Qed.

Lemma callback_total_is_before_plus_added_witness :
  ∃ r f' before,
    callback 7 1 [] [("NLR", (0, 0, 0)); ("NITRP", (1, 1, 1))] 2 (Some 99) 3 Missing
    = (Return r, f')
    ∧ get_user_points 7 2 Missing = Return before
    ∧ cb_total_points r = before + total_points_added r.
Proof.
  destruct (callback_total_is_before_plus_added 7 1 []
              [("NLR", (0, 0, 0)); ("NITRP", (1, 1, 1))] 2 (Some 99) 3 Missing)
    as (r & f' & before & Hcb & Hbefore & Htotal & _).
  { repeat constructor; by eexists. }
  { apply consistent_initial. }
  { repeat constructor; reflexivity. }
  by exists r, f', before.
Defined.

Lemma run_issues_points target moderator clips sel f base extra :
  Forall (λ s : string * (Z * Z * Z), is_Some (dict_get VIOLATIONS s.1)) sel →
  NoDup sel.*1 →
  consistent (document f) →
  stored_warnings (document f) target = (base ++ extra)%list →
  Forall (λ w, w_violation_type w ∉ sel.*1) extra →
  Forall2 (λ s w,
             w_points w
             = calculate_points s.1
                 (Z.of_nat (length (filter (λ w, w_violation_type w = s.1)
                                      (filter (λ w, is_active s.2.1.1 w = true) base)))))
          sel (run (issues target moderator clips sel) f).2.
Proof.
  intros Hsel. revert f extra.
  induction Hsel as [|[vt [[t1 t2] t3]] rest Hvt _ IH]; intros f extra Hnd Hcons Hst Hex.
  - constructor.
  - destruct (issue_known target moderator clips vt t1 t2 t3 f Hvt)
      as (w & f1 & Hissue & (Htype & _) & Hid & Hws & _ & Hus).
    pose proof (exec_consistent (Issue target moderator clips vt t1 t2 t3) f Hcons)
      as Hcons1.
    pose proof (issue_points _ _ _ _ _ _ _ _ _ _ _ Hissue) as Hpoints.
    pose proof (stored_after_issue target f f1 w target Hcons Hid Hws Hus) as Hst1.
    rewrite decide_True in Hst1 by done. rewrite Hst, <- app_assoc in Hst1.
    cbn [fmap list_fmap fst] in Hnd. apply NoDup_cons in Hnd as [Hvt_new Hnd].
    cbn [issues fmap list_fmap run exec] in *. rewrite Hissue in *.
    fold (issues target moderator clips rest). cbn [fst] in Hcons1.
    specialize (IH f1 (extra ++ [w])%list Hnd Hcons1 Hst1).
    destruct (run (issues target moderator clips rest) f1) as [f2 issued2].
    cbn [fst snd app] in *. constructor.
    + rewrite Hpoints, Hst. cbn [fst snd]. rewrite !filter_app, length_app.
      assert (filter (λ w0, w_violation_type w0 = vt)
                (filter (λ w0, is_active t1 w0 = true) extra) = []) as ->.
      { apply filter_none, Forall_forall.
        intros w0 [_ Hw0]%list_elem_of_filter Heq.
        apply (proj1 (Forall_forall _ _) Hex w0 Hw0). rewrite Heq.
        apply elem_of_cons. by left. }
      cbn [length]. by rewrite Nat.add_0_r.
    + apply IH. apply Forall_app. split.
      * eapply Forall_impl; [exact Hex|]. intros w0 Hw0 Hin. apply Hw0.
        apply elem_of_cons. by right.
      * constructor; [by rewrite Htype|constructor].
Qed.

(** The types of a selection are distinct (a menu offers each once). On a
    ledger whose records name stored warnings, each of them then gets the
    points it would get alone: the base points plus the repeat penalty for
    every warning of its type the user had active before the callback,
    whatever else is selected with it and in whatever order. *)
Theorem callback_points_as_if_selected_alone (target moderator : Z)
    (clips : list string) (sel : list (string * (Z * Z * Z))) (now_total : Z)
    (ban_message : option Z) (now_ban : Z) (f : File RawData) :
  Forall (λ s : string * (Z * Z * Z), is_Some (dict_get VIOLATIONS s.1)) sel →
  NoDup sel.*1 →
  consistent (document f) →
  ∃ r f',
    callback target moderator clips sel now_total ban_message now_ban f
    = (Return r, f')
    ∧ ∀ i s d, sel !! i = Some s → warning_details r !! i = Some d →
        ∃ ws,
          get_user_warnings target s.2.1.1 f = Return ws
          ∧ d_points d
            = calculate_points s.1
                (Z.of_nat (length (filter (λ w, w_violation_type w = s.1) ws))).
Proof.
  intros Hsel Hnd Hcons.
  destruct (callback_known target moderator clips sel now_total ban_message
              now_ban f Hsel)
    as (issued & f1 & Hrun & _ & _ & _ & _ & f' & Hcb & _).
  assert (consistent (document (_ensure_db_exists f))) as Hcons0
    by (by rewrite document_ensure_db_exists).
  pose proof (run_issues_points target moderator clips sel (_ensure_db_exists f)
                (stored_warnings (document f) target) [] Hsel Hnd Hcons0) as Hpoints.
  rewrite Hrun, document_ensure_db_exists, app_nil_r in Hpoints.
  specialize (Hpoints eq_refl (Forall_nil_2 _)). cbn [snd] in Hpoints.
  eexists _, f'. split; [exact Hcb|]. cbn [warning_details].
  intros i s d Hs Hd. apply lookup_zip_with_Some in Hd as (s' & w & -> & Hs' & Hw).
  assert (s' = s) as -> by congruence. cbn [d_points].
  rewrite get_user_warnings_eq. eexists. split; [reflexivity|].
  rewrite (Forall2_lookup_lr _ _ _ _ _ _ Hpoints Hs Hw).
  by rewrite sorted_reverse_Permutation.
Qed.

Lemma callback_points_as_if_selected_alone_witness :
  ∃ r f',
    callback 7 1 [] [("NLR", (0, 0, 0)); ("NITRP", (1, 1, 1))] 2 None 3 Missing
    = (Return r, f')
    ∧ d_points <$> warning_details r = [10; 30].
Proof.
  destruct (callback_points_as_if_selected_alone 7 1 []
              [("NLR", (0, 0, 0)); ("NITRP", (1, 1, 1))] 2 None 3 Missing)
    as (r & f' & Hcb & _).
  { repeat constructor; by eexists. }
  { cbn. repeat (apply NoDup_cons_2;
                 [rewrite ?elem_of_cons, elem_of_nil; intros H;
                  repeat destruct H as [H|H]; discriminate || contradiction|]).
    apply NoDup_nil_2. }
  { apply consistent_initial. }
  exists r, f'. split; [done|]. vm_compute in Hcb. by injection Hcb as <- _.
Defined.

End CallbackFacts.

(** * The license command *)

Section LicenseCommandFacts.
Import Py PyMore LicenseManager LicenseLedger Commands.

Lemma license_document_ensure f : document (_ensure_db_exists f) = document f.
Proof. by destruct f. Qed.

Lemma length_lower s : String.length (lower s) = String.length s.
Proof. induction s as [|c s IH]; [done|]. simpl. by rewrite IH. Qed.

Lemma truthy_lower s : truthy (lower s) = truthy s.
Proof. by destruct s. Qed.

(** The command in cases: what it answers, and what it leaves in the file. *)
Lemma license_command_cases permitted action user_id license_key note
    moderator_id now_1 now_2 f :
  ∃ a f',
    license_command permitted action user_id license_key note moderator_id
                    now_1 now_2 f = Return (a, f')
    ∧ ((document f' = document f
        ∧ match a with
          | NoPermission | InvalidAction | LicenseKeyRequired
          | InvalidLicenseFormat => True
          | LicenseAlreadyAssigned id =>
              id ≠ user_id
              ∧ ∃ k info, license_key = Some k
                          ∧ license_users (document f) !! lower k = Some info
                          ∧ l_user_id info = id
          | NoLicenseFound => user_licenses (document f) !! str user_id = None
          | LicenseInfoFor info => info = user_licenses (document f) !! str user_id
          | _ => False
          end)
       ∨ (a = LicenseAdded
          ∧ ∃ k, license_key = Some k ∧ checked_key (lower k)
                 ∧ f' = exec (AddLicense user_id (lower k) moderator_id note
                                         now_1 now_2) (_ensure_db_exists f)
                 ∧ document f'
                   = {| user_licenses :=
                          <[str user_id :=
                              mkLicenseInfo (lower k) user_id moderator_id now_1 note]>
                            (user_licenses (document f));
                        license_users :=
                          <[lower k :=
                              mkLicenseInfo (lower k) user_id moderator_id now_1 note]>
                            match user_licenses (document f) !! str user_id with
                            | Some old => delete (l_license old)
                                                 (license_users (document f))
                            | None => license_users (document f)
                            end;
                        license_history :=
                          license_history (document f)
                          ++ [mkHistoryEntry add user_id (lower k) moderator_id
                                             now_2 (Some note) None] |})
       ∨ (a = LicenseRemoved
          ∧ ∃ info, user_licenses (document f) !! str user_id = Some info
                    ∧ f' = exec (RemoveLicense user_id moderator_id
                                   (if truthy note then note else "Manual removal")
                                   now_1) (_ensure_db_exists f)
                    ∧ document f'
                      = {| user_licenses :=
                             delete (str user_id) (user_licenses (document f));
                           license_users :=
                             delete (l_license info) (license_users (document f));
                           license_history :=
                             license_history (document f)
                             ++ [mkHistoryEntry remove user_id (l_license info)
                                   moderator_id now_1 None
                                   (Some (if truthy note then note
                                          else "Manual removal"))] |})).
Proof.
  unfold license_command.
  destruct permitted; cbn [negb]; [|eexists _, _; split; [reflexivity|by left]].
  destruct (bool_decide (lower action ∈ ["add"; "remove"; "check"])) eqn:Hact;
    cbn [negb]; [|eexists _, _; split; [reflexivity|by left]].
  pose proof (license_document_ensure f) as Hens.
  destruct (String.eqb (lower action) "add") eqn:Hadd.
  - destruct license_key as [k|];
      [|eexists _, _; split; [reflexivity|by left]].
    destruct (truthy k); cbn [negb];
      [|eexists _, _; split; [reflexivity|by left]].
    destruct ((String.length k =? 40)%nat && all_hex (lower k)) eqn:Hkey;
      cbn [negb]; [|eexists _, _; split; [reflexivity|by left]].
    apply andb_true_iff in Hkey as [Hlen%Nat.eqb_eq Hhex].
    rewrite add_license_eq. cbn zeta. rewrite Hens.
    destruct (license_users (document f) !! lower k) as [existing|] eqn:Hex.
    + destruct (Z.eqb_spec (l_user_id existing) user_id) as [Heq|Hne]; cbn [negb].
      * cbn. eexists _, _. split; [reflexivity|]. right. left. split; [done|].
        exists k. split; [done|]. split; [by split; [rewrite length_lower|]|].
        split; [|done]. unfold exec. rewrite add_license_eq. cbn zeta.
        rewrite Hens, Hex. by rewrite (proj2 (Z.eqb_eq _ _) Heq).
      * cbn. unfold get_license_user. rewrite license_load_data_document, Hens.
        cbn. rewrite Hex. eexists _, _. split; [reflexivity|]. left.
        split; [done|]. split; [done|]. by exists k, existing.
    + cbn. eexists _, _. split; [reflexivity|]. right. left. split; [done|].
      exists k. split; [done|]. split; [by split; [rewrite length_lower|]|].
      split; [|done]. unfold exec. rewrite add_license_eq. cbn zeta.
      by rewrite Hens, Hex.
  - destruct (String.eqb (lower action) "remove") eqn:Hrem.
    + rewrite remove_license_eq. cbn zeta. rewrite Hens.
      destruct (user_licenses (document f) !! str user_id) as [info|] eqn:Hu.
      * cbn. eexists _, _. split; [reflexivity|]. right. right. split; [done|].
        exists info. split; [done|]. split; [|done].
        unfold exec. rewrite remove_license_eq. cbn zeta. by rewrite Hens, Hu.
      * cbn. eexists _, _. split; [reflexivity|]. by left.
    + unfold get_user_license. rewrite license_load_data_document, Hens. cbn.
      eexists _, _. split; [reflexivity|]. by left.
Qed.

(** The command always answers, never with the embed for an unexplained
    error, and its answer tells what is in the file afterwards: after
    [LicenseAdded] the user and the key, in lower case, look each other up;
    after [LicenseRemoved] the user has no license; [LicenseAlreadyAssigned]
    names the holder of the key, who is another user; and every other answer
    leaves the document as it was. *)
Theorem license_command_answer_tells_the_file (permitted : bool) (action : string)
    (user_id : Z) (license_key : option string) (note : string)
    (moderator_id now_1 now_2 : Z) (f : File Data) :
  ∃ a f',
    license_command permitted action user_id license_key note moderator_id
                    now_1 now_2 f = Return (a, f')
    ∧ a ≠ ErrorAddingLicense
    ∧ match a with
      | LicenseAdded =>
          ∃ k, license_key = Some k
               ∧ get_user_license user_id f'
                 = Return (Some (mkLicenseInfo (lower k) user_id moderator_id
                                               now_1 note))
               ∧ get_license_user (lower k) f'
                 = Return (Some (mkLicenseInfo (lower k) user_id moderator_id
                                               now_1 note))
      | LicenseRemoved =>
          (∃ info, get_user_license user_id f = Return (Some info)
                   ∧ get_license_user (l_license info) f' = Return None)
          ∧ get_user_license user_id f' = Return None
      | LicenseAlreadyAssigned id =>
          id ≠ user_id ∧ document f' = document f
          ∧ ∃ k info, license_key = Some k
                      ∧ get_license_user (lower k) f = Return (Some info)
                      ∧ l_user_id info = id
      | NoLicenseFound =>
          document f' = document f ∧ get_user_license user_id f = Return None
      | LicenseInfoFor info =>
          document f' = document f ∧ get_user_license user_id f = Return info
      | _ => document f' = document f
      end.
Proof.
  destruct (license_command_cases permitted action user_id license_key note
              moderator_id now_1 now_2 f)
    as (a & f' & Hcmd & [[Hdoc Ha]|[[-> (k & -> & _ & _ & Hdoc)]
                                   |[-> (info & Hu & _ & Hdoc)]]]).
  - exists a, f'. split; [done|]. split; [by intros ->|].
    unfold get_user_license, get_license_user.
    rewrite !license_load_data_document. cbn.
    destruct a; try done.
    + destruct Ha as (Hne & k & info & -> & Hk & Hid). split; [done|].
      split; [done|]. exists k, info. by rewrite Hk.
    + by rewrite Ha.
    + by rewrite Ha.
  - exists LicenseAdded, f'. split; [done|]. split; [done|]. exists k.
    split; [done|]. unfold get_user_license, get_license_user.
    rewrite license_load_data_document, Hdoc. cbn.
    by rewrite !lookup_insert_eq.
  - exists LicenseRemoved, f'. split; [done|]. split; [done|].
    unfold get_user_license, get_license_user. split.
    + exists info. rewrite !license_load_data_document, Hdoc. cbn.
      rewrite Hu. split; [done|]. by rewrite lookup_delete_eq.
    + rewrite license_load_data_document, Hdoc. cbn.
      by rewrite lookup_delete_eq.
Qed.

Lemma license_call_keys_checked f c :
  keys_checked (document f) → keys_checked (document (license_call f c)).
Proof.
  intros (Hl & Hu & Hh). unfold license_call.
  destruct (license_command_cases (c_permitted c) (c_action c) (c_user_id c)
              (c_license_key c) (c_note c) (c_moderator_id c) (c_now_1 c)
              (c_now_2 c) f)
    as (a & f' & -> & [[-> _]|[[_ (k & _ & Hk & _ & ->)]|[_ (info & Hi & _ & ->)]]]);
    [done| |]; unfold keys_checked;
    cbn [user_licenses license_users license_history].
  - split; [|split].
    + intros k' info'. destruct (decide (k' = lower k)) as [->|Hne].
      * by rewrite lookup_insert_eq.
      * rewrite lookup_insert_ne by done.
        destruct (user_licenses (document f) !! str (c_user_id c)).
        -- intros [_ Hk']%lookup_delete_Some. by eapply Hl.
        -- by apply Hl.
    + intros u info'. destruct (decide (u = str (c_user_id c))) as [->|Hne].
      * rewrite lookup_insert_eq. by intros [= <-].
      * rewrite lookup_insert_ne by done. by apply Hu.
    + intros h [Hin|Hin]%elem_of_app; [by apply Hh|].
      by apply list_elem_of_singleton in Hin as ->.
  - split; [|split].
    + intros k' info' [_ Hk']%lookup_delete_Some. by eapply Hl.
    + intros u info' [_ Hu']%lookup_delete_Some. by eapply Hu.
    + intros h [Hin|Hin]%elem_of_app; [by apply Hh|].
      apply list_elem_of_singleton in Hin as ->. by eapply Hu.
Qed.

Lemma license_call_one_to_one f c :
  one_to_one (document f) → one_to_one (document (license_call f c)).
Proof.
  intros Hone. unfold license_call.
  destruct (license_command_cases (c_permitted c) (c_action c) (c_user_id c)
              (c_license_key c) (c_note c) (c_moderator_id c) (c_now_1 c)
              (c_now_2 c) f)
    as (a & f' & -> & [[-> _]|[[_ (k & _ & _ & -> & _)]|[_ (info & _ & -> & _)]]]);
    [done| |].
  - apply add_license_one_to_one. by rewrite license_document_ensure.
  - apply remove_license_one_to_one. by rewrite license_document_ensure.
Qed.

(** Whatever is asked of the command and however often, starting from a
    file whose keys are 40 characters out of [0-9a-f] and whose two indexes
    agree (a missing file is one), every key in the file stays such a key,
    in the indexes and in the history, and the indexes keep agreeing. *)
Theorem license_calls_keep_keys_checked (calls : list LicenseCall) (f : File Data) :
  keys_checked (document f) → one_to_one (document f) →
  keys_checked (document (license_calls calls f))
  ∧ one_to_one (document (license_calls calls f)).
Proof.
  unfold license_calls. revert f.
  induction calls as [|c calls IH]; intros f Hk Ho; [done|].
  cbn [foldl]. apply IH; [by apply license_call_keys_checked
                         |by apply license_call_one_to_one].
Qed.

Lemma license_calls_keep_keys_checked_witness :
  keys_checked
    (document (license_calls
                 [mkLicenseCall true "ADD" 7
                    (Some "0123456789ABCDEF0123456789abcdef01234567") "" 1 0 0;
                  mkLicenseCall true "add" 8 (Some "xyz") "" 1 0 0]
                 Missing))
  ∧ one_to_one
      (document (license_calls
                   [mkLicenseCall true "ADD" 7
                      (Some "0123456789ABCDEF0123456789abcdef01234567") "" 1 0 0;
                    mkLicenseCall true "add" 8 (Some "xyz") "" 1 0 0]
                   Missing)).
Proof.
  apply license_calls_keep_keys_checked.
  - split; [|split].
    + intros k info Hk. cbn in Hk. by rewrite lookup_empty in Hk.
    + intros u info Hu. cbn in Hu. by rewrite lookup_empty in Hu.
    + intros h Hh. cbn in Hh. by apply elem_of_nil in Hh.
  - apply one_to_one_initial.
Defined.

(** Letter case does not matter to the command: an action and a key are
    taken as their lower-case forms. *)
Theorem license_command_ignores_case (permitted : bool) (action : string)
    (user_id : Z) (license_key : option string) (note : string)
    (moderator_id now_1 now_2 : Z) (f : File Data) :
  license_command permitted action user_id license_key note moderator_id
                  now_1 now_2 f
  = license_command permitted (lower action) user_id (lower <$> license_key) note
                    moderator_id now_1 now_2 f.
Proof.
  unfold license_command. rewrite (lower_idempotent action).
  destruct license_key as [k|]; [|done]. cbn [fmap option_fmap option_map].
  by rewrite (lower_idempotent k), length_lower, truthy_lower.
Qed.

End LicenseCommandFacts.

(** * The commands that look things up *)

Section LookupFacts.
Import Py PyMore Database Ledger Views.

(** [/warnings] shows the hundred newest warnings of the user, removed
    ones too, from the first page on, on twenty pages at most; it sends the
    buttons with the message exactly when there are more than five. *)
Theorem warnings_command_shows_newest_100 (user_id : Z) (f : File RawData) :
  ∃ view attached f',
    warnings_command user_id f = Return (view, attached, f')
    ∧ document f' = document f
    ∧ v_warnings view
      = take 100 (sorted_reverse w_timestamp (stored_warnings (document f) user_id))
    ∧ current_page view = 0
    ∧ 1 <= max_pages view <= 20
    ∧ (attached = true ↔ (5 < length (v_warnings view))%nat)
    ∧ (attached = true ↔ update_buttons view ≠ []).
Proof.
  unfold warnings_command. rewrite find_warnings_by_user_eq.
  rewrite document_ensure_db_exists.
  assert (∀ l : list Warning, slice_to l 100 = take 100 l) as -> by done.
  remember (take 100 (sorted_reverse w_timestamp
                        (stored_warnings (document f) user_id))) as ws eqn:Hws.
  assert (length ws <= 100)%nat as Hlen.
  { rewrite Hws, length_take. lia. }
  eexists _, _, _. split; [reflexivity|].
  split; [apply document_ensure_db_exists|]. split; [done|]. split; [done|].
  destruct (max_pages_init ws) as (H1 & H2 & H3 & H4).
  assert (v_warnings (__init__ ws) = ws) as -> by done.
  assert (ws = [] ∧ max_pages (__init__ ws) = 1
          ∨ 5 * (max_pages (__init__ ws) - 1) < Z.of_nat (length ws)) as Hcase.
  { destruct ws as [|w ws']; [by left|]. right. by apply H4. }
  split; [destruct Hcase as [[_ ->]|?]; lia|]. split.
  - rewrite Z.ltb_lt. destruct Hcase as [[-> ->]|?]; [simpl; lia|lia].
  - unfold update_buttons. by destruct (1 <? max_pages (__init__ ws)).
Qed.

End LookupFacts.

Section LicenseLookupFacts.
Import Py PyMore LicenseManager LicenseLedger Commands.

(** What [/licenselookup] answers follows what [/license] did: a key just
    added is found, in whatever case it is asked for, with the user it was
    added for; the key of a license just removed is not found any more. *)
Theorem license_lookup_follows_license_command (permitted : bool)
    (action : string) (user_id : Z) (license_key : option string) (note : string)
    (moderator_id now_1 now_2 : Z) (f : File Data) (a : Answer) (f' : File Data) :
  keys_checked (document f) →
  license_command permitted action user_id license_key note moderator_id
                  now_1 now_2 f = Return (a, f') →
  match a with
  | LicenseAdded =>
      ∀ k query, license_key = Some k → lower query = lower k →
        license_lookup_command query f'
        = Return (LicenseDetails (mkLicenseInfo (lower k) user_id moderator_id
                                                now_1 note), f')
  | LicenseRemoved =>
      ∀ info, get_user_license user_id f = Return (Some info) →
        license_lookup_command (l_license info) f' = Return (LicenseNotFound, f')
  | _ => True
  end.
Proof.
  intros (_ & Hchecked & _) Hcmd.
  destruct (license_command_cases permitted action user_id license_key note
              moderator_id now_1 now_2 f)
    as (a0 & f0 & Hcmd0 & Hcases).
  rewrite Hcmd in Hcmd0. injection Hcmd0 as <- <-.
  destruct Hcases as [[_ Ha]|[[-> (k & -> & [Hlen Hhex] & Hf' & Hdoc)]
                             |[-> (info & Hu & Hf' & Hdoc)]]].
  - by destruct a.
  - intros k' query [= <-] Hq. unfold license_lookup_command.
    assert (_ensure_db_exists f' = f') as ->.
    { rewrite Hf'. unfold exec. rewrite add_license_eq. cbn zeta.
      by destruct (match license_users _ !! lower k with
                   | Some _ => _ | None => _ end), f. }
    rewrite <- (length_lower query), Hq, Hlen, Hhex.
    assert ((40 =? 40)%nat = true) as -> by reflexivity. cbn [andb].
    unfold get_license_user. rewrite license_load_data_document, Hdoc. cbn.
    by rewrite lookup_insert_eq.
  - intros info' Hinfo. unfold get_user_license in Hinfo.
    rewrite license_load_data_document in Hinfo. cbn in Hinfo.
    rewrite Hu in Hinfo. injection Hinfo as <-.
    destruct (Hchecked _ _ Hu) as [Hlen Hhex].
    unfold license_lookup_command.
    assert (_ensure_db_exists f' = f') as ->.
    { rewrite Hf'. unfold exec. rewrite remove_license_eq. cbn zeta.
      rewrite license_document_ensure, Hu. done. }
    assert (lower (l_license info) = l_license info) as Hlow.
    { clear -Hhex. induction (l_license info) as [|c s IH]; [done|].
      cbn [all_hex] in Hhex. apply andb_true_iff in Hhex as [Hc Hs].
      cbn [lower]. rewrite (IH Hs). f_equal.
      unfold is_hex_char in Hc. unfold lower_char.
      destruct (((65 <=? nat_of_ascii c) && (nat_of_ascii c <=? 90))%nat) eqn:Hup;
        [|done].
      apply andb_true_iff in Hup as [H1%Nat.leb_le H2%Nat.leb_le].
      apply orb_true_iff in Hc as [Hc|Hc];
        apply andb_true_iff in Hc as [H3%Nat.leb_le H4%Nat.leb_le]; lia. }
    rewrite Hlow, Hlen, Hhex.
    assert ((40 =? 40)%nat = true) as -> by reflexivity. cbn [andb].
    unfold get_license_user. rewrite license_load_data_document, Hdoc. cbn.
    by rewrite lookup_delete_eq.
Qed.

Lemma license_lookup_follows_license_command_witness :
  ∃ f',
    license_command true "add" 7 (Some "0123456789abcdef0123456789ABCDEF01234567")
                    "" 1 0 0 Missing = Return (LicenseAdded, f')
    ∧ license_lookup_command "0123456789ABCDEF0123456789ABCDEF01234567" f'
      = Return (LicenseDetails
                  (mkLicenseInfo "0123456789abcdef0123456789abcdef01234567" 7 1 0 ""),
                f').
Proof.
  eexists. split; [vm_compute; reflexivity|].
  refine (license_lookup_follows_license_command true "add" 7
            (Some "0123456789abcdef0123456789ABCDEF01234567") "" 1 0 0 Missing
            LicenseAdded _ _ _
            "0123456789abcdef0123456789ABCDEF01234567"
            "0123456789ABCDEF0123456789ABCDEF01234567" eq_refl eq_refl).
  - split; [|split].
    + intros k info Hk. cbn in Hk. by rewrite lookup_empty in Hk.
    + intros u info Hu. cbn in Hu. by rewrite lookup_empty in Hu.
    + intros h Hh. cbn in Hh. by apply elem_of_nil in Hh.
  - vm_compute. reflexivity.
Defined.

End LicenseLookupFacts.

(** * The text of the evidence clips *)

Section ClipFacts.
Import Py PyMore Clips.
Variable is_valid_url : string → bool.

Lemma truthy_lstrip s :
  truthy (lstrip s) = negb (forallb is_space_char (list_ascii_of_string s)).
Proof.
  induction s as [|c s IH]; [done|]. cbn [lstrip list_ascii_of_string forallb].
  by destruct (is_space_char c).
Qed.

Lemma all_space_rstrip s :
  forallb is_space_char (list_ascii_of_string (rstrip s))
  = forallb is_space_char (list_ascii_of_string s).
Proof.
  induction s as [|c s IH]; [done|]. cbn [rstrip list_ascii_of_string forallb].
  rewrite <- IH. destruct (rstrip s) as [|c' r].
  - cbn [list_ascii_of_string forallb]. rewrite andb_true_r.
    destruct (is_space_char c) eqn:Hc; cbn [list_ascii_of_string forallb];
      [done|by rewrite Hc].
  - done.
Qed.

Lemma truthy_strip s :
  truthy (strip s) = negb (forallb is_space_char (list_ascii_of_string s)).
Proof. unfold strip. by rewrite truthy_lstrip, all_space_rstrip. Qed.

Lemma valid_clip_iff c :
  truthy c && truthy (strip c) = true
  ↔ ∃ a, a ∈ list_ascii_of_string c ∧ is_space_char a = false.
Proof.
  rewrite truthy_strip. split.
  - intros [_ Hc]%andb_true_iff. apply negb_true_iff in Hc.
    induction (list_ascii_of_string c) as [|a l IH]; [done|].
    cbn [forallb] in Hc. apply andb_false_iff in Hc as [Ha|Hl].
    + exists a. split; [apply elem_of_cons; by left|done].
    + destruct (IH Hl) as (b & Hb & Hsp). exists b.
      split; [apply elem_of_cons; by right|done].
  - intros (a & Ha & Hsp). apply andb_true_iff. split.
    + destruct c; [by apply elem_of_nil in Ha|done].
    + apply negb_true_iff.
      induction (list_ascii_of_string c) as [|b l IH];
        [by apply elem_of_nil in Ha|].
      cbn [forallb]. apply elem_of_cons in Ha as [<-|Ha].
      * by rewrite Hsp.
      * rewrite (IH Ha). apply andb_false_r.
Qed.

Lemma truthy_append x y : truthy (String.append x y) = truthy x || truthy y.
Proof. destruct x; [by rewrite append_Empty|by rewrite append_String]. Qed.

Lemma truthy_join sep x l : truthy x = true → truthy (join sep (x :: l)) = true.
Proof.
  intros Hx. destruct l; cbn [join]; [done|]. by rewrite truthy_append, Hx.
Qed.

Lemma length_url_text (l : list string) :
  (length (filter (λ clip, is_valid_url clip = true) l)
   + length (filter (λ clip, is_valid_url clip = false) l))%nat = length l.
Proof.
  induction l as [|c l IH]; [done|]. rewrite !filter_cons.
  destruct (is_valid_url c) eqn:Hc.
  - rewrite decide_True, decide_False by done. simpl. lia.
  - rewrite decide_False, decide_True by done. simpl. lia.
Qed.

Lemma formatted_clips_truthy clips :
  Forall (λ piece, truthy piece = true) (formatted_clips is_valid_url clips).
Proof.
  unfold formatted_clips. apply Forall_app. split; apply Forall_forall.
  - intros piece (i & clip & -> & _)%elem_of_lookup_imap.
    destruct (_ =? 1)%nat; by rewrite truthy_append.
  - intros piece (i & clip & -> & Hclip)%elem_of_lookup_imap.
    destruct (_ =? 1)%nat.
    + apply list_elem_of_lookup_2, list_elem_of_filter in Hclip as [_ Hclip].
      apply list_elem_of_filter in Hclip as [Hclip _].
      by apply andb_true_iff in Hclip as [? _].
    + rewrite !truthy_append. apply orb_true_iff. right. done.
Qed.

(** A clip counts when it has a character that is not white space. The
    text is made of one piece for each clip that counts and is empty
    exactly when no clip counts; clips that do not count change nothing. *)
Theorem format_clip_text_one_piece_per_clip (clips : list string)
    (use_newlines : bool) :
  (∀ c, c ∈ valid_clips clips
        ↔ c ∈ clips ∧ ∃ a, a ∈ list_ascii_of_string c ∧ is_space_char a = false)
  ∧ length (formatted_clips is_valid_url clips) = length (valid_clips clips)
  ∧ (format_clip_text is_valid_url clips use_newlines = "" ↔ valid_clips clips = [])
  ∧ format_clip_text is_valid_url (valid_clips clips) use_newlines
    = format_clip_text is_valid_url clips use_newlines.
Proof.
  assert (length (formatted_clips is_valid_url clips) = length (valid_clips clips))
    as Hlen.
  { unfold formatted_clips. rewrite length_app, !length_imap.
    apply length_url_text. }
  split; [|split; [done|split]].
  - intros c. unfold valid_clips. rewrite list_elem_of_filter, valid_clip_iff. tauto.
  - unfold format_clip_text. split.
    + intros Hempty. destruct clips as [|c0 clips0]; [done|].
      destruct (valid_clips (c0 :: clips0)) as [|v vs] eqn:Hv; [done|].
      pose proof (formatted_clips_truthy (c0 :: clips0)) as Hall.
      destruct (formatted_clips is_valid_url (c0 :: clips0)) as [|p ps];
        [discriminate Hlen|].
      apply Forall_cons in Hall as [Hp _].
      apply (truthy_join (if use_newlines then String "010" "" else ", ") p ps)
        in Hp.
      by rewrite Hempty in Hp.
    + intros ->. by destruct clips.
  - assert (valid_clips (valid_clips clips) = valid_clips clips) as Hidem.
    { unfold valid_clips. rewrite list_filter_filter. apply list_filter_iff.
      tauto. }
    unfold format_clip_text, formatted_clips. rewrite Hidem.
    destruct (valid_clips clips) as [|v vs] eqn:Hv; [by destruct clips|].
    by destruct clips.
Qed.

(** One clip that counts is shown without a number: as the link [Clip]
    when it is a URL, and as it is when it is not. *)
Theorem format_clip_text_single_clip (clips : list string) (c : string)
    (use_newlines : bool) :
  valid_clips clips = [c] →
  format_clip_text is_valid_url clips use_newlines
  = if is_valid_url c then String.append "[Clip](" (String.append c ")") else c.
Proof.
  intros Hv. unfold format_clip_text, formatted_clips. rewrite Hv.
  destruct clips as [|c0 clips0]; [done|]. rewrite !filter_cons, !filter_nil.
  destruct (is_valid_url c) eqn:Hc.
  - rewrite decide_True, decide_False by done. by destruct use_newlines.
  - rewrite decide_False, decide_True by done. by destruct use_newlines.
Qed.

End ClipFacts.

Lemma format_clip_text_single_clip_witness :
  Clips.valid_clips ["  "; "clip one"; ""] = ["clip one"]
  ∧ Clips.format_clip_text (λ _, false) ["  "; "clip one"; ""] true = "clip one".
Proof.
  split; [reflexivity|].
  apply (format_clip_text_single_clip (λ _, false) ["  "; "clip one"; ""]
           "clip one" true).
  reflexivity.
Defined.

(** * The pattern of a URL *)

Section RegexFacts.
Import Py PyMore Regex.

Lemma matches_Never s : matches Never s = false.
Proof. induction s as [|a s IH]; [done|]. exact IH. Qed.

Lemma matches_Alt_alt s :
  ∀ r1 r2,
    matches (Alt r1 r2) s = matches r1 s || matches r2 s
    ∧ matches (alt r1 r2) s = matches r1 s || matches r2 s.
Proof.
  induction s as [|a s IH]; intros r1 r2.
  - split; [done|]. destruct r1, r2; try done; cbn; by rewrite ?orb_false_r.
  - assert (matches (Alt r1 r2) (a :: s)
            = matches r1 (a :: s) || matches r2 (a :: s)) as HAlt.
    { cbn [matches deriv]. apply IH. }
    split; [done|].
    destruct r1, r2; try exact HAlt; cbn [alt];
      rewrite ?(matches_Never (a :: s)), ?orb_false_r; done.
Qed.

Lemma matches_Alt r1 r2 s :
  matches (Alt r1 r2) s = matches r1 s || matches r2 s.
Proof. apply matches_Alt_alt. Qed.

Lemma matches_alt r1 r2 s :
  matches (alt r1 r2) s = matches r1 s || matches r2 s.
Proof. apply matches_Alt_alt. Qed.

Lemma matches_Seq_Never_l r s : matches (Seq Never r) s = false.
Proof. destruct s as [|a s]; [done|]. cbn. apply matches_Never. Qed.

Lemma matches_Seq_Never_r r s : matches (Seq r Never) s = false.
Proof.
  destruct s as [|a s]; [cbn; apply andb_false_r|]. cbn [matches deriv].
  assert (∀ x, seq x Never = Never) as Hseq by (by intros []).
  rewrite Hseq. destruct (nullable r); cbn; apply matches_Never.
Qed.

Lemma matches_Seq_Empty_l r s : matches (Seq Empty r) s = matches r s.
Proof. destruct s as [|a s]; [done|]. cbn. by destruct (deriv a r). Qed.

Lemma matches_seq r1 r2 s : matches (seq r1 r2) s = matches (Seq r1 r2) s.
Proof.
  destruct r1, r2; try done; cbn [seq];
    rewrite ?matches_Seq_Never_l, ?matches_Seq_Never_r, ?matches_Seq_Empty_l,
      ?matches_Never; done.
Qed.

(** The matcher computes the language of the pattern: a sequence matches
    the texts that split into a match of each part. *)
Lemma matches_Seq r1 r2 s :
  matches (Seq r1 r2) s = true
  ↔ ∃ s1 s2, s = (s1 ++ s2)%list ∧ matches r1 s1 = true ∧ matches r2 s2 = true.
Proof.
  revert r1. induction s as [|a s IH]; intros r1.
  - cbn. rewrite andb_true_iff. split.
    + intros [H1 H2]. by exists [], [].
    + intros (s1 & s2 & Hs & H1 & H2). symmetry in Hs.
      apply app_eq_nil in Hs as [-> ->]. done.
  - cbn [matches deriv].
    assert (matches (seq (deriv a r1) r2) s = true
            ↔ ∃ s1 s2, s = (s1 ++ s2)%list ∧ matches r1 (a :: s1) = true
                       ∧ matches r2 s2 = true) as Hfirst.
    { rewrite matches_seq. apply IH. }
    destruct (nullable r1) eqn:Hnull.
    + rewrite matches_alt, orb_true_iff, Hfirst. split.
      * intros [(s1 & s2 & -> & H1 & H2)|H2].
        -- by exists (a :: s1), s2.
        -- by exists [], (a :: s).
      * intros (s1 & s2 & Hs & H1 & H2). destruct s1 as [|b s1].
        -- right. cbn in Hs. by subst s2.
        -- left. injection Hs as <- ->. by exists s1, s2.
    + rewrite Hfirst. split.
      * intros (s1 & s2 & -> & H1 & H2). by exists (a :: s1), s2.
      * intros (s1 & s2 & Hs & H1 & H2). destruct s1 as [|b s1].
        -- cbn in H1. congruence.
        -- injection Hs as <- ->. by exists s1, s2.
Qed.

Lemma matches_Empty s : matches Empty s = true ↔ s = [].
Proof.
  destruct s as [|a s]; [done|]. cbn. rewrite matches_Never. split; done.
Qed.

Lemma matches_Class p s : matches (Class p) s = true ↔ ∃ a, s = [a] ∧ p a = true.
Proof.
  destruct s as [|a s].
  - cbn. split; [done|]. by intros (a & ? & _).
  - cbn. destruct (p a) eqn:Hp.
    + rewrite matches_Empty. split.
      * intros ->. by exists a.
      * by intros (b & [= <- ->] & _).
    + rewrite matches_Never. split; [done|]. intros (b & [= <- ->] & ?). congruence.
Qed.

(** A text under [re.IGNORECASE] matches the texts that are equal to it up
    to the case of the letters. *)
Lemma matches_text_i t s :
  matches (text_i t) s = true
  ↔ lower_char <$> s = lower_char <$> list_ascii_of_string t.
Proof.
  revert s. induction t as [|c t IH]; intros s.
  - cbn. rewrite matches_Empty. split; [by intros ->|]. by destruct s.
  - cbn [text_i list_ascii_of_string fmap list_fmap]. rewrite matches_Seq. split.
    + intros (s1 & s2 & -> & H1 & H2). apply matches_Class in H1 as (a & -> & Ha).
      apply Ascii.eqb_eq in Ha. cbn. rewrite Ha. f_equal. by apply IH.
    + destruct s as [|a s]; [done|]. cbn. intros [= Ha Hs].
      exists [a], s. split; [done|]. split; [|by apply IH].
      apply matches_Class. exists a. split; [done|]. by apply Ascii.eqb_eq.
Qed.

Lemma alphabet_alt r1 r2 b :
  alphabet (alt r1 r2) b = true → alphabet r1 b || alphabet r2 b = true.
Proof.
  destruct r1, r2; cbn; try done; rewrite ?orb_false_r; try done;
    intros ->; by rewrite ?orb_true_r.
Qed.

Lemma alphabet_seq r1 r2 b :
  alphabet (seq r1 r2) b = true → alphabet r1 b || alphabet r2 b = true.
Proof.
  destruct r1, r2; cbn; try done; rewrite ?orb_false_r; try done;
    intros ->; by rewrite ?orb_true_r.
Qed.

Lemma alphabet_deriv a r b : alphabet (deriv a r) b = true → alphabet r b = true.
Proof.
  induction r as [| |p|r1 IH1 r2 IH2|r1 IH1 r2 IH2|r IH]; cbn [deriv alphabet];
    try done.
  - by destruct (p a).
  - destruct (nullable r1).
    + intros [H|H]%alphabet_alt%orb_true_iff.
      * apply alphabet_seq, orb_true_iff in H as [H|H]; apply orb_true_iff;
          [left; by apply IH1|by right].
      * apply orb_true_iff. right. by apply IH2.
    + intros [H|H]%alphabet_seq%orb_true_iff; apply orb_true_iff;
        [left; by apply IH1|by right].
  - intros [H|H]%alphabet_alt%orb_true_iff; apply orb_true_iff;
      [left; by apply IH1|right; by apply IH2].
  - intros [H|H]%alphabet_seq%orb_true_iff; [by apply IH|done].
Qed.

Lemma matches_Seq_dead r1 r2 s :
  (∀ s1, matches r1 s1 = false) → matches (Seq r1 r2) s = false.
Proof.
  intros Hdead. destruct (matches (Seq r1 r2) s) eqn:Hm; [|done].
  apply matches_Seq in Hm as (s1 & s2 & _ & H1 & _). by rewrite Hdead in H1.
Qed.

Lemma deriv_outside_alphabet a r s :
  alphabet r a = false → matches (deriv a r) s = false.
Proof.
  revert s.
  induction r as [| |p|r1 IH1 r2 IH2|r1 IH1 r2 IH2|r IH]; intros s;
    cbn [deriv alphabet].
  - intros _. apply matches_Never.
  - intros _. apply matches_Never.
  - intros ->. apply matches_Never.
  - intros [H1 H2]%orb_false_iff.
    assert (matches (seq (deriv a r1) r2) s = false) as Hseq.
    { rewrite matches_seq. apply matches_Seq_dead. intros s1. by apply IH1. }
    destruct (nullable r1); [|done].
    by rewrite matches_alt, Hseq, IH2.
  - intros [H1 H2]%orb_false_iff. by rewrite matches_alt, IH1, IH2.
  - intros H. rewrite matches_seq. apply matches_Seq_dead. intros s1. by apply IH.
Qed.

(** A text that matches is made of characters the pattern has a place
    for. *)
Lemma matches_alphabet r s :
  matches r s = true → Forall (λ a, alphabet r a = true) s.
Proof.
  revert r. induction s as [|a s IH]; intros r Hm; [constructor|].
  cbn [matches] in Hm. constructor.
  - destruct (alphabet r a) eqn:Ha; [done|].
    by rewrite deriv_outside_alphabet in Hm.
  - eapply Forall_impl; [by apply IH|]. intros b. apply alphabet_deriv.
Qed.

Lemma case_closed_alt r1 r2 : case_closed r1 → case_closed r2 → case_closed (alt r1 r2).
Proof. intros H1 H2. destruct r1, r2; cbn; try done; by cbn in *. Qed.

Lemma case_closed_seq r1 r2 : case_closed r1 → case_closed r2 → case_closed (seq r1 r2).
Proof. intros H1 H2. destruct r1, r2; cbn; try done; by cbn in *. Qed.

Lemma case_closed_deriv a r : case_closed r → case_closed (deriv a r).
Proof.
  induction r as [| |p|r1 IH1 r2 IH2|r1 IH1 r2 IH2|r IH]; cbn [deriv case_closed];
    try done.
  - intros _. by destruct (p a).
  - intros [H1 H2]. destruct (nullable r1).
    + apply case_closed_alt; [apply case_closed_seq|]; auto.
    + apply case_closed_seq; auto.
  - intros [H1 H2]. apply case_closed_alt; auto.
  - intros H. apply case_closed_seq; auto.
Qed.

Lemma deriv_lower a r : case_closed r → deriv (lower_char a) r = deriv a r.
Proof.
  induction r as [| |p|r1 IH1 r2 IH2|r1 IH1 r2 IH2|r IH]; cbn [deriv case_closed];
    try done.
  - intros Hp. by rewrite Hp.
  - intros [H1 H2]. by rewrite IH1, IH2.
  - intros [H1 H2]. by rewrite IH1, IH2.
  - intros H. by rewrite IH.
Qed.

Lemma matches_lower r s :
  case_closed r → matches r (lower_char <$> s) = matches r s.
Proof.
  revert r. induction s as [|a s IH]; intros r Hr; [done|].
  cbn [fmap list_fmap matches]. rewrite deriv_lower by done.
  apply IH. by apply case_closed_deriv.
Qed.

Lemma case_closed_times n r : case_closed r → case_closed (times n r).
Proof. intros Hr. induction n as [|n IH]; cbn; [done|by split]. Qed.

Lemma case_closed_upto n r : case_closed r → case_closed (upto n r).
Proof. intros Hr. induction n as [|n IH]; cbn; [done|]. by repeat split. Qed.

Lemma case_closed_between lo hi r : case_closed r → case_closed (between lo hi r).
Proof.
  intros Hr. split; [by apply case_closed_times|by apply case_closed_upto].
Qed.

Lemma case_closed_text_i t : case_closed (text_i t).
Proof.
  induction t as [|c t IH]; cbn; [done|]. split; [|done].
  intros a. by rewrite lower_char_idempotent.
Qed.

End RegexFacts.

Section UrlFacts.
Import Py PyMore Regex Url.

Lemma list_ascii_lower s :
  list_ascii_of_string (lower s) = lower_char <$> list_ascii_of_string s.
Proof. induction s as [|c s IH]; [done|]. cbn. by rewrite IH. Qed.

Lemma is_space_lower a : is_space_char (lower_char a) = is_space_char a.
Proof. by destruct a as [[] [] [] [] [] [] [] []]. Qed.

Lemma lstrip_lower s : lstrip (lower s) = lower (lstrip s).
Proof.
  induction s as [|c s IH]; [done|]. cbn [lower lstrip].
  rewrite is_space_lower. by destruct (is_space_char c).
Qed.

Lemma rstrip_lower s : rstrip (lower s) = lower (rstrip s).
Proof.
  induction s as [|c s IH]; [done|]. cbn [lower rstrip].
  rewrite IH, is_space_lower. destruct (rstrip s); [|done].
  cbn [lower]. by destruct (is_space_char c).
Qed.

Lemma strip_lower s : strip (lower s) = lower (strip s).
Proof. unfold strip. by rewrite rstrip_lower, lstrip_lower. Qed.

Lemma lstrip_lstrip s : lstrip (lstrip s) = lstrip s.
Proof.
  induction s as [|c s IH]; [done|]. cbn [lstrip].
  destruct (is_space_char c) eqn:Hc; [done|]. cbn [lstrip]. by rewrite Hc.
Qed.

Lemma rstrip_rstrip s : rstrip (rstrip s) = rstrip s.
Proof.
  induction s as [|c s IH]; [done|]. cbn [rstrip].
  destruct (rstrip s) as [|c' r] eqn:Hr.
  - destruct (is_space_char c) eqn:Hc; [done|]. cbn [rstrip]. by rewrite Hc.
  - cbn [rstrip]. cbn [rstrip] in IH. by rewrite IH.
Qed.

Lemma rstrip_lstrip s : rstrip (lstrip s) = lstrip (rstrip s).
Proof.
  induction s as [|c s IH]; [done|]. cbn [lstrip rstrip].
  destruct (is_space_char c) eqn:Hc.
  - rewrite IH. destruct (rstrip s) as [|c' r]; [done|].
    cbn [lstrip]. by rewrite Hc.
  - cbn [rstrip]. destruct (rstrip s) as [|c' r]; rewrite ?Hc; cbn [lstrip];
      by rewrite Hc.
Qed.

Lemma strip_strip s : strip (strip s) = strip s.
Proof.
  unfold strip. by rewrite rstrip_lstrip, rstrip_rstrip, lstrip_lstrip.
Qed.

Lemma case_closed_char_i c : case_closed (char_i c).
Proof. intros a. cbn. by rewrite lower_char_idempotent. Qed.

Lemma letter_lower a : letter (lower_char a) = letter a.
Proof. by destruct a as [[] [] [] [] [] [] [] []]. Qed.

Lemma digit_lower a : is_digit_char (lower_char a) = is_digit_char a.
Proof. by destruct a as [[] [] [] [] [] [] [] []]. Qed.

Lemma dash_lower a : Ascii.eqb (lower_char a) "-" = Ascii.eqb a "-".
Proof. by destruct a as [[] [] [] [] [] [] [] []]. Qed.

Lemma slash_or_question_lower a :
  slash_or_question (lower_char a) = slash_or_question a.
Proof. by destruct a as [[] [] [] [] [] [] [] []]. Qed.

Lemma case_closed_url_pattern : case_closed url_pattern.
Proof.
  assert (case_closed (Class letter)) as Hl by exact letter_lower.
  assert (case_closed (Class is_digit_char)) as Hd by exact digit_lower.
  assert (case_closed (Class letter_or_digit)) as Hld.
  { intros a. unfold letter_or_digit. by rewrite letter_lower, digit_lower. }
  assert (case_closed (Class letter_digit_or_dash)) as Hldd.
  { intros a. unfold letter_digit_or_dash, letter_or_digit.
    by rewrite letter_lower, digit_lower, dash_lower. }
  assert (case_closed (Class not_space)) as Hns.
  { intros a. unfold not_space. by rewrite is_space_lower. }
  assert (case_closed (Class slash_or_question)) as Hsq
    by exact slash_or_question_lower.
  unfold url_pattern, domain, ip, plus, opt.
  repeat (first [ apply case_closed_text_i | apply case_closed_char_i
                | apply case_closed_between | apply case_closed_upto
                | assumption | exact I | split ]).
Qed.

Lemma url_pattern_no_space a :
  alphabet url_pattern a = true → is_space_char a = false.
Proof.
  destruct (is_space_char a) eqn:Hs; [|done].
  destruct a as [[] [] [] [] [] [] [] []]; try discriminate Hs; vm_compute; done.
Qed.

(** A text [is_valid_url] accepts begins, once the white space around it
    is dropped, with [http://] or [https://] in whatever case, has no white
    space in it, and is not empty. *)
Theorem is_valid_url_needs_scheme_and_no_space (url : string) :
  is_valid_url url = true →
  (String.prefix "http://" (lower (strip url)) = true
   ∨ String.prefix "https://" (lower (strip url)) = true)
  ∧ Forall (λ a, is_space_char a = false) (list_ascii_of_string (strip url))
  ∧ truthy url = true.
Proof.
  unfold is_valid_url. destruct (truthy url); [|done]. cbn [negb].
  intros Hm. split; [|split; [|done]].
  - assert (∃ rest,
              lower (strip url) = String.append "http://" rest
              ∨ lower (strip url) = String.append "https://" rest) as [rest Hrest].
    { rewrite <- (string_of_list_ascii_of_string (lower (strip url))).
      rewrite list_ascii_lower.
      unfold url_pattern in Hm.
      apply matches_Seq in Hm as (s1 & t1 & -> & H1 & Hm).
      apply matches_Seq in Hm as (s2 & t2 & -> & H2 & Hm).
      apply matches_Seq in Hm as (s3 & t3 & -> & H3 & _).
      apply matches_text_i in H1. apply matches_text_i in H3.
      rewrite !fmap_app, H1, H3.
      exists (string_of_list_ascii (lower_char <$> t3)).
      unfold opt in H2. rewrite matches_Alt in H2.
      apply orb_true_iff in H2 as [->%matches_Empty|(a & -> & Ha)%matches_Class].
      - left. done.
      - right. apply Ascii.eqb_eq in Ha. cbn [fmap list_fmap]. rewrite Ha. done. }
    destruct Hrest as [->| ->]; [left|right]; apply prefix_append; by eexists.
  - eapply Forall_impl; [apply (matches_alphabet _ _ Hm)|].
    intros a. apply url_pattern_no_space.
Qed.

Lemma is_valid_url_needs_scheme_and_no_space_witness :
  is_valid_url " HTTPS://medal.tv/clips/abc?x=1 " = true
  ∧ String.prefix "https://" (lower (strip " HTTPS://medal.tv/clips/abc?x=1 ")) = true.
Proof.
  split; [reflexivity|].
  destruct (is_valid_url_needs_scheme_and_no_space
              " HTTPS://medal.tv/clips/abc?x=1 " eq_refl) as [[H|H] _];
    [discriminate H|exact H].
Defined.

(** On ASCII text [is_valid_url] does not look at the case of the letters
    nor at the white space around the text. (Beyond ASCII the pattern and
    [lower] follow the Unicode tables, which are not modelled.) *)
Theorem is_valid_url_ignores_case_and_margins (url : string) :
  isascii url = true →
  is_valid_url (lower url) = is_valid_url url
  ∧ is_valid_url (strip url) = is_valid_url url.
Proof.
  intros _. unfold is_valid_url. split.
  - rewrite truthy_lower, strip_lower, list_ascii_lower.
    by rewrite (matches_lower _ _ case_closed_url_pattern).
  - rewrite strip_strip. destruct (truthy url) eqn:Hu.
    + destruct (strip url) eqn:Hs; [|done]. done.
    + by destruct url.
Qed.

Lemma is_valid_url_ignores_case_and_margins_witness :
  isascii " HTTPS://Medal.TV/clips/Abc?x=1 " = true
  ∧ is_valid_url " HTTPS://Medal.TV/clips/Abc?x=1 " = true
  ∧ is_valid_url (lower " HTTPS://Medal.TV/clips/Abc?x=1 ") = true
  ∧ is_valid_url (strip " HTTPS://Medal.TV/clips/Abc?x=1 ") = true.
Proof.
  split; [reflexivity|]. split; [reflexivity|].
  destruct (is_valid_url_ignores_case_and_margins
              " HTTPS://Medal.TV/clips/Abc?x=1 " eq_refl) as [Hlower Hstrip].
  split; [rewrite Hlower; reflexivity|rewrite Hstrip; reflexivity].
Defined.

(** Some texts and what [is_valid_url] says of them. *)
Example is_valid_url_samples :
  is_valid_url <$> [ "https://medal.tv/clips/abc123?x=1";
                     "http://localhost:8080/x";
                     "HTTP://192.168.0.1";
                     "https://999.999.999.999";
                     "https://example.com/" ]
  = [true; true; true; true; true]
  ∧ is_valid_url <$> [ "ftp://a.io";
                       "https://example.technology";
                       "https://a.io/with space";
                       "https://a.io:80x";
                       "just text";
                       "   " ]
    = [false; false; false; false; false; false].
Proof. split; reflexivity. Qed.

End UrlFacts.
